(** * Content-graph analyzer: a shallow embedding of [app.py]

    The development follows class [WordPressQueryFanOutAnalyzer]:
    the key scheme of the content graph, graph construction
    ([build_content_graph], [build_internal_link_edges],
    [build_taxonomy_edges]), the depth scorer ([calculate_content_depth]),
    the connectivity pass ([analyze_content_depth]), the greedy clusterer
    ([identify_semantic_clusters]) and the recommendation synthesizer
    ([generate_recommendations], [create_action_plan]).

    Conventions.
    - Python [float] is IEEE binary64, embedded as Rocq's primitive [float];
      decimal literals denote the nearest binary64 value, as in Python.
    - Python [str] is embedded as [string]; characters are the code points
      below 256.
    - Python [int] is [Z]; lengths and degrees are [nat].
    - Calls into [re], [sklearn] and [numpy] are parameters of the
      development (section variables): the program's own control flow is
      embedded, the libraries are not.  The two substitutions of
      [clean_html] are simple enough to be given a definition as well
      ([sub_tags], [sub_spaces]); theorems that need it assume that [re.sub]
      agrees with them.
    - The network is an oracle: the reply to each request is a parameter. *)

From Stdlib Require Import List String Ascii ZArith Bool Arith Lia.
From Stdlib Require Import PrimFloat DecimalString DecimalZ.
Import ListNotations.

Set Warnings "-inexact-float".
Set Implicit Arguments.

Open Scope string_scope.

(** ** Python string primitives used by the program *)

Module PyStr.

(** [str.isspace] on code points below 256:
    U+0009..U+000D, U+001C..U+0020, U+0085, U+00A0. *)
Definition isspace (c : ascii) : bool :=
  let n := nat_of_ascii c in
  ((9 <=? n)%nat && (n <=? 13)%nat) || ((28 <=? n)%nat && (n <=? 32)%nat)
  || (n =? 133)%nat || (n =? 160)%nat.

Definition is_empty (s : string) : bool :=
  match s with EmptyString => true | String _ _ => false end.

(** [s.split()]: the maximal runs of non-whitespace characters. [word]
    accumulates the run being read. *)
Fixpoint split_from (s word : string) : list string :=
  match s with
  | EmptyString => if is_empty word then [] else [word]
  | String c rest =>
      if isspace c
      then (if is_empty word then split_from rest ""
            else word :: split_from rest "")
      else split_from rest (word ++ String c "")
  end.

Definition split (s : string) : list string := split_from s "".

(** [s.count(sub)] for a non-empty [sub]: occurrences counted left to
    right without overlap; [skip] is the number of characters still covered
    by the last occurrence. *)
Fixpoint count_from (sub s : string) (skip : nat) : nat :=
  match s with
  | EmptyString => 0
  | String _ rest =>
      match skip with
      | S k => count_from sub rest k
      | O => if prefix sub s
             then S (count_from sub rest (String.length sub - 1))
             else count_from sub rest 0
      end
  end.

Definition count (s sub : string) : nat := count_from sub s 0.

(** [sub in s]. *)
Fixpoint contains (s sub : string) : bool :=
  prefix sub s
  || match s with
     | EmptyString => false
     | String _ rest => contains rest sub
     end.

Fixpoint lstrip (s : string) : string :=
  match s with
  | EmptyString => EmptyString
  | String c rest => if isspace c then lstrip rest else s
  end.

Fixpoint rstrip (s : string) : string :=
  match s with
  | EmptyString => EmptyString
  | String c rest =>
      let rest' := rstrip rest in
      if isspace c && is_empty rest' then EmptyString else String c rest'
  end.

(** [s.strip()]. *)
Definition strip (s : string) : string := rstrip (lstrip s).

(** [str(n)] for an [int]: decimal digits, a leading minus sign for a
    negative number. *)
Definition of_int (n : Z) : string := NilEmpty.string_of_int (Z.to_int n).

(** [sep.join(l)]. *)
Fixpoint join (sep : string) (l : list string) : string :=
  match l with
  | [] => ""
  | [x] => x
  | x :: rest => x ++ sep ++ join sep rest
  end.

End PyStr.

(** ** Python list primitives *)

Module PyList.

(** [l[:n]]. *)
Definition take {A} (n : nat) (l : list A) : list A := firstn n l.

(** [l[-n:]] for [n > 0]: the last [n] elements, all of them when the list
    is shorter. *)
Definition last_n {A} (n : nat) (l : list A) : list A :=
  skipn (List.length l - n) l.

End PyList.

(** ** Floats *)

Module PyFloat.

(** [min(a, b)] of the builtin: [b] replaces [a] only when [b < a]. *)
Definition min (a b : float) : float := if PrimFloat.ltb b a then b else a.

(** [a > b]. *)
Definition gt (a b : float) : bool := PrimFloat.ltb b a.

(** [a <= b]. *)
Definition le (a b : float) : bool := PrimFloat.leb a b.

End PyFloat.

(** ** Node keys

    Posts are keyed by their raw integer id, pages by ["page_<id>"],
    categories by ["cat_<id>"], tags by ["tag_<id>"].  A Python [int] never
    equals a [str], hence the two constructors. *)

Inductive node_key : Type :=
| IntKey (n : Z)
| StrKey (s : string).

Definition node_key_eqb (a b : node_key) : bool :=
  match a, b with
  | IntKey x, IntKey y => Z.eqb x y
  | StrKey x, StrKey y => String.eqb x y
  | _, _ => false
  end.

Definition post_key (id : Z) : node_key := IntKey id.
Definition page_key (id : Z) : node_key := StrKey ("page_" ++ PyStr.of_int id).
Definition cat_key (id : Z) : node_key := StrKey ("cat_" ++ PyStr.of_int id).
Definition tag_key (id : Z) : node_key := StrKey ("tag_" ++ PyStr.of_int id).

(** The four kinds of record the graph builder turns into nodes, and the key
    each kind receives. *)
Inductive kind : Type := Article | Page | Category | Tag.

Definition key_of (k : kind) (id : Z) : node_key :=
  match k with
  | Article => post_key id
  | Page => page_key id
  | Category => cat_key id
  | Tag => tag_key id
  end.


(** ** Node attributes

    A node's attribute dictionary.  Every attribute the program ever stores
    is a field; [None] is an absent key. *)

Record attrs : Type := mk_attrs {
  a_type : option string;
  a_title : option string;
  a_url : option string;
  a_content : option string;
  a_excerpt : option string;
  a_categories : option (list Z);
  a_tags : option (list Z);
  a_date : option string;
  a_parent : option Z;
  a_name : option string;
  a_slug : option string
}.

Definition empty_attrs : attrs :=
  mk_attrs None None None None None None None None None None None.

Definition override {A} (old new : option A) : option A :=
  match new with Some _ => new | None => old end.

(** [dict.update]: keys of [new] replace those of [old]. *)
Definition attrs_update (old new : attrs) : attrs :=
  mk_attrs (override (a_type old) (a_type new))
           (override (a_title old) (a_title new))
           (override (a_url old) (a_url new))
           (override (a_content old) (a_content new))
           (override (a_excerpt old) (a_excerpt new))
           (override (a_categories old) (a_categories new))
           (override (a_tags old) (a_tags new))
           (override (a_date old) (a_date new))
           (override (a_parent old) (a_parent new))
           (override (a_name old) (a_name new))
           (override (a_slug old) (a_slug new)).

(** [d.get(key, default)]. *)
Definition get_or {A} (o : option A) (default : A) : A :=
  match o with Some x => x | None => default end.

(** ** Depth scorer: [calculate_content_depth] *)

Open Scope float_scope.

(** The accumulation of the score, once the features of the content are
    known: the statements of [calculate_content_depth] that touch [score], in
    source order. *)
Definition depth_score (word_count h2_count h3_count : nat)
           (media lists schema : bool) : float :=
  let score := 0.0 in
  let score :=
    if (2000 <? word_count)%nat then score + 0.3
    else if (1000 <? word_count)%nat then score + 0.2
    else if (500 <? word_count)%nat then score + 0.1
    else score in
  let score := if (3 <? h2_count)%nat then score + 0.2 else score in
  let score := if (5 <? h3_count)%nat then score + 0.1 else score in
  let score := if media then score + 0.1 else score in
  let score := if lists then score + 0.1 else score in
  let score := if schema then score + 0.2 else score in
  PyFloat.min score 1.0.

Definition word_count_of (content : string) : nat :=
  List.length (PyStr.split content).

Definition h2_count_of (content : string) : nat :=
  (PyStr.count content "<h2" + PyStr.count content "## ")%nat.

Definition h3_count_of (content : string) : nat :=
  (PyStr.count content "<h3" + PyStr.count content "### ")%nat.

Definition has_media (content : string) : bool :=
  PyStr.contains content "<img" || PyStr.contains content "[gallery".

Definition has_lists (content : string) : bool :=
  PyStr.contains content "<ul" || PyStr.contains content "<ol"
  || PyStr.contains content "- ".

Definition has_schema (content : string) : bool :=
  PyStr.contains content "itemtype" || PyStr.contains content "@type".

Definition calculate_content_depth (node_data : attrs) : float :=
  let word_count := word_count_of (get_or (a_content node_data) "") in
  let content := get_or (a_content node_data) "" in
  depth_score word_count (h2_count_of content) (h3_count_of content)
              (has_media content) (has_lists content) (has_schema content).

Close Scope float_scope.

(** ** The directed graph ([networkx.DiGraph])

    [g_node] is the node dictionary in insertion order.  [g_edges] lists the
    edges in insertion order; a [DiGraph] holds at most one edge per ordered
    pair of nodes, and the only edge attribute the program sets is ['type']. *)

Record DiGraph : Type := mk_graph {
  g_node : list (node_key * attrs);
  g_edges : list (node_key * node_key * string)
}.

Definition empty_graph : DiGraph := mk_graph [] [].

Definition has_node (g : DiGraph) (k : node_key) : bool :=
  existsb (fun p => node_key_eqb (fst p) k) (g_node g).

Fixpoint update_node (k : node_key) (a : attrs) (l : list (node_key * attrs))
  : list (node_key * attrs) :=
  match l with
  | [] => []
  | (k', d) :: rest =>
      if node_key_eqb k' k then (k', attrs_update d a) :: rest
      else (k', d) :: update_node k a rest
  end.

(** [G.add_node(k, **a)]: a new key is appended, an existing key has its
    attributes updated. *)
Definition add_node (g : DiGraph) (k : node_key) (a : attrs) : DiGraph :=
  if has_node g k
  then mk_graph (update_node k a (g_node g)) (g_edges g)
  else mk_graph (g_node g ++ [(k, a)]) (g_edges g).

Definition edge_eqb (u v : node_key) (e : node_key * node_key * string) : bool :=
  node_key_eqb (fst (fst e)) u && node_key_eqb (snd (fst e)) v.

Fixpoint set_edge (u v : node_key) (ty : string)
         (l : list (node_key * node_key * string))
  : list (node_key * node_key * string) :=
  match l with
  | [] => [(u, v, ty)]
  | e :: rest =>
      if edge_eqb u v e then (u, v, ty) :: rest
      else e :: set_edge u v ty rest
  end.

(** [G.add_edge(u, v, type=ty)]: an endpoint that is not yet a node is added
    with an empty attribute dictionary ([u] first); then the edge is stored,
    replacing the type of an existing edge between the same pair. *)
Definition add_edge (g : DiGraph) (u v : node_key) (ty : string) : DiGraph :=
  let g1 := if has_node g u then g else add_node g u empty_attrs in
  let g2 := if has_node g1 v then g1 else add_node g1 v empty_attrs in
  mk_graph (g_node g2) (set_edge u v ty (g_edges g2)).

Definition out_degree (g : DiGraph) (k : node_key) : nat :=
  List.length (filter (fun e => node_key_eqb (fst (fst e)) k) (g_edges g)).

Definition in_degree (g : DiGraph) (k : node_key) : nat :=
  List.length (filter (fun e => node_key_eqb (snd (fst e)) k) (g_edges g)).

(** ** Raw records of the content source *)

Record raw_post : Type := mk_post {
  post_id : Z;
  post_title : string;
  post_link : string;
  post_content : string;
  post_excerpt : string;
  post_categories : option (list Z);
  post_tags : option (list Z);
  post_date : string
}.

Record raw_page : Type := mk_page {
  page_id : Z;
  page_title : string;
  page_link : string;
  page_content : string;
  page_parent : option Z;
  page_date : string
}.

Record raw_term : Type := mk_term {
  term_id : Z;
  term_name : string;
  term_slug : string
}.

Record site_content : Type := mk_content {
  posts : list raw_post;
  pages : list raw_page;
  categories : list raw_term;
  tags : list raw_term
}.

(** ** The analyzer object, exceptions, and the monad of its methods

    A method is a function of the analyzer's state that returns a value or
    raises, together with the state it leaves behind: what a method wrote to
    [self] before raising stays written. *)

Inductive exn : Type :=
| KeyError (key : string)
| RuntimeError (msg : string)
| TypeError (msg : string).

Inductive result (A : Type) : Type :=
| Ok (a : A)
| Raise (e : exn).

Arguments Ok {A} a.
Arguments Raise {A} e.

Record analyzer : Type := mk_analyzer {
  site_url : string;
  content_graph : DiGraph;
  (** the vocabulary [self.tfidf_vectorizer] holds once fitted *)
  fitted_vocabulary : option (list string)
}.

Definition M (A : Type) : Type := analyzer -> result A * analyzer.

Definition ret {A} (a : A) : M A := fun self => (Ok a, self).

Definition bind {A B} (m : M A) (k : A -> M B) : M B :=
  fun self =>
    match m self with
    | (Ok a, self') => k a self'
    | (Raise e, self') => (Raise e, self')
    end.

Definition raise {A} (e : exn) : M A := fun self => (Raise e, self).

Definition get_graph : M DiGraph := fun self => (Ok (content_graph self), self).

Definition modify_graph (f : DiGraph -> DiGraph) : M unit :=
  fun self =>
    (Ok tt, mk_analyzer (site_url self) (f (content_graph self))
                        (fitted_vocabulary self)).

Declare Scope py_scope.
Delimit Scope py_scope with py.
Notation "x <- m ;; k" := (bind m (fun x => k))
  (at level 61, m at next level, right associativity) : py_scope.
Notation "m ;;; k" := (bind m (fun _ => k))
  (at level 61, right associativity) : py_scope.
Open Scope py_scope.

(** [for x in l: body] over a list the body does not change; [acc] stands
    for the local variables the body assigns. *)
Fixpoint for_each_acc {A S} (l : list A) (body : A -> S -> M S) (acc : S)
  : M S :=
  match l with
  | [] => ret acc
  | x :: rest => acc' <- body x acc ;; for_each_acc rest body acc'
  end.

Definition for_each {A} (l : list A) (body : A -> M unit) : M unit :=
  for_each_acc l (fun x _ => body x) tt.

(** [d[key]] on an attribute dictionary. *)
Definition subscript {A} (key : string) (o : option A) : M A :=
  match o with
  | Some x => ret x
  | None => raise (KeyError key)
  end.

(** Each step of a dictionary iterator first compares the dictionary's size
    with the size it had when the iterator was created. *)
Definition check_size (size0 : nat) : M unit :=
  fun self =>
    if (List.length (g_node (content_graph self)) =? size0)%nat
    then (Ok tt, self)
    else (Raise (RuntimeError "dictionary changed size during iteration"), self).

Fixpoint iterate_nodes {S} (items : list (node_key * attrs)) (size0 : nat)
         (body : node_key -> attrs -> S -> M S) (acc : S) : M S :=
  match items with
  | [] => check_size size0 ;;; ret acc
  | (k, d) :: rest =>
      check_size size0 ;;;
      acc' <- body k d acc ;;
      iterate_nodes rest size0 body acc'
  end.

(** [for node_id, data in self.content_graph.nodes(data=True): body]: an
    iteration over the live node dictionary.  The loops of this program only
    ever append nodes to it, and an append is detected by the next step of
    the iterator; so the items the loop sees are those present at its start. *)
Definition for_nodes_acc {S} (body : node_key -> attrs -> S -> M S) (acc : S)
  : M S :=
  g <- get_graph ;;
  iterate_nodes (g_node g) (List.length (g_node g)) body acc.

Definition for_nodes (body : node_key -> attrs -> M unit) : M unit :=
  for_nodes_acc (fun k d _ => body k d) tt.

Definition dquote : string := String (ascii_of_nat 34) "".

Section GraphBuilder.

(** [re.sub(pattern, repl, s)] and [re.findall(pattern, s)]. *)
Variable re_sub : string -> string -> string -> string.
Variable re_findall : string -> string -> list string.

Definition clean_html (html : string) : string :=
  let text := re_sub "<.*?>" "" html in
  let text := re_sub "\s+" " " text in
  PyStr.strip text.

Definition post_attrs (post : raw_post) : attrs :=
  {| a_type := Some "post";
     a_title := Some (post_title post);
     a_url := Some (post_link post);
     a_content := Some (clean_html (post_content post));
     a_excerpt := Some (clean_html (post_excerpt post));
     a_categories := Some (get_or (post_categories post) []);
     a_tags := Some (get_or (post_tags post) []);
     a_date := Some (post_date post);
     a_parent := None; a_name := None; a_slug := None |}.

Definition page_attrs (page : raw_page) : attrs :=
  {| a_type := Some "page";
     a_title := Some (page_title page);
     a_url := Some (page_link page);
     a_content := Some (clean_html (page_content page));
     a_excerpt := None; a_categories := None; a_tags := None;
     a_date := Some (page_date page);
     a_parent := Some (get_or (page_parent page) 0%Z);
     a_name := None; a_slug := None |}.

Definition term_attrs (ty : string) (t : raw_term) : attrs :=
  {| a_type := Some ty;
     a_title := None; a_url := None; a_content := None; a_excerpt := None;
     a_categories := None; a_tags := None; a_date := None; a_parent := None;
     a_name := Some (term_name t);
     a_slug := Some (term_slug t) |}.

(** The first node whose ['url'] equals [link]: the inner loop of
    [build_internal_link_edges] up to its [break]. *)
Definition find_target (g : DiGraph) (link : string) : option node_key :=
  match find (fun p => match a_url (snd p) with
                       | Some u => String.eqb u link
                       | None => false
                       end) (g_node g) with
  | Some p => Some (fst p)
  | None => None
  end.

Definition link_pattern (url : string) : string :=
  url ++ "/[^" ++ dquote ++ "'>\s]+".

Definition build_internal_link_edges : M unit :=
  for_nodes (fun node_id data =>
    match a_content data with
    | Some content =>
        fun self =>
          (let links := re_findall (link_pattern (site_url self)) content in
           for_each links (fun link =>
             g <- get_graph ;;
             match find_target g link with
             | Some target_id =>
                 modify_graph (fun g =>
                   add_edge g node_id target_id "internal_link")
             | None => ret tt
             end)) self
    | None => ret tt
    end).

(** The body of the last loop of [build_taxonomy_edges], which connects a
    post to its categories and tags. *)
Definition connect_post (node_id : node_key) (data : attrs) : M unit :=
  ty <- subscript "type" (a_type data) ;;
  if String.eqb ty "post" then
    for_each (get_or (a_categories data) []) (fun cat_id =>
      modify_graph (fun g =>
        add_edge g node_id (cat_key cat_id) "categorized_as")) ;;;
    for_each (get_or (a_tags data) []) (fun tag_id =>
      modify_graph (fun g =>
        add_edge g node_id (tag_key tag_id) "tagged_as"))
  else ret tt.

Definition build_taxonomy_edges (content : site_content) : M unit :=
  for_each (categories content) (fun cat =>
    modify_graph (fun g =>
      add_node g (cat_key (term_id cat)) (term_attrs "category" cat))) ;;;
  for_each (tags content) (fun tag =>
    modify_graph (fun g =>
      add_node g (tag_key (term_id tag)) (term_attrs "tag" tag))) ;;;
  for_nodes connect_post.

Definition build_content_graph (content : site_content) : M DiGraph :=
  for_each (posts content) (fun post =>
    modify_graph (fun g =>
      add_node g (post_key (post_id post)) (post_attrs post))) ;;;
  for_each (pages content) (fun page =>
    modify_graph (fun g =>
      add_node g (page_key (page_id page)) (page_attrs page))) ;;;
  build_internal_link_edges ;;;
  build_taxonomy_edges content ;;;
  get_graph.

End GraphBuilder.


(** [self.__init__(site_url, ...)]: the stored url has its trailing slashes
    removed, the graph is empty, the vectorizer is not fitted. *)
Fixpoint rstrip_slash (s : string) : string :=
  match s with
  | EmptyString => EmptyString
  | String c rest =>
      let rest' := rstrip_slash rest in
      if Ascii.eqb c "/"%char && PyStr.is_empty rest' then EmptyString
      else String c rest'
  end.

Definition init (url : string) : analyzer :=
  mk_analyzer (rstrip_slash url) empty_graph None.

(** ** Results of the analysis *)

Record score_data : Type := mk_score {
  sd_title : string;
  sd_url : string;
  sd_depth_score : float;
  sd_word_count : nat;
  sd_internal_links : nat;
  sd_backlinks : nat
}.

Record member : Type := mk_member {
  m_id : node_key;
  m_similarity : float
}.

Record cluster : Type := mk_cluster {
  center : node_key;
  members : list member;
  theme : list string
}.

Record depth_analysis : Type := mk_depth_analysis {
  content_scores : list (node_key * score_data);
  hub_potential : list score_data;
  orphan_content : list score_data;
  semantic_clusters : list cluster
}.

(** [d[k] = v] on an insertion-ordered dictionary. *)
Fixpoint dict_set {V} (k : node_key) (v : V) (d : list (node_key * V))
  : list (node_key * V) :=
  match d with
  | [] => [(k, v)]
  | (k', v') :: rest =>
      if node_key_eqb k' k then (k', v) :: rest
      else (k', v') :: dict_set k v rest
  end.

Definition is_post_or_page (ty : string) : bool :=
  String.eqb ty "post" || String.eqb ty "page".

(** The member keys of a cluster. *)
Definition member_ids (c : cluster) : list node_key := map m_id (members c).

(** [k in visited]. *)
Definition in_set (k : node_key) (visited : list node_key) : bool :=
  existsb (node_key_eqb k) visited.

(** ** Option as the monad of a [try] block: [None] is any exception the
    enclosing [except Exception] catches. *)

Definition obind {A B} (o : option A) (k : A -> option B) : option B :=
  match o with Some a => k a | None => None end.

Notation "x <-? o ;; k" := (obind o (fun x => k))
  (at level 61, o at next level, right associativity) : py_scope.

Fixpoint ofold {A S} (l : list A) (body : A -> S -> option S) (acc : S)
  : option S :=
  match l with
  | [] => Some acc
  | x :: rest => acc' <-? body x acc ;; ofold rest body acc'
  end.

Section Clusterer.

(** [self.tfidf_vectorizer.fit_transform(texts)]: [None] when it raises,
    otherwise the fitted feature names and the rows of the TF-IDF matrix.
    A fit starts from the texts alone, whatever was fitted before. *)
Variable fit_transform : list string -> option (list string * list (list float)).

(** [cosine_similarity(tfidf_matrix)]. *)
Variable cosine_similarity : list (list float) -> list (list float).

(** [numpy.argsort] of a row. *)
Variable argsort : list float -> list nat.

(** [extract_cluster_theme]; [vocabulary] is what
    [self.tfidf_vectorizer.get_feature_names_out()] returns. *)
Definition extract_cluster_theme (vocabulary : option (list string))
           (doc_index : nat) (tfidf_matrix : list (list float))
  : option (list string) :=
  feature_names <-? vocabulary ;;
  doc_tfidf <-? nth_error tfidf_matrix doc_index ;;
  let top_indices := rev (PyList.last_n 5 (argsort doc_tfidf)) in
  ofold top_indices (fun i acc =>
    w <-? nth_error doc_tfidf i ;;
    if PyFloat.gt w 0%float
    then name <-? nth_error feature_names i ;; Some (acc ++ [name])%list
    else Some acc) [].

(** The inner loop of the clusterer: [for j in range(len(node_ids))], with
    the member list of the cluster and the visited set as its variables. *)
Definition scan_members (node_ids : list node_key)
           (similarity_matrix : list (list float)) (i : nat)
           (acc : list member * list node_key)
  : option (list member * list node_key) :=
  ofold (seq 0 (List.length node_ids)) (fun j acc =>
    row <-? nth_error similarity_matrix i ;;
    s <-? nth_error row j ;;
    if PyFloat.gt s 0.3%float
    then id_j <-? nth_error node_ids j ;;
         Some ((fst acc ++ [mk_member id_j s])%list, id_j :: snd acc)
    else Some acc) acc.

(** The outer loop: [for i in range(len(node_ids))], with the visited set
    and the cluster list as its variables. *)
Definition cluster_step (vocabulary : option (list string))
           (node_ids : list node_key) (tfidf_matrix similarity_matrix : list (list float))
           (i : nat) (acc : list node_key * list cluster)
  : option (list node_key * list cluster) :=
  id_i <-? nth_error node_ids i ;;
  if in_set id_i (fst acc) then Some acc
  else
    th <-? extract_cluster_theme vocabulary i tfidf_matrix ;;
    r <-? scan_members node_ids similarity_matrix i ([], fst acc) ;;
    let c := mk_cluster id_i (fst r) th in
    if (1 <? List.length (members c))%nat
    then Some (snd r, (snd acc ++ [c])%list)
    else Some (snd r, snd acc).

Definition greedy_clusters (vocabulary : option (list string))
           (node_ids : list node_key) (tfidf_matrix similarity_matrix : list (list float))
  : option (list cluster) :=
  r <-? ofold (seq 0 (List.length node_ids))
              (cluster_step vocabulary node_ids tfidf_matrix similarity_matrix)
              ([], []) ;;
  Some (snd r).

(** The first loop of [identify_semantic_clusters]: the posts and pages with
    non-empty content, as [(node_id, content)] in node order. *)
Definition eligible_documents : M (list (node_key * string)) :=
  for_nodes_acc (fun node_id data docs =>
    ty <- subscript "type" (a_type data) ;;
    if is_post_or_page ty
       && negb (PyStr.is_empty (get_or (a_content data) ""))
    then content <- subscript "content" (a_content data) ;;
         ret (docs ++ [(node_id, content)])%list
    else ret docs) [].

Definition identify_semantic_clusters : M (list cluster) :=
  docs <- eligible_documents ;;
  let content_texts := map snd docs in
  let node_ids := map fst docs in
  match content_texts with
  | [] => ret []
  | _ :: _ =>
      fun self =>
        match fit_transform content_texts with
        | None => (Ok [], self)
        | Some (feature_names, tfidf_matrix) =>
            let self' := mk_analyzer (site_url self) (content_graph self)
                                     (Some feature_names) in
            let similarity_matrix := cosine_similarity tfidf_matrix in
            match greedy_clusters (fitted_vocabulary self') node_ids
                                  tfidf_matrix similarity_matrix with
            | Some clusters => (Ok clusters, self')
            | None => (Ok [], self')
            end
        end
  end.

(** ** Connectivity analyzer: [analyze_content_depth] *)

Definition is_hub (sd : score_data) : bool :=
  (5 <? sd_internal_links sd)%nat && PyFloat.gt (sd_depth_score sd) 0.7%float.

Definition is_orphan (sd : score_data) : bool :=
  (sd_backlinks sd =? 0)%nat && (sd_internal_links sd <? 2)%nat.

Definition score_nodes : M (list (node_key * score_data)) :=
  for_nodes_acc (fun node_id data scores =>
    ty <- subscript "type" (a_type data) ;;
    if is_post_or_page ty then
      let score := calculate_content_depth data in
      title <- subscript "title" (a_title data) ;;
      url <- subscript "url" (a_url data) ;;
      g <- get_graph ;;
      ret (dict_set node_id
             (mk_score title url score
                       (word_count_of (get_or (a_content data) ""))
                       (out_degree g node_id) (in_degree g node_id))
             scores)
    else ret scores) [].

Definition analyze_content_depth : M depth_analysis :=
  scores <- score_nodes ;;
  let hubs := filter is_hub (map snd scores) in
  let orphans := filter is_orphan (map snd scores) in
  clusters <- identify_semantic_clusters ;;
  ret (mk_depth_analysis scores hubs orphans clusters).

End Clusterer.

(** ** Recommendation synthesizer *)

Record recommendation : Type := mk_recommendation {
  r_type : string;
  r_priority : string;
  r_action : string;
  r_details : string;
  r_url : option string;
  r_impact : string
}.

Record action_item : Type := mk_action_item {
  ai_action : string;
  ai_details : string;
  ai_expected_impact : string
}.

Record action_plan : Type := mk_action_plan {
  immediate : list action_item;
  short_term : list action_item;
  long_term : list action_item
}.

(** The value stored under ['gaps'] in the query patterns, which come from
    the parsed reply of the language model: a value a [for] loop can
    iterate (its items of some type [G]) or one it cannot. *)
Inductive gaps_value (G : Type) : Type :=
| Iterable (items : list G)
| NotIterable.

Arguments Iterable {G} items.
Arguments NotIterable {G}.

(** The query patterns, as far as the synthesizer reads them: the ['gaps']
    key, when present. *)
Record query_patterns (G : Type) : Type := mk_query_patterns {
  qp_gaps : option (gaps_value G)
}.

Section Synthesizer.

Variable G : Type.

(** [str(gap)], as an f-string interpolates it. *)
Variable str_of_gap : G -> string.

Definition gap_recommendation (gap : G) : recommendation :=
  mk_recommendation "content_gap" "high" "Create new content"
    ("Create content to answer sub-query: " ++ str_of_gap gap)
    None "Enables multi-hop reasoning path".

Definition orphan_recommendation (orphan : score_data) : recommendation :=
  mk_recommendation "orphan_content" "medium" "Add internal links"
    ("Connect orphan content: " ++ sd_title orphan)
    (Some (sd_url orphan)) "Improves content graph connectivity".

Definition hub_recommendation (hub : score_data) : recommendation :=
  mk_recommendation "hub_optimization" "high" "Enhance hub page"
    ("Optimize hub potential: " ++ sd_title hub)
    (Some (sd_url hub)) "Strengthens multi-source selection".

Definition cluster_recommendation (c : cluster) : recommendation :=
  mk_recommendation "semantic_bridge" "medium" "Create semantic bridges"
    ("Link related content in cluster: " ++ PyStr.join ", " (theme c))
    None "Enables query fan-out paths".

Definition generate_recommendations (patterns : query_patterns G)
           (analysis : depth_analysis) : result (list recommendation) :=
  let recommendations := [] in
  match
    match qp_gaps patterns with
    | None => Ok recommendations
    | Some (Iterable gaps) =>
        Ok (recommendations ++ map gap_recommendation gaps)%list
    | Some NotIterable => Raise (TypeError "object is not iterable")
    end
  with
  | Raise e => Raise e
  | Ok recommendations =>
      let recommendations :=
        (recommendations
           ++ map orphan_recommendation
                  (PyList.take 5 (orphan_content analysis)))%list in
      let recommendations :=
        (recommendations
           ++ map hub_recommendation
                  (PyList.take 3 (hub_potential analysis)))%list in
      let recommendations :=
        (recommendations
           ++ map cluster_recommendation
                  (PyList.take 3 (semantic_clusters analysis)))%list in
      Ok recommendations
  end.

End Synthesizer.

Definition plan_item (rec : recommendation) : action_item :=
  mk_action_item (r_action rec) (r_details rec) (r_impact rec).

Definition plan_step (plan : action_plan) (rec : recommendation) : action_plan :=
  if String.eqb (r_priority rec) "high" then
    mk_action_plan (immediate plan ++ [plan_item rec])%list
                   (short_term plan) (long_term plan)
  else if String.eqb (r_priority rec) "medium" then
    mk_action_plan (immediate plan)
                   (short_term plan ++ [plan_item rec])%list (long_term plan)
  else
    mk_action_plan (immediate plan) (short_term plan)
                   (long_term plan ++ [plan_item rec])%list.

Definition create_action_plan (recommendations : list recommendation)
  : action_plan :=
  fold_left plan_step recommendations (mk_action_plan [] [] []).

(** ** The depth score as the design states it

    The sum of the applicable contributions, clamped at 1.0.  A
    contribution that does not apply counts as 0. *)

Definition word_count_contribution (word_count : nat) : float :=
  if (2000 <? word_count)%nat then 0.3%float
  else if (1000 <? word_count)%nat then 0.2%float
  else if (500 <? word_count)%nat then 0.1%float
  else 0%float.

Definition bonus_contributions (h2_count h3_count : nat)
           (media lists schema : bool) : list float :=
  [ if (3 <? h2_count)%nat then 0.2%float else 0%float;
    if (5 <? h3_count)%nat then 0.1%float else 0%float;
    if media then 0.1%float else 0%float;
    if lists then 0.1%float else 0%float;
    if schema then 0.2%float else 0%float ].

Definition spec_depth_score (word_count h2_count h3_count : nat)
           (media lists schema : bool) : float :=
  PyFloat.min
    (fold_left PrimFloat.add
               (word_count_contribution word_count
                  :: bonus_contributions h2_count h3_count media lists schema)
               0%float)
    1.0%float.

(** A document of [n] words, each followed by a space. *)
Fixpoint words (n : nat) : string :=
  match n with
  | O => ""
  | S k => String "w" (String " " (words k))
  end.

Definition content_attrs (content : string) : attrs :=
  mk_attrs (Some "post") (Some "t") (Some "u") (Some content)
           None None None None None None None.

(** More than 2000 words, four level-2 and six level-3 heading markers, an
    image, a list and a schema marker. *)
Definition rich_document : attrs :=
  content_attrs
    (words 2001
     ++ "<h2 <h2 <h2 <h2 ### ### ### ### ### ### <img <ul itemtype").

Definition short_document : attrs := content_attrs (words 3).

Definition long_document : attrs := content_attrs (words 501).

(** A sample analysis result and sample query patterns. *)
Definition sample_score : score_data :=
  mk_score "About" "http://site.example/about" 0.8%float 2500 6 0.

Definition sample_analysis : depth_analysis :=
  mk_depth_analysis [(IntKey 1, sample_score)] [sample_score] [sample_score]
    [mk_cluster (IntKey 1)
                [mk_member (IntKey 1) 1.0%float; mk_member (IntKey 2) 0.5%float]
                ["apple"; "banana"]].

Definition sample_patterns : query_patterns string :=
  mk_query_patterns (Some (Iterable ["what is an apple"])).

(** The priority each type of recommendation carries. *)
Definition typed_priority (r : recommendation) : Prop :=
  (r_type r = "content_gap" /\ r_priority r = "high")
  \/ (r_type r = "hub_optimization" /\ r_priority r = "high")
  \/ (r_type r = "orphan_content" /\ r_priority r = "medium")
  \/ (r_type r = "semantic_bridge" /\ r_priority r = "medium").

(** ** Sample sites for the clusterer

    Three documents over the vocabulary [apple; banana].  Their TF-IDF rows,
    normalised to unit length as the vectorizer leaves them, are [1, 0] for
    ["apple"], [0, 1] for ["banana"] and [c, c] with [c] the square root
    of 1/2 for ["apple banana"].  The library calls are instantiated by the
    values they take on these documents. *)

Module Sample.

Definition row_of (text : string) : list float :=
  if String.eqb text "apple" then [1.0; 0.0]%float
  else if String.eqb text "banana" then [0.0; 1.0]%float
  else if String.eqb text "apple banana"
       then [0.7071067811865475; 0.7071067811865475]%float
  else [0.0; 0.0]%float.

Definition fit_transform (texts : list string)
  : option (list string * list (list float)) :=
  Some (["apple"; "banana"], map row_of texts).

Definition dot (a b : list float) : float :=
  fold_left (fun acc p => (acc + fst p * snd p)%float) (combine a b) 0%float.

(** The cosine similarity of unit rows is their dot product. *)
Definition cosine_similarity (m : list (list float)) : list (list float) :=
  map (fun r => map (dot r) m) m.

Fixpoint insert_index (row : list float) (i : nat) (sorted : list nat)
  : list nat :=
  match sorted with
  | [] => [i]
  | j :: rest =>
      if PrimFloat.ltb (nth i row 0%float) (nth j row 0%float)
      then i :: sorted
      else j :: insert_index row i rest
  end.

(** The indices of [row] in ascending order of weight. *)
Definition argsort (row : list float) : list nat :=
  fold_left (fun sorted i => insert_index row i sorted)
            (seq 0 (List.length row)) [].

Definition site_of (docs : list (node_key * string)) : analyzer :=
  mk_analyzer "http://site.example"
              (mk_graph (map (fun d => (fst d, content_attrs (snd d))) docs) [])
              None.

(** ["apple"], ["apple banana"], ["banana"], in this order. *)
Definition chain_site : analyzer :=
  site_of [(IntKey 1, "apple"); (IntKey 2, "apple banana");
           (IntKey 3, "banana")].

(** ["apple banana"], ["apple"], ["banana"], in this order. *)
Definition star_site : analyzer :=
  site_of [(IntKey 2, "apple banana"); (IntKey 1, "apple");
           (IntKey 3, "banana")].

Definition star_ids : list node_key := [IntKey 2; IntKey 1; IntKey 3].

Definition star_similarity : list (list float) :=
  cosine_similarity (map row_of ["apple banana"; "apple"; "banana"]).

End Sample.

(** ** Properties of a cluster list *)

(** Any two distinct clusters have disjoint member keys. *)
Definition members_disjoint (cs : list cluster) : Prop :=
  forall c1 c2 k,
    In c1 cs -> In c2 cs -> c1 <> c2 ->
    In k (member_ids c1) -> ~ In k (member_ids c2).

(** [similarity_matrix[j1][j2]]. *)
Definition entry (m : list (list float)) (j1 j2 : nat) : option float :=
  row <-? nth_error m j1 ;; nth_error row j2.

(** Any two members of a cluster are more than 0.3 similar to each other,
    [node_ids] and [similarity_matrix] being the documents of the run and
    their similarity matrix. *)
Definition members_pairwise_similar (node_ids : list node_key)
           (similarity_matrix : list (list float)) (cs : list cluster) : Prop :=
  forall c j1 j2 k1 k2 s,
    In c cs ->
    nth_error node_ids j1 = Some k1 -> nth_error node_ids j2 = Some k2 ->
    In k1 (member_ids c) -> In k2 (member_ids c) ->
    entry similarity_matrix j1 j2 = Some s ->
    PyFloat.gt s 0.3%float = true.

(** The center of a cluster is no member of a cluster listed before it. *)
Definition centers_unclaimed (cs : list cluster) : Prop :=
  forall i j c1 c2,
    (i < j)%nat -> nth_error cs i = Some c1 -> nth_error cs j = Some c2 ->
    ~ In (center c2) (member_ids c1).

(** [m] was recorded for the cluster [c] from the entry of the similarity
    matrix in the row of the center and the column of the member. *)
Definition recorded_from (node_ids : list node_key)
           (similarity_matrix : list (list float)) (c : cluster) (m : member)
  : Prop :=
  exists i j,
    nth_error node_ids i = Some (center c)
    /\ nth_error node_ids j = Some (m_id m)
    /\ entry similarity_matrix i j = Some (m_similarity m).

(** ** Loop invariants of the clusterer *)

(** What the scan of row [i] maintains: the members recorded so far are
    visited, exceed the threshold, and come from row [i]; nothing leaves the
    visited set. *)
Definition scan_invariant (node_ids : list node_key)
           (similarity_matrix : list (list float)) (i : nat)
           (visited0 : list node_key)
           (acc : list member * list node_key) : Prop :=
  (forall m, In m (fst acc) ->
             In (m_id m) (snd acc)
             /\ PyFloat.gt (m_similarity m) 0.3%float = true
             /\ exists j, nth_error node_ids j = Some (m_id m)
                          /\ entry similarity_matrix i j = Some (m_similarity m))
  /\ (forall k, In k visited0 -> In k (snd acc)).

(** What the outer loop maintains. *)
Definition cluster_invariant (node_ids : list node_key)
           (similarity_matrix : list (list float))
           (acc : list node_key * list cluster) : Prop :=
  (forall c m, In c (snd acc) -> In m (members c) ->
               In (m_id m) (fst acc)
               /\ PyFloat.gt (m_similarity m) 0.3%float = true
               /\ recorded_from node_ids similarity_matrix c m)
  /\ centers_unclaimed (snd acc)
  /\ (forall c, In c (snd acc) -> (1 < List.length (members c))%nat).

(** ** Properties of the connectivity analysis *)

(** [sd] is the score record of the post or page [k] of the graph [g]. *)
Definition scored_from (g : DiGraph) (k : node_key) (sd : score_data) : Prop :=
  exists d ty,
    In (k, d) (g_node g)
    /\ a_type d = Some ty /\ is_post_or_page ty = true
    /\ a_title d = Some (sd_title sd) /\ a_url d = Some (sd_url sd)
    /\ sd_depth_score sd = calculate_content_depth d
    /\ sd_word_count sd = word_count_of (get_or (a_content d) "")
    /\ sd_internal_links sd = out_degree g k
    /\ sd_backlinks sd = in_degree g k.

(** What the scoring loop maintains, [rest] being the nodes still to visit:
    the analyzer is untouched, every entry is the record of its node, and
    every post or page already visited has an entry. *)
Definition scoring_invariant (self : analyzer)
           (rest : list (node_key * attrs))
           (scores : list (node_key * score_data)) (s : analyzer) : Prop :=
  s = self
  /\ (forall k sd, In (k, sd) scores -> scored_from (content_graph self) k sd)
  /\ exists visited,
      g_node (content_graph self) = (visited ++ rest)%list
      /\ forall k d ty,
          In (k, d) visited -> a_type d = Some ty ->
          is_post_or_page ty = true -> In k (map fst scores).

(** A small site: post 1 links to post 2 and is filed under category 7;
    post 3 stands alone. *)
Definition small_site : analyzer :=
  mk_analyzer "http://site.example"
    (mk_graph
       [(IntKey 1, content_attrs "apple"); (IntKey 2, content_attrs "pear");
        (IntKey 3, content_attrs "plum");
        (StrKey "cat_7",
         mk_attrs (Some "category") None None None None None None None None
                  (Some "News") (Some "news"))]
       [(IntKey 1, IntKey 2, "internal_link");
        (IntKey 1, StrKey "cat_7", "categorized_as")])
    None.

(** ** Inputs with a taxonomy reference that matches no record *)

(** One post, filed under category 7; the site has no category record. *)
Definition unfiled_content : site_content :=
  mk_content
    [mk_post 1 "Apples" "http://site.example/apples" "apple" "apple"
             (Some [7%Z]) (Some []) "2024-01-01"]
    [] [] [].

(** A post and a page; the post is filed under category 7, which exists, and
    carries tag 9, which matches no tag record. *)
Definition untagged_content : site_content :=
  mk_content
    [mk_post 1 "Apples" "http://site.example/apples" "apple" "apple"
             (Some [7%Z]) (Some [9%Z]) "2024-01-01"]
    [mk_page 2 "About" "http://site.example/about" "about" None "2024-01-01"]
    [mk_term 7 "News" "news"] [].

(** The same post and page with every reference resolved. *)
Definition resolved_content : site_content :=
  mk_content
    [mk_post 1 "Apples" "http://site.example/apples" "apple" "apple"
             (Some [7%Z]) (Some [9%Z]) "2024-01-01"]
    [mk_page 2 "About" "http://site.example/about" "about" None "2024-01-01"]
    [mk_term 7 "News" "news"] [mk_term 9 "Fruit" "fruit"].

(** The nodes of the graph stay what they are. *)
Definition nodes_are (nodes : list (node_key * attrs)) (s : analyzer) : Prop :=
  g_node (content_graph s) = nodes.

(** ** State invariants *)

(** The keys of the node dictionary are pairwise distinct. *)
Definition keys_unique (s : analyzer) : Prop :=
  NoDup (map fst (g_node (content_graph s))).

(** [m] keeps the property [Q] of the analyzer, however it ends. *)
Definition preserves {A} (Q : analyzer -> Prop) (m : M A) : Prop :=
  forall s, Q s -> Q (snd (m s)).

(** ** Dangling taxonomy references *)

Definition node_keys (s : analyzer) : list node_key :=
  map fst (g_node (content_graph s)).

(** The post with attributes [d] declares a category or tag id whose key is
    no node of the graph. *)
Definition dangling (s : analyzer) (d : attrs) : Prop :=
  (exists id, In id (get_or (a_categories d) [])
              /\ ~ In (cat_key id) (node_keys s))
  \/ (exists id, In id (get_or (a_tags d) [])
                 /\ ~ In (tag_key id) (node_keys s)).

(** The error of a dictionary iterator whose dictionary has grown. *)
Definition size_error : exn :=
  RuntimeError "dictionary changed size during iteration".

(** Every node of the graph has a ['type']. *)
Definition all_typed (nodes : list (node_key * attrs)) : Prop :=
  forall k d, In (k, d) nodes -> a_type d <> None.

(** Some post of the site declares a category id that no category record
    carries, or a tag id that no tag record carries. *)
Definition unresolved_reference (content : site_content) : Prop :=
  exists post id,
    In post (posts content)
    /\ ((In id (get_or (post_categories post) [])
         /\ ~ In id (map term_id (categories content)))
        \/ (In id (get_or (post_tags post) [])
            /\ ~ In id (map term_id (tags content)))).

(** The keys the records of a site receive. *)
Definition content_key (content : site_content) (k : node_key) : Prop :=
  (exists p, In p (posts content) /\ k = post_key (post_id p))
  \/ (exists p, In p (pages content) /\ k = page_key (page_id p))
  \/ (exists t, In t (categories content) /\ k = cat_key (term_id t))
  \/ (exists t, In t (tags content) /\ k = tag_key (term_id t)).

(** A graph whose nodes are typed and keyed by records of the site. *)
Definition built_from (content : site_content) (g : DiGraph) : Prop :=
  all_typed (g_node g)
  /\ forall k, In k (map fst (g_node g)) -> content_key content k.




(** ** Further properties of the clusterer *)

(** What the theme loop maintains over the indices [idx] it has read: at
    most one keyword per index, each a feature name of positive weight. *)
Definition theme_invariant (feature_names : list string)
           (doc_tfidf : list float) (bound : nat) (acc : list string) : Prop :=
  (List.length acc <= bound)%nat
  /\ forall name, In name acc ->
                  exists i w, nth_error feature_names i = Some name
                              /\ nth_error doc_tfidf i = Some w
                              /\ PyFloat.gt w 0%float = true.

(** The analysis reads the graph and the site url; it does not write them. *)
Definition graph_and_url_are (g : DiGraph) (url : string) (s : analyzer)
  : Prop :=
  content_graph s = g /\ site_url s = url.

(** A vectorizer that fails on every corpus, as [TfidfVectorizer] does on
    one that holds stop words only. *)
Definition failing_fit_transform (texts : list string)
  : option (list string * list (list float)) := None.

(** No contribution of the depth score applies to [content]. *)
Definition nothing_applies (content : string) : Prop :=
  (word_count_of content <= 500)%nat
  /\ (h2_count_of content <= 3)%nat
  /\ (h3_count_of content <= 5)%nat
  /\ has_media content = false
  /\ has_lists content = false
  /\ has_schema content = false.

(** A node without content, as a category or a tag is. *)
Definition news_category : attrs :=
  mk_attrs (Some "category") None None None None None None None None
           (Some "News") (Some "news").

(** The three tests of [create_action_plan], in the order it tries them. *)
Definition is_high (rec : recommendation) : bool :=
  String.eqb (r_priority rec) "high".

Definition is_medium (rec : recommendation) : bool :=
  negb (String.eqb (r_priority rec) "high")
  && String.eqb (r_priority rec) "medium".

Definition is_other (rec : recommendation) : bool :=
  negb (String.eqb (r_priority rec) "high")
  && negb (String.eqb (r_priority rec) "medium").

(** The number of content gaps the synthesizer iterates over. *)
Definition gaps_count {G} (patterns : query_patterns G) : nat :=
  match qp_gaps patterns with
  | Some (Iterable gaps) => List.length gaps
  | _ => 0%nat
  end.

(** Query patterns whose ['gaps'] entry is not a sequence, as a reply of
    the language model that sets it to a number would give. *)
Definition broken_patterns : query_patterns string :=
  mk_query_patterns (Some NotIterable).

(** ** Graph invariants *)

(** Every edge joins two nodes of the graph, and no ordered pair of nodes
    carries two edges. *)
Definition graph_sound (g : DiGraph) : Prop :=
  (forall u v ty, In (u, v, ty) (g_edges g) ->
                  In u (map fst (g_node g)) /\ In v (map fst (g_node g)))
  /\ NoDup (map fst (g_edges g)).

(** The edge [(u, v, ty)] is an internal link of the graph [g] of a site
    at [url]: the content of [u] mentions a link that [re_findall] finds and
    [v] is the first node whose url is that link. *)
Definition resolved_link (re_findall : string -> string -> list string)
           (url : string) (g : DiGraph)
           (e : node_key * node_key * string) : Prop :=
  snd e = "internal_link"
  /\ exists d content link,
      In (fst (fst e), d) (g_node g)
      /\ a_content d = Some content
      /\ In link (re_findall (link_pattern url) content)
      /\ find_target g link = Some (snd (fst e)).

(** What the internal-link pass maintains, from the analyzer [s] on. *)
Definition linking_invariant (re_findall : string -> string -> list string)
           (s t : analyzer) : Prop :=
  g_node (content_graph t) = g_node (content_graph s)
  /\ site_url t = site_url s
  /\ fitted_vocabulary t = fitted_vocabulary s
  /\ forall e, In e (g_edges (content_graph t)) ->
               In e (g_edges (content_graph s))
               \/ resolved_link re_findall (site_url s) (content_graph s) e.

(** A stand-in for [re.findall] that reports one link, whatever it is
    given. *)
Definition find_about (pattern text : string) : list string :=
  ["http://site.example/about"].

(** ** Content sample: [get_content_sample] *)

Record sample_entry : Type := mk_sample_entry {
  se_title : string;
  se_type : string;
  se_excerpt : string;
  se_url : string
}.

(** [s[:n]] on a string. *)
Definition str_take (n : nat) (s : string) : string := substring 0 n s.

(** The body of the loop of [get_content_sample]. *)
Definition sample_step (item : node_key * attrs) (sample : list sample_entry)
  : M (list sample_entry) :=
  let data := snd item in
  ty <- subscript "type" (a_type data) ;;
  if is_post_or_page ty then
    title <- subscript "title" (a_title data) ;;
    ty' <- subscript "type" (a_type data) ;;
    url <- subscript "url" (a_url data) ;;
    ret (sample ++ [mk_sample_entry title ty'
                      (str_take 200 (get_or (a_excerpt data) ""))
                      url])%list
  else ret sample.

(** The loop runs over [list(...)[:20]], a copy of the first twenty nodes,
    so it is a loop over a list. *)
Definition get_content_sample : M (list sample_entry) :=
  g <- get_graph ;;
  for_each_acc (PyList.take 20 (g_node g)) sample_step [].

(** What the sampling loop maintains. *)
Definition sample_invariant (bound : nat) (sample : list sample_entry) : Prop :=
  (List.length sample <= bound)%nat
  /\ Forall (fun e => is_post_or_page (se_type e) = true
                      /\ (String.length (se_excerpt e) <= 200)%nat) sample.

(** A graph of twenty-one category nodes followed by nothing else. *)
Definition many_categories : analyzer :=
  mk_analyzer "http://site.example"
    (mk_graph (map (fun i => (cat_key (Z.of_nat i), news_category))
                   (seq 0 21)) [])
    None.

(** ** Cleaned text *)

(** The first, respectively last, character of [s] is whitespace. *)
Definition leading_space (s : string) : bool :=
  match s with
  | EmptyString => false
  | String c _ => PyStr.isspace c
  end.

Fixpoint trailing_space (s : string) : bool :=
  match s with
  | EmptyString => false
  | String c EmptyString => PyStr.isspace c
  | String _ rest => trailing_space rest
  end.

(** ** The phases of graph construction, as folds over the graph *)

(** The graph after the two node loops of [build_content_graph]. *)
Definition content_nodes_graph
           (re_sub : string -> string -> string -> string)
           (content : site_content) : DiGraph :=
  fold_left (fun g p => add_node g (page_key (page_id p))
                                 (page_attrs re_sub p))
            (pages content)
            (fold_left (fun g p => add_node g (post_key (post_id p))
                                            (post_attrs re_sub p))
                       (posts content) empty_graph).

(** The graph after the two node loops of [build_taxonomy_edges]. *)
Definition with_terms (content : site_content) (g : DiGraph) : DiGraph :=
  fold_left (fun g t => add_node g (tag_key (term_id t))
                                 (term_attrs "tag" t))
            (tags content)
            (fold_left (fun g t => add_node g (cat_key (term_id t))
                                            (term_attrs "category" t))
                       (categories content) g).

(** The edge the taxonomy pass stores for a declared category or tag of the
    post [(k, d)]. *)
Definition taxonomy_edge (k : node_key) (d : attrs)
           (e : node_key * node_key * string) : Prop :=
  (exists id, In id (get_or (a_categories d) [])
              /\ e = (k, cat_key id, "categorized_as"))
  \/ (exists id, In id (get_or (a_tags d) [])
                 /\ e = (k, tag_key id, "tagged_as")).

(** What the last loop of the taxonomy pass maintains, [g0] being the graph
    at its start and [rest] the nodes still to visit: the node dictionary is
    that of [g0]; the posts already visited have all their taxonomy edges;
    and every edge is an edge of [g0] or a taxonomy edge of a post. *)
Definition taxonomy_invariant (g0 : DiGraph)
           (rest : list (node_key * attrs)) (t : analyzer) : Prop :=
  g_node (content_graph t) = g_node g0
  /\ (exists visited,
         g_node g0 = (visited ++ rest)%list
         /\ forall k d e,
             In (k, d) visited -> a_type d = Some "post" ->
             taxonomy_edge k d e -> In e (g_edges (content_graph t)))
  /\ forall e, In e (g_edges (content_graph t)) ->
               In e (g_edges g0)
               \/ exists k d, In (k, d) (g_node g0)
                              /\ a_type d = Some "post"
                              /\ taxonomy_edge k d e.

(** The graph after [connect_post] has run for the post [(k, d)]. *)
Definition connected (k : node_key) (d : attrs) (g : DiGraph) : DiGraph :=
  fold_left (fun g id => add_edge g k (tag_key id) "tagged_as")
            (get_or (a_tags d) [])
            (fold_left (fun g id => add_edge g k (cat_key id) "categorized_as")
                       (get_or (a_categories d) []) g).

(** ** The two regular expressions of [clean_html]

    [re.sub('<.*?>', '', s)] scans [s] from the left.  A ["<"] that is
    followed on its line by a [">"] starts a match, which ends at the first
    such [">"]: [.] matches every character but the newline and [*?] takes as
    few characters as it can.  The match is deleted and the scan resumes
    behind it; any other character is kept. *)

Definition newline : ascii := ascii_of_nat 10.

(** A [">"] occurs in [s] before any newline. *)
Fixpoint closes (s : string) : bool :=
  match s with
  | EmptyString => false
  | String c rest =>
      if Ascii.eqb c ">" then true
      else if Ascii.eqb c newline then false
      else closes rest
  end.

(** [inside] tells that the scan is within a match. *)
Fixpoint sub_tags_from (inside : bool) (s : string) : string :=
  match s with
  | EmptyString => EmptyString
  | String c rest =>
      if inside
      then (if Ascii.eqb c ">" then sub_tags_from false rest
            else sub_tags_from true rest)
      else if Ascii.eqb c "<" && closes rest
           then sub_tags_from true rest
           else String c (sub_tags_from false rest)
  end.

Definition sub_tags (s : string) : string := sub_tags_from false s.

(** [re.sub(r'\s+', ' ', s)]: every maximal run of whitespace becomes one
    space; [in_run] tells that the previous character was whitespace. *)
Fixpoint sub_spaces_from (in_run : bool) (s : string) : string :=
  match s with
  | EmptyString => EmptyString
  | String c rest =>
      if PyStr.isspace c
      then (if in_run then sub_spaces_from true rest
            else String " " (sub_spaces_from true rest))
      else String c (sub_spaces_from false rest)
  end.

Definition sub_spaces (s : string) : string := sub_spaces_from false s.

(** [re.sub] on the two calls that [clean_html] makes. *)
Definition clean_html_re_sub (pattern repl s : string) : string :=
  if String.eqb pattern "<.*?>" then sub_tags s
  else if String.eqb pattern "\s+" then sub_spaces s
  else s.

(** Every ["<"] of [s] is closed by a [">"] on its line. *)
Fixpoint tags_closed (s : string) : bool :=
  match s with
  | EmptyString => true
  | String c rest =>
      (if Ascii.eqb c "<" then closes rest else true) && tags_closed rest
  end.

(** The character [c] occurs in [s]. *)
Fixpoint has_char (c : ascii) (s : string) : bool :=
  match s with
  | EmptyString => false
  | String d rest => Ascii.eqb d c || has_char c rest
  end.

(** No two whitespace characters in a row, and no whitespace but the
    space. *)
Fixpoint single_spaced_from (after_space : bool) (s : string) : bool :=
  match s with
  | EmptyString => true
  | String c rest =>
      if PyStr.isspace c
      then Ascii.eqb c " " && negb after_space && single_spaced_from true rest
      else single_spaced_from false rest
  end.

Definition single_spaced (s : string) : bool := single_spaced_from false s.
(** ** Fetching: [fetch_posts], [fetch_pages]

    The site is an oracle: [get page] is what the request for the results
    page [page] gives.  [Failed] stands for an exception, raised by the
    request or by decoding the body as JSON; [Status code batch] for a
    response with that status code whose body decodes to the list [batch].
    The loop asks for each page once, so a function of the page number can
    stand for the site.  [fuel] bounds the number of requests; the loop
    itself has no bound. *)

Inductive reply (A : Type) : Type :=
| Failed
| Status (code : Z) (batch : list A).

Arguments Failed {A}.

Section Fetcher.

Variable A : Type.
Variable get : nat -> reply A.

Fixpoint fetch_loop (fuel page : nat) (posts : list A) : option (list A) :=
  match fuel with
  | O => None
  | S fuel =>
      match get page with
      | Failed => Some posts
      | Status code batch =>
          if Z.eqb code 200
          then match batch with
               | [] => Some posts
               | _ :: _ => fetch_loop fuel (S page) (posts ++ batch)%list
               end
          else Some posts
      end
  end.

Definition fetch_posts (fuel : nat) : option (list A) := fetch_loop fuel 1 [].

Definition fetch_pages (fuel : nat) : option (list A) := fetch_loop fuel 1 [].

(** The page is served: status 200 and a batch that is not empty. *)
Definition served (page : nat) : Prop :=
  exists batch, get page = Status 200 batch /\ batch <> [].

(** The batch of a page. *)
Definition batch_of (page : nat) : list A :=
  match get page with
  | Failed => []
  | Status _ batch => batch
  end.

(** The batches of [count] pages from [page] on, in order. *)
Definition batches (page count : nat) : list A :=
  List.concat (map batch_of (seq page count)).

End Fetcher.

(** A site of [n] pages of one record each, which answers 400 past its
    last page. *)
Definition paged_site (n page : nat) : reply nat :=
  if (page <=? n)%nat then Status 200 [page] else Status 400 [].

(** A site that runs out of pages never. *)
Definition endless_site (page : nat) : reply nat := Status 200 [page].

(** A post whose markup has four headings, a list and an image. *)
Definition marked_up_post : raw_post :=
  mk_post 1 "Guide" "http://site.example/guide"
          "<h2>a</h2><h2>b</h2><h2>c</h2><h2>d</h2><ul><li>e</li></ul><img src=x>"
          "" None None "2024-01-01".

(** The keys of the records of a site, kind by kind. *)
Definition record_keys (content : site_content) : list node_key :=
  (map (key_of Article) (map post_id (posts content))
   ++ map (key_of Page) (map page_id (pages content))
   ++ map (key_of Category) (map term_id (categories content))
   ++ map (key_of Tag) (map term_id (tags content)))%list.

(** The number of records of a site. *)
Definition record_count (content : site_content) : nat :=
  List.length (posts content) + List.length (pages content)
  + List.length (categories content) + List.length (tags content).

(** The allowance of the ["## "] count against the ["### "] count when the
    scans are [skip2] and [skip3] characters into an occurrence. *)
Definition slack (skip2 skip3 : nat) : nat :=
  if (skip2 <=? skip3 + 1)%nat then 0 else 1.

(** * Properties *)

(** ** Node keys *)

Lemma of_int_inj (a b : Z) : PyStr.of_int a = PyStr.of_int b -> a = b.
Proof.
  unfold PyStr.of_int. intro H.
  apply DecimalZ.to_int_inj.
  assert (E : Some (Z.to_int a) = Some (Z.to_int b)).
  { rewrite <- (NilEmpty.isi (Z.to_int a)), <- (NilEmpty.isi (Z.to_int b)).
    now rewrite H. }
  now inversion E.
Qed.

(** The key determines both the kind of the record and its numeric id. *)
Lemma key_of_inj (k1 k2 : kind) (i1 i2 : Z) :
  key_of k1 i1 = key_of k2 i2 -> k1 = k2 /\ i1 = i2.
Proof.
  destruct k1, k2; cbn [key_of post_key page_key cat_key tag_key];
    intro H; try discriminate H;
    try (injection H as H; apply of_int_inj in H; now split).
  injection H as H. now split.
Qed.

(** ** Depth scorer *)

Lemma depth_score_is_spec (w h2 h3 : nat) (m l s : bool) :
  depth_score w h2 h3 m l s = spec_depth_score w h2 h3 m l s.
Proof.
  unfold depth_score, spec_depth_score, word_count_contribution,
    bonus_contributions.
  destruct (2000 <? w)%nat, (1000 <? w)%nat, (500 <? w)%nat,
    (3 <? h2)%nat, (5 <? h3)%nat, m, l, s; vm_compute; reflexivity.
Qed.

Lemma depth_score_range (w h2 h3 : nat) (m l s : bool) :
  PyFloat.le 0%float (depth_score w h2 h3 m l s) = true
  /\ PyFloat.le (depth_score w h2 h3 m l s) 1.0%float = true.
Proof.
  unfold depth_score.
  destruct (2000 <? w)%nat, (1000 <? w)%nat, (500 <? w)%nat,
    (3 <? h2)%nat, (5 <? h3)%nat, m, l, s; vm_compute; split; reflexivity.
Qed.

Lemma depth_score_full (w h2 h3 : nat) :
  (2000 < w)%nat -> (3 < h2)%nat -> (5 < h3)%nat ->
  depth_score w h2 h3 true true true = 1.0%float.
Proof.
  intros Hw H2 H3. unfold depth_score.
  apply Nat.ltb_lt in Hw, H2, H3. rewrite Hw, H2, H3.
  vm_compute. reflexivity.
Qed.

(** C6. The depth score of a node is the sum of the applicable contributions
    clamped at 1.0; it lies between 0 and 1; and a document of more than 2000
    words on which all five bonus conditions hold scores exactly 1.0. *)
Theorem depth_score_clamped (d : attrs) :
  let content := get_or (a_content d) "" in
  calculate_content_depth d
  = spec_depth_score (word_count_of content) (h2_count_of content)
                     (h3_count_of content) (has_media content)
                     (has_lists content) (has_schema content)
  /\ PyFloat.le 0%float (calculate_content_depth d) = true
  /\ PyFloat.le (calculate_content_depth d) 1.0%float = true
  /\ ((2000 < word_count_of content)%nat ->
      (3 < h2_count_of content)%nat ->
      (5 < h3_count_of content)%nat ->
      has_media content = true ->
      has_lists content = true ->
      has_schema content = true ->
      calculate_content_depth d = 1.0%float).
Proof.
  intro content. unfold calculate_content_depth. fold content.
  split; [apply depth_score_is_spec|].
  split; [apply depth_score_range|].
  split; [apply depth_score_range|].
  intros Hw H2 H3 Hm Hl Hs. rewrite Hm, Hl, Hs.
  now apply depth_score_full.
Qed.

Lemma depth_score_clamped_witness :
  calculate_content_depth rich_document = 1.0%float.
Proof.
  apply (proj2 (proj2 (proj2 (depth_score_clamped rich_document)))).
  - apply Nat.ltb_lt. vm_compute. reflexivity.
  - apply Nat.ltb_lt. vm_compute. reflexivity.
  - apply Nat.ltb_lt. vm_compute. reflexivity.
  - vm_compute. reflexivity.
  - vm_compute. reflexivity.
  - vm_compute. reflexivity.
Defined.

(** Turn a decided comparison [H : (a <? b) = _] into its proposition. *)
Ltac ltb_prop H :=
  match type of H with
  | (_ <? _)%nat = true => apply Nat.ltb_lt in H
  | (_ <? _)%nat = false => apply Nat.ltb_ge in H
  end.

Lemma depth_score_tier_mono (w1 w2 h2 h3 : nat) (m l s : bool) :
  (w1 <= w2)%nat ->
  PyFloat.le (depth_score w1 h2 h3 m l s) (depth_score w2 h2 h3 m l s) = true.
Proof.
  intro Hle. unfold depth_score.
  destruct (2000 <? w1)%nat eqn:A1; destruct (1000 <? w1)%nat eqn:B1;
    destruct (500 <? w1)%nat eqn:C1;
    destruct (2000 <? w2)%nat eqn:A2; destruct (1000 <? w2)%nat eqn:B2;
    destruct (500 <? w2)%nat eqn:C2;
    ltb_prop A1; ltb_prop B1; ltb_prop C1;
    ltb_prop A2; ltb_prop B2; ltb_prop C2;
    try lia;
    destruct (3 <? h2)%nat, (5 <? h3)%nat, m, l, s; vm_compute; reflexivity.
Qed.

Lemma word_count_tiers (w : nat) :
  ((2000 < w)%nat -> depth_score w 0 0 false false false = 0.3%float)
  /\ ((1000 < w <= 2000)%nat ->
      depth_score w 0 0 false false false = 0.2%float)
  /\ ((500 < w <= 1000)%nat ->
      depth_score w 0 0 false false false = 0.1%float)
  /\ ((w <= 500)%nat -> depth_score w 0 0 false false false = 0%float).
Proof.
  unfold depth_score.
  destruct (2000 <? w)%nat eqn:A; destruct (1000 <? w)%nat eqn:B;
    destruct (500 <? w)%nat eqn:C;
    ltb_prop A; ltb_prop B; ltb_prop C;
    repeat split; intros; try lia; vm_compute; reflexivity.
Qed.

(** C8. Between two documents that agree on every feature but the word
    count, the one with at least as many words scores at least as much.  The
    word count contributes exactly one tier: 0.3 above 2000 words, else 0.2
    above 1000, else 0.1 above 500, else nothing. *)
Theorem depth_score_monotone_in_word_count (d1 d2 : attrs) :
  let c1 := get_or (a_content d1) "" in
  let c2 := get_or (a_content d2) "" in
  (h2_count_of c1 = h2_count_of c2 ->
   h3_count_of c1 = h3_count_of c2 ->
   has_media c1 = has_media c2 ->
   has_lists c1 = has_lists c2 ->
   has_schema c1 = has_schema c2 ->
   (word_count_of c1 <= word_count_of c2)%nat ->
   PyFloat.le (calculate_content_depth d1) (calculate_content_depth d2) = true)
  /\ (forall (w h2 h3 : nat) (m l s : bool),
         depth_score w h2 h3 m l s
         = PyFloat.min
             (fold_left PrimFloat.add
                        (bonus_contributions h2 h3 m l s)
                        (depth_score w 0 0 false false false))
             1.0%float)
  /\ (forall w : nat,
         ((2000 < w)%nat -> depth_score w 0 0 false false false = 0.3%float)
         /\ ((1000 < w <= 2000)%nat ->
             depth_score w 0 0 false false false = 0.2%float)
         /\ ((500 < w <= 1000)%nat ->
             depth_score w 0 0 false false false = 0.1%float)
         /\ ((w <= 500)%nat ->
             depth_score w 0 0 false false false = 0%float)).
Proof.
  intros c1 c2. split; [|split].
  - intros E2 E3 Em El Es Hle. unfold calculate_content_depth.
    fold c1. fold c2. rewrite E2, E3, Em, El, Es.
    now apply depth_score_tier_mono.
  - intros w h2 h3 m l s. unfold depth_score, bonus_contributions.
    destruct (2000 <? w)%nat, (1000 <? w)%nat, (500 <? w)%nat,
      (3 <? h2)%nat, (5 <? h3)%nat, m, l, s; vm_compute; reflexivity.
  - exact word_count_tiers.
Qed.

Lemma depth_score_monotone_in_word_count_witness :
  PyFloat.le (calculate_content_depth short_document)
             (calculate_content_depth long_document) = true.
Proof.
  apply (proj1 (depth_score_monotone_in_word_count short_document
                                                     long_document));
    try reflexivity.
  apply Nat.leb_le. vm_compute. reflexivity.
Defined.

(** ** Recommendation synthesizer *)

Lemma typed_priority_high_or_medium (r : recommendation) :
  typed_priority r -> r_priority r = "high" \/ r_priority r = "medium".
Proof. unfold typed_priority. intuition. Qed.

Lemma Forall_map_intro {A B} (P : B -> Prop) (f : A -> B) (l : list A) :
  (forall a, P (f a)) -> Forall P (map f l).
Proof.
  intro H. induction l as [|a l IH]; cbn; constructor; auto.
Qed.

Lemma plan_long_term_unchanged (recs : list recommendation) :
  Forall (fun r => r_priority r = "high" \/ r_priority r = "medium") recs ->
  forall plan,
    long_term (fold_left plan_step recs plan) = long_term plan.
Proof.
  induction 1 as [|r recs Hr _ IH]; intro plan; cbn [fold_left].
  - reflexivity.
  - rewrite IH. unfold plan_step.
    destruct Hr as [Hr|Hr]; rewrite Hr; reflexivity.
Qed.

(** C10. Every recommendation the synthesizer emits carries the priority of
    its type, high for content gaps and hub optimization, medium for orphan
    linking and semantic bridging; so every priority is high or medium, and
    the long-term bucket of the action plan is empty. *)
Theorem recommendations_high_or_medium
        (G : Type) (str_of_gap : G -> string)
        (patterns : query_patterns G) (analysis : depth_analysis)
        (recs : list recommendation) :
  generate_recommendations str_of_gap patterns analysis = Ok recs ->
  Forall typed_priority recs
  /\ Forall (fun r => r_priority r = "high" \/ r_priority r = "medium") recs
  /\ long_term (create_action_plan recs) = [].
Proof.
  intro H.
  assert (T : Forall typed_priority recs).
  { unfold generate_recommendations in H.
    cbv zeta in H.
    destruct (qp_gaps patterns) as [[gaps|]|]; try discriminate H;
      injection H as <-; rewrite !Forall_app; repeat split;
      try apply Forall_nil; apply Forall_map_intro; intro a;
      unfold typed_priority; cbn; tauto. }
  assert (P : Forall (fun r => r_priority r = "high"
                               \/ r_priority r = "medium") recs).
  { eapply Forall_impl; [|exact T].
    exact typed_priority_high_or_medium. }
  repeat split; trivial.
  unfold create_action_plan. now rewrite plan_long_term_unchanged.
Qed.

Lemma recommendations_high_or_medium_witness :
  exists recs,
    generate_recommendations (fun s : string => s) sample_patterns
                             sample_analysis = Ok recs
    /\ List.length recs = 4%nat
    /\ long_term (create_action_plan recs) = [].
Proof.
  eexists. split; [reflexivity|]. split; [reflexivity|].
  apply (recommendations_high_or_medium (fun s : string => s)
           sample_patterns sample_analysis).
  reflexivity.
Defined.

(** ** Semantic clusterer *)

(** C1, as stated, fails: on the documents ["apple"], ["apple banana"],
    ["banana"] the clusterer returns two clusters, centered on the first and
    on the third document, and the second document is a member of both. *)
Lemma clusters_can_overlap :
  exists cs self',
    identify_semantic_clusters Sample.fit_transform Sample.cosine_similarity
                               Sample.argsort Sample.chain_site
    = (Ok cs, self')
    /\ ~ members_disjoint cs.
Proof.
  eexists. eexists. split; [vm_compute; reflexivity|].
  intro D.
  refine (D _ _ (IntKey 2) _ _ _ _ _).
  - left. reflexivity.
  - right. left. reflexivity.
  - intro E. discriminate E.
  - cbn. auto.
  - cbn. auto.
Qed.

(** C4, as stated, fails: on the documents ["apple banana"], ["apple"],
    ["banana"] the cluster centered on the first document has the other two
    as members, and their similarity to each other is 0. *)
Lemma cluster_members_can_be_dissimilar :
  exists cs self',
    identify_semantic_clusters Sample.fit_transform Sample.cosine_similarity
                               Sample.argsort Sample.star_site
    = (Ok cs, self')
    /\ ~ members_pairwise_similar Sample.star_ids Sample.star_similarity cs.
Proof.
  eexists. eexists. split; [vm_compute; reflexivity|].
  intro D.
  assert (H : PyFloat.gt 0%float 0.3%float = true).
  { refine (D _ 1%nat 2%nat (IntKey 1) (IntKey 3) _ _ _ _ _ _ _).
    - left. reflexivity.
    - reflexivity.
    - reflexivity.
    - cbn. auto.
    - cbn. auto.
    - vm_compute. reflexivity. }
  vm_compute in H. discriminate H.
Qed.

Lemma node_key_eqb_eq (a b : node_key) : node_key_eqb a b = true <-> a = b.
Proof.
  destruct a as [x|x], b as [y|y]; cbn; split; intro H;
    try discriminate H.
  - apply Z.eqb_eq in H. now subst.
  - injection H as ->. apply Z.eqb_refl.
  - apply String.eqb_eq in H. now subst.
  - injection H as ->. apply String.eqb_refl.
Qed.

Lemma node_key_eqb_refl (a : node_key) : node_key_eqb a a = true.
Proof. now apply node_key_eqb_eq. Qed.

Lemma in_set_In (k : node_key) (visited : list node_key) :
  in_set k visited = true <-> In k visited.
Proof.
  unfold in_set. rewrite existsb_exists. split.
  - intros [x [Hx E]]. apply node_key_eqb_eq in E. now subst.
  - intro H. exists k. split; [exact H|apply node_key_eqb_refl].
Qed.

(** A loop of a [try] block that ends normally preserves what each of its
    steps preserves. *)
Lemma ofold_invariant {A S} (P : S -> Prop) (body : A -> S -> option S)
      (l : list A) :
  (forall x a a', In x l -> P a -> body x a = Some a' -> P a') ->
  forall acc r, P acc -> ofold l body acc = Some r -> P r.
Proof.
  induction l as [|x l IH]; intros Hstep acc r Hacc H; cbn in H.
  - now injection H as <-.
  - unfold obind in H. destruct (body x acc) as [a'|] eqn:E;
      [|discriminate H].
    apply (IH (fun y a b Hy => Hstep y a b (or_intror Hy)) a' r); trivial.
    apply (Hstep x acc a'); trivial. now left.
Qed.

Lemma scan_members_invariant (node_ids : list node_key)
      (similarity_matrix : list (list float)) (i : nat)
      (visited0 : list node_key) (r : list member * list node_key) :
  scan_members node_ids similarity_matrix i ([], visited0) = Some r ->
  scan_invariant node_ids similarity_matrix i visited0 r.
Proof.
  unfold scan_members.
  apply ofold_invariant
    with (P := scan_invariant node_ids similarity_matrix i visited0).
  - intros j acc acc' _ [Hm Hv] Hstep. unfold obind in Hstep.
    destruct (nth_error similarity_matrix i) as [row|] eqn:Er;
      [|discriminate Hstep].
    destruct (nth_error row j) as [s|] eqn:Es; [|discriminate Hstep].
    destruct (PyFloat.gt s 0.3%float) eqn:Eg.
    + destruct (nth_error node_ids j) as [id_j|] eqn:Ej;
        [|discriminate Hstep].
      injection Hstep as <-. split; cbn [fst snd].
      * intros m Hin. apply in_app_or in Hin. destruct Hin as [Hin|Hin].
        -- destruct (Hm m Hin) as [H1 H2]. split; [now right|exact H2].
        -- destruct Hin as [<-|[]]. cbn [m_id m_similarity].
           split; [now left|]. split; [exact Eg|].
           exists j. split; [exact Ej|]. unfold entry, obind.
           now rewrite Er.
      * intros k Hk. right. now apply Hv.
    + injection Hstep as <-. now split.
  - split; [intros m []|auto].
Qed.

Lemma centers_unclaimed_snoc (cs : list cluster) (c : cluster) :
  centers_unclaimed cs ->
  (forall c1, In c1 cs -> ~ In (center c) (member_ids c1)) ->
  centers_unclaimed (cs ++ [c]).
Proof.
  intros Hcs Hnew i j c1 c2 Hij H1 H2.
  assert (Hj : (j < List.length (cs ++ [c]))%nat).
  { apply nth_error_Some. now rewrite H2. }
  rewrite length_app in Hj. cbn in Hj.
  assert (Hi : (i < List.length cs)%nat) by lia.
  rewrite nth_error_app1 in H1 by exact Hi.
  destruct (Nat.eq_dec j (List.length cs)) as [->|Hne].
  - rewrite nth_error_app2 in H2 by lia.
    rewrite Nat.sub_diag in H2. cbn in H2. injection H2 as <-.
    apply Hnew. eapply nth_error_In. exact H1.
  - rewrite nth_error_app1 in H2 by lia.
    now apply (Hcs i j).
Qed.

Lemma cluster_step_invariant (vocabulary : option (list string))
      (argsort : list float -> list nat) (node_ids : list node_key)
      (tfidf_matrix similarity_matrix : list (list float)) (i : nat)
      (acc acc' : list node_key * list cluster) :
  cluster_invariant node_ids similarity_matrix acc ->
  cluster_step argsort vocabulary node_ids tfidf_matrix similarity_matrix
               i acc = Some acc' ->
  cluster_invariant node_ids similarity_matrix acc'.
Proof.
  intros [Hm [Hc Hl]] Hstep. unfold cluster_step, obind in Hstep.
  destruct (nth_error node_ids i) as [id_i|] eqn:Ei; [|discriminate Hstep].
  destruct (in_set id_i (fst acc)) eqn:Ev.
  { injection Hstep as <-. exact (conj Hm (conj Hc Hl)). }
  destruct (extract_cluster_theme argsort vocabulary i tfidf_matrix)
    as [th|]; [|discriminate Hstep].
  destruct (scan_members node_ids similarity_matrix i ([], fst acc))
    as [r|] eqn:Es; [|discriminate Hstep].
  apply scan_members_invariant in Es. destruct Es as [Sm Sv].
  assert (Hold : forall c m, In c (snd acc) -> In m (members c) ->
                 In (m_id m) (snd r)
                 /\ PyFloat.gt (m_similarity m) 0.3%float = true
                 /\ recorded_from node_ids similarity_matrix c m).
  { intros c m Hcin Hmin. destruct (Hm c m Hcin Hmin) as [H1 H2].
    split; [now apply Sv|exact H2]. }
  cbn [members] in Hstep.
  destruct (1 <? List.length (fst r))%nat eqn:El;
    injection Hstep as <-; cbn [fst snd].
  - split; [|split].
    + intros c m Hcin Hmin. apply in_app_or in Hcin.
      destruct Hcin as [Hcin|[<-|[]]]; [now apply Hold|].
      cbn [members] in Hmin. destruct (Sm m Hmin) as [H1 [H2 [j [H3 H4]]]].
      split; [exact H1|]. split; [exact H2|].
      exists i, j. cbn [center]. now repeat split.
    + apply centers_unclaimed_snoc; [exact Hc|].
      intros c1 Hc1 Hin. cbn [center] in Hin.
      unfold member_ids in Hin. apply in_map_iff in Hin.
      destruct Hin as [m [Em Hmin]].
      destruct (Hm c1 m Hc1 Hmin) as [Hvis _]. rewrite Em in Hvis.
      apply in_set_In in Hvis. congruence.
    + intros c Hcin. apply in_app_or in Hcin.
      destruct Hcin as [Hcin|[<-|[]]]; [now apply Hl|].
      cbn [members]. now apply Nat.ltb_lt.
  - exact (conj Hold (conj Hc Hl)).
Qed.

Lemma greedy_clusters_invariant (vocabulary : option (list string))
      (argsort : list float -> list nat) (node_ids : list node_key)
      (tfidf_matrix similarity_matrix : list (list float))
      (cs : list cluster) :
  greedy_clusters argsort vocabulary node_ids tfidf_matrix similarity_matrix
  = Some cs ->
  exists visited, cluster_invariant node_ids similarity_matrix (visited, cs).
Proof.
  unfold greedy_clusters, obind. intro H.
  destruct (ofold (seq 0 (List.length node_ids))
                  (cluster_step argsort vocabulary node_ids tfidf_matrix
                                similarity_matrix) ([], [])) as [r|] eqn:E;
    [|discriminate H].
  injection H as <-. exists (fst r).
  replace (fst r, snd r) with r by now destruct r.
  revert E.
  apply ofold_invariant
    with (P := cluster_invariant node_ids similarity_matrix).
  - intros i acc acc' _ Hacc Hstep.
    eapply cluster_step_invariant; eassumption.
  - split; [intros c m []|]. split; [|intros c []].
    intros i j c1 c2 _ H1. destruct i; discriminate H1.
Qed.

(** A non-empty result of the clusterer comes from the greedy loop, run on
    the eligible documents, the fitted matrix and its similarity matrix. *)
Lemma identify_semantic_clusters_inv
      (fit_transform : list string -> option (list string * list (list float)))
      (cosine_similarity : list (list float) -> list (list float))
      (argsort : list float -> list nat)
      (self self' : analyzer) (cs : list cluster) :
  identify_semantic_clusters fit_transform cosine_similarity argsort self
  = (Ok cs, self') ->
  cs = []
  \/ exists docs self1 features tfidf,
      eligible_documents self = (Ok docs, self1)
      /\ fit_transform (map snd docs) = Some (features, tfidf)
      /\ greedy_clusters argsort (Some features) (map fst docs) tfidf
                         (cosine_similarity tfidf) = Some cs.
Proof.
  unfold identify_semantic_clusters, bind. intro H.
  destruct (eligible_documents self) as [[docs|e] self1] eqn:Ed;
    [|discriminate H].
  destruct (map snd docs) as [|t ts] eqn:Et.
  { unfold ret in H. injection H as <- _. now left. }
  destruct (fit_transform (t :: ts)) as [[features tfidf]|] eqn:Ef.
  - cbn [fitted_vocabulary] in H.
    destruct (greedy_clusters argsort (Some features) (map fst docs) tfidf
                              (cosine_similarity tfidf)) as [cs'|] eqn:Eg.
    + injection H as <- _. right. exists docs, self1, features, tfidf.
      rewrite Et. now repeat split.
    + injection H as <- _. now left.
  - injection H as <- _. now left.
Qed.

(** C1, amended. A document that an earlier cluster holds as a member seeds
    no later cluster: in the returned list, the center of a cluster is never a
    member of a cluster that precedes it. *)
Theorem cluster_centers_unclaimed
      (fit_transform : list string -> option (list string * list (list float)))
      (cosine_similarity : list (list float) -> list (list float))
      (argsort : list float -> list nat)
      (self self' : analyzer) (cs : list cluster) :
  identify_semantic_clusters fit_transform cosine_similarity argsort self
  = (Ok cs, self') ->
  centers_unclaimed cs.
Proof.
  intro H. apply identify_semantic_clusters_inv in H.
  destruct H as [->|[docs [self1 [features [tfidf [_ [_ Hg]]]]]]].
  - intros i j c1 c2 _ H1. destruct i; discriminate H1.
  - apply greedy_clusters_invariant in Hg. destruct Hg as [visited Hinv].
    exact (proj1 (proj2 Hinv)).
Qed.

Lemma cluster_centers_unclaimed_witness :
  exists cs,
    fst (identify_semantic_clusters Sample.fit_transform
           Sample.cosine_similarity Sample.argsort Sample.chain_site) = Ok cs
    /\ List.length cs = 2%nat
    /\ centers_unclaimed cs.
Proof.
  eexists. split; [vm_compute; reflexivity|]. split; [reflexivity|].
  eapply (cluster_centers_unclaimed Sample.fit_transform
            Sample.cosine_similarity Sample.argsort Sample.chain_site).
  vm_compute. reflexivity.
Defined.

(** C4, amended. Every member of a returned cluster is more than 0.3 similar
    to the center of that cluster: the similarity recorded with the member
    exceeds 0.3 and is the entry of the similarity matrix in the row of the
    center and the column of the member. *)
Theorem members_similar_to_center
      (fit_transform : list string -> option (list string * list (list float)))
      (cosine_similarity : list (list float) -> list (list float))
      (argsort : list float -> list nat)
      (self self' : analyzer) (cs : list cluster) :
  identify_semantic_clusters fit_transform cosine_similarity argsort self
  = (Ok cs, self') ->
  forall c m,
    In c cs -> In m (members c) ->
    PyFloat.gt (m_similarity m) 0.3%float = true
    /\ exists docs self1 features tfidf,
        eligible_documents self = (Ok docs, self1)
        /\ fit_transform (map snd docs) = Some (features, tfidf)
        /\ recorded_from (map fst docs) (cosine_similarity tfidf) c m.
Proof.
  intros H c m Hc Hm. apply identify_semantic_clusters_inv in H.
  destruct H as [->|[docs [self1 [features [tfidf [Hd [Hf Hg]]]]]]];
    [destruct Hc|].
  apply greedy_clusters_invariant in Hg. destruct Hg as [visited Hinv].
  destruct (proj1 Hinv c m Hc Hm) as [_ [Hgt Hrec]].
  split; [exact Hgt|].
  exists docs, self1, features, tfidf. now repeat split.
Qed.

Lemma members_similar_to_center_witness :
  PyFloat.gt 0.7071067811865475%float 0.3%float = true.
Proof.
  refine (proj1 (members_similar_to_center
                   Sample.fit_transform Sample.cosine_similarity
                   Sample.argsort Sample.star_site
                   (self' := _) (cs := _) _
                   (mk_cluster (IntKey 2)
                      [mk_member (IntKey 2) 0.9999999999999998%float;
                       mk_member (IntKey 1) 0.7071067811865475%float;
                       mk_member (IntKey 3) 0.7071067811865475%float]
                      ["banana"; "apple"])
                   (mk_member (IntKey 1) 0.7071067811865475%float) _ _)).
  - vm_compute. reflexivity.
  - left. reflexivity.
  - right. left. reflexivity.
Defined.

(** ** Iteration over the nodes by a body that leaves the analyzer alone *)

Lemma check_size_ok (n : nat) (s : analyzer) :
  List.length (g_node (content_graph s)) = n ->
  check_size n s = (Ok tt, s).
Proof. intros <-. unfold check_size. now rewrite Nat.eqb_refl. Qed.

Lemma iterate_nodes_pure {S} (body : node_key -> attrs -> S -> M S)
      (f : node_key -> attrs -> S -> result S) (n : nat) :
  (forall k d acc s, body k d acc s = (f k d acc, s)) ->
  forall items acc s,
    List.length (g_node (content_graph s)) = n ->
    snd (iterate_nodes items n body acc s) = s
    /\ forall s',
        List.length (g_node (content_graph s')) = n ->
        fst (iterate_nodes items n body acc s')
        = fst (iterate_nodes items n body acc s).
Proof.
  intros Hb items. induction items as [|[k d] items IH]; intros acc s Hs.
  - cbn [iterate_nodes]. unfold bind. rewrite (@check_size_ok _ _ Hs). cbn.
    split; [reflexivity|]. intros s' E. now rewrite (@check_size_ok _ _ E).
  - cbn [iterate_nodes]. unfold bind. rewrite (@check_size_ok _ _ Hs).
    rewrite Hb. destruct (f k d acc) as [acc'|e] eqn:Ef.
    + destruct (IH acc' s Hs) as [IH1 IH2]. split; [exact IH1|].
      intros s' E. rewrite (@check_size_ok _ _ E), Hb, Ef. now apply IH2.
    + split; [reflexivity|]. intros s' E.
      now rewrite (@check_size_ok _ _ E), Hb, Ef.
Qed.

Lemma eligible_documents_pure (s : analyzer) :
  snd (eligible_documents s) = s
  /\ forall s',
      g_node (content_graph s') = g_node (content_graph s) ->
      fst (eligible_documents s') = fst (eligible_documents s).
Proof.
  unfold eligible_documents, for_nodes_acc, bind, get_graph.
  set (body := fun (node_id : node_key) (data : attrs)
                   (docs : list (node_key * string)) => _).
  assert (Hb : forall k d acc s0,
             body k d acc s0 = (fst (body k d acc (init "")), s0)).
  { intros k d acc s0. unfold body, bind, subscript, ret, raise.
    destruct (a_type d) as [ty|]; [|reflexivity].
    destruct (is_post_or_page ty
              && negb (PyStr.is_empty (get_or (a_content d) "")));
      [|reflexivity].
    destruct (a_content d); reflexivity. }
  destruct (iterate_nodes_pure body _ Hb (g_node (content_graph s)) []
                               s eq_refl) as [H1 H2].
  split; [exact H1|]. intros s' E. rewrite E. apply H2. now rewrite E.
Qed.

(** C9. The cluster list is a function of the node dictionary alone: two
    runs of the clusterer on analyzers that hold the same documents in the
    same order return the same result, whatever else the analyzers hold (in
    particular whatever the vectorizer was fitted on before). *)
Theorem clustering_deterministic
      (fit_transform : list string -> option (list string * list (list float)))
      (cosine_similarity : list (list float) -> list (list float))
      (argsort : list float -> list nat)
      (s1 s2 : analyzer) :
  g_node (content_graph s1) = g_node (content_graph s2) ->
  fst (identify_semantic_clusters fit_transform cosine_similarity argsort s1)
  = fst (identify_semantic_clusters fit_transform cosine_similarity argsort s2).
Proof.
  intro E. unfold identify_semantic_clusters, bind.
  destruct (eligible_documents_pure s2) as [_ H2].
  specialize (H2 s1 E).
  destruct (eligible_documents s1) as [r1 t1].
  destruct (eligible_documents s2) as [r2 t2].
  cbn [fst] in H2. subst r2.
  destruct r1 as [docs|e]; [|reflexivity].
  destruct (map snd docs) as [|t ts]; [reflexivity|].
  destruct (fit_transform (t :: ts)) as [[features tfidf]|]; [|reflexivity].
  cbn [fitted_vocabulary].
  destruct (greedy_clusters argsort (Some features) (map fst docs) tfidf
                            (cosine_similarity tfidf)); reflexivity.
Qed.

(** A run of the clusterer leaves the graph as it found it. *)
Lemma identify_semantic_clusters_graph
      (fit_transform : list string -> option (list string * list (list float)))
      (cosine_similarity : list (list float) -> list (list float))
      (argsort : list float -> list nat) (s : analyzer) :
  content_graph
    (snd (identify_semantic_clusters fit_transform cosine_similarity
                                     argsort s))
  = content_graph s.
Proof.
  unfold identify_semantic_clusters, bind.
  destruct (eligible_documents_pure s) as [H1 _].
  destruct (eligible_documents s) as [r1 t1]. cbn [snd] in H1. subst t1.
  destruct r1 as [docs|e]; [|reflexivity].
  destruct (map snd docs) as [|t ts]; [reflexivity|].
  destruct (fit_transform (t :: ts)) as [[features tfidf]|]; [|reflexivity].
  cbn [fitted_vocabulary].
  destruct (greedy_clusters argsort (Some features) (map fst docs) tfidf
                            (cosine_similarity tfidf)); reflexivity.
Qed.

Lemma clustering_deterministic_witness :
  let run := identify_semantic_clusters Sample.fit_transform
               Sample.cosine_similarity Sample.argsort in
  fst (run Sample.chain_site) = fst (run (snd (run Sample.chain_site))).
Proof.
  apply (clustering_deterministic Sample.fit_transform
           Sample.cosine_similarity Sample.argsort
           Sample.chain_site
           (snd (identify_semantic_clusters Sample.fit_transform
                   Sample.cosine_similarity Sample.argsort
                   Sample.chain_site))).
  vm_compute. reflexivity.
Defined.

(** ** Connectivity analyzer *)

(** A loop over the nodes that ends normally establishes, from an invariant
    of its steps, the invariant at the end.  A step may assume that the
    dictionary still has its initial size when the next one begins. *)
Lemma iterate_nodes_hoare {S}
      (I : list (node_key * attrs) -> S -> analyzer -> Prop)
      (body : node_key -> attrs -> S -> M S) (n : nat) :
  (forall k d rest acc s acc' s',
      I ((k, d) :: rest) acc s ->
      body k d acc s = (Ok acc', s') ->
      List.length (g_node (content_graph s')) = n ->
      I rest acc' s') ->
  forall items acc s r s',
    I items acc s ->
    iterate_nodes items n body acc s = (Ok r, s') ->
    I [] r s'.
Proof.
  intros Hstep items.
  induction items as [|[k d] rest IH]; intros acc s r s' Hi H;
    cbn [iterate_nodes] in H; unfold bind in H.
  - unfold check_size in H.
    destruct (List.length (g_node (content_graph s)) =? n)%nat;
      [|discriminate H].
    unfold ret in H. now injection H as <- <-.
  - unfold check_size in H.
    destruct (List.length (g_node (content_graph s)) =? n)%nat;
      [|discriminate H].
    destruct (body k d acc s) as [[acc1|e] s1] eqn:Eb; [|discriminate H].
    apply (IH acc1 s1 r s'); [|exact H].
    apply (Hstep k d rest acc s acc1 s1 Hi Eb).
    destruct rest as [|[k2 d2] rest2]; cbn [iterate_nodes] in H;
      unfold bind, check_size in H;
      destruct (List.length (g_node (content_graph s1)) =? n)%nat eqn:En;
      try discriminate H; now apply Nat.eqb_eq.
Qed.

Lemma dict_set_In {V} (k k' : node_key) (v v' : V)
      (d : list (node_key * V)) :
  In (k', v') (dict_set k v d) -> (k' = k /\ v' = v) \/ In (k', v') d.
Proof.
  induction d as [|[k0 v0] d IH]; cbn.
  - intros [E|[]]. injection E as <- <-. now left.
  - destruct (node_key_eqb k0 k) eqn:Ek.
    + apply node_key_eqb_eq in Ek. subst k0.
      intros [E|Hin]; [injection E as <- <-; now left|right; now right].
    + intros [E|Hin]; [right; now left|].
      destruct (IH Hin) as [Hl|Hr]; [now left|right; now right].
Qed.

Lemma dict_set_keys {V} (k : node_key) (v : V) (d : list (node_key * V))
      (k' : node_key) :
  k' = k \/ In k' (map fst d) -> In k' (map fst (dict_set k v d)).
Proof.
  induction d as [|[k0 v0] d IH]; cbn.
  - intros [->|[]]. now left.
  - destruct (node_key_eqb k0 k) eqn:Ek; cbn.
    + apply node_key_eqb_eq in Ek. subst k0. intros [->|[->|H]]; auto.
    + intros [->|[->|H]]; auto.
Qed.

Lemma score_nodes_invariant (self s' : analyzer)
      (scores : list (node_key * score_data)) :
  score_nodes self = (Ok scores, s') ->
  scoring_invariant self [] scores s'.
Proof.
  unfold score_nodes, for_nodes_acc, bind, get_graph.
  apply iterate_nodes_hoare with (I := scoring_invariant self).
  - intros k d rest acc s acc' s1 [-> [Hrec [visited [Eg Hvis]]]] Hb _.
    assert (Hin : In (k, d) (g_node (content_graph self))).
    { rewrite Eg. apply in_or_app. right. now left. }
    assert (Eg' : g_node (content_graph self)
                  = ((visited ++ [(k, d)]) ++ rest)%list).
    { rewrite Eg, <- app_assoc. reflexivity. }
    unfold bind, subscript, ret, raise, get_graph in Hb.
    destruct (a_type d) as [ty|] eqn:Et; [|discriminate Hb].
    destruct (is_post_or_page ty) eqn:Ep.
    + destruct (a_title d) as [title|] eqn:Ett; [|discriminate Hb].
      destruct (a_url d) as [url|] eqn:Eu; [|discriminate Hb].
      injection Hb as <- <-. split; [reflexivity|]. split.
      * intros k' sd Hin'. apply dict_set_In in Hin'.
        destruct Hin' as [[-> ->]|Hin']; [|now apply Hrec].
        exists d, ty. cbn. now repeat split.
      * exists (visited ++ [(k, d)])%list. split; [exact Eg'|].
        intros k' d' ty' Hin' Et' Ep'. apply dict_set_keys.
        apply in_app_or in Hin'. destruct Hin' as [Hin'|[E|[]]].
        -- right. now apply (Hvis k' d' ty').
        -- injection E as <- <-. now left.
    + injection Hb as <- <-. split; [reflexivity|].
      split; [exact Hrec|].
      exists (visited ++ [(k, d)])%list. split; [exact Eg'|].
      intros k' d' ty' Hin' Et' Ep'.
      apply in_app_or in Hin'. destruct Hin' as [Hin'|[E|[]]].
      * now apply (Hvis k' d' ty').
      * injection E as <- <-. congruence.
  - split; [reflexivity|]. split; [intros k sd []|].
    exists []. split; [reflexivity|intros k d ty []].
Qed.

(** C7. After a run of the connectivity analysis, every post or page of the
    graph has a score record, built from its own out-degree, in-degree and
    depth score; the record is listed as a hub candidate exactly when the
    out-degree exceeds 5 and the depth score exceeds 0.7, and as an orphan
    exactly when the in-degree is 0 and the out-degree is below 2.  So a
    node of in-degree 0 and out-degree 0 is an orphan, and one of in-degree 0
    and out-degree 2 is not. *)
Theorem connectivity_classification
      (fit_transform : list string -> option (list string * list (list float)))
      (cosine_similarity : list (list float) -> list (list float))
      (argsort : list float -> list nat)
      (self self' : analyzer) (analysis : depth_analysis) :
  analyze_content_depth fit_transform cosine_similarity argsort self
  = (Ok analysis, self') ->
  let g := content_graph self in
  (forall k d ty,
      In (k, d) (g_node g) -> a_type d = Some ty ->
      is_post_or_page ty = true ->
      In k (map fst (content_scores analysis)))
  /\ (forall k sd,
         In (k, sd) (content_scores analysis) ->
         scored_from g k sd
         /\ (In sd (hub_potential analysis)
             <-> (5 < out_degree g k)%nat
                 /\ PyFloat.gt (sd_depth_score sd) 0.7%float = true)
         /\ (In sd (orphan_content analysis)
             <-> in_degree g k = 0%nat /\ (out_degree g k < 2)%nat)
         /\ (in_degree g k = 0%nat -> out_degree g k = 0%nat ->
             In sd (orphan_content analysis))
         /\ (in_degree g k = 0%nat -> out_degree g k = 2%nat ->
             ~ In sd (orphan_content analysis))).
Proof.
  intros H g. unfold analyze_content_depth, bind in H.
  destruct (score_nodes self) as [[scores|e] s1] eqn:Es; [|discriminate H].
  apply score_nodes_invariant in Es.
  destruct Es as [-> [Hrec [visited [Eg Hvis]]]].
  destruct (identify_semantic_clusters fit_transform cosine_similarity
                                       argsort self) as [[cs|e] s2];
    [|discriminate H].
  unfold ret in H. injection H as <- _.
  cbn [content_scores hub_potential orphan_content].
  rewrite app_nil_r in Eg. split.
  - intros k d ty Hin Et Ep. apply (Hvis k d ty); trivial.
    now rewrite <- Eg.
  - intros k sd Hin. pose proof (Hrec k sd Hin) as Hsc.
    assert (Hl : sd_internal_links sd = out_degree g k)
      by (destruct Hsc as [d [ty Hsc]]; apply Hsc).
    assert (Hb : sd_backlinks sd = in_degree g k)
      by (destruct Hsc as [d [ty Hsc]]; apply Hsc).
    assert (Hmem : In sd (map snd scores)).
    { apply in_map_iff. exists (k, sd). now split. }
    assert (Hhub : In sd (filter is_hub (map snd scores))
                   <-> (5 < out_degree g k)%nat
                       /\ PyFloat.gt (sd_depth_score sd) 0.7%float = true).
    { rewrite filter_In. unfold is_hub. rewrite andb_true_iff, Hl.
      rewrite Nat.ltb_lt. tauto. }
    assert (Horph : In sd (filter is_orphan (map snd scores))
                    <-> in_degree g k = 0%nat /\ (out_degree g k < 2)%nat).
    { rewrite filter_In. unfold is_orphan. rewrite andb_true_iff, Hl, Hb.
      rewrite Nat.eqb_eq, Nat.ltb_lt. tauto. }
    split; [exact Hsc|]. split; [exact Hhub|]. split; [exact Horph|].
    split.
    + intros Hi Ho. apply Horph. lia.
    + intros Hi Ho Hin'. apply Horph in Hin'. lia.
Qed.

Lemma connectivity_classification_witness :
  exists analysis sd,
    fst (analyze_content_depth Sample.fit_transform Sample.cosine_similarity
                               Sample.argsort small_site) = Ok analysis
    /\ In (IntKey 3, sd) (content_scores analysis)
    /\ In sd (orphan_content analysis).
Proof.
  eexists. eexists. split; [vm_compute; reflexivity|].
  split; [right; right; left; reflexivity|].
  refine (proj1 (proj2 (proj2 (proj2
            (proj2 (connectivity_classification
                      Sample.fit_transform Sample.cosine_similarity
                      Sample.argsort small_site (self' := _) _)
                   (IntKey 3) _ _)))) _ _).
  - vm_compute. reflexivity.
  - right. right. left. reflexivity.
  - reflexivity.
  - reflexivity.
Defined.

(** ** Graph builder *)

Lemma In_has_node (g : DiGraph) (k : node_key) (d : attrs) :
  In (k, d) (g_node g) -> has_node g k = true.
Proof.
  intro H. unfold has_node. apply existsb_exists.
  exists (k, d). split; [exact H|apply node_key_eqb_refl].
Qed.

Lemma find_target_has_node (g : DiGraph) (link : string) (t : node_key) :
  find_target g link = Some t -> has_node g t = true.
Proof.
  unfold find_target.
  destruct (find _ (g_node g)) as [[k d]|] eqn:E; [|discriminate].
  intro H. injection H as <-. apply find_some in E.
  apply (In_has_node g k d). apply E.
Qed.

Lemma add_edge_existing (g : DiGraph) (u v : node_key) (ty : string) :
  has_node g u = true -> has_node g v = true ->
  g_node (add_edge g u v ty) = g_node g.
Proof. intros Hu Hv. unfold add_edge. now rewrite Hu, Hv. Qed.

Lemma set_edge_In (u v : node_key) (ty : string)
      (l : list (node_key * node_key * string)) :
  In (u, v, ty) (set_edge u v ty l).
Proof.
  induction l as [|e l IH]; cbn; [now left|].
  destruct (edge_eqb u v e); [now left|now right].
Qed.

(** A loop over a list whose steps all end normally and keep a property of
    the analyzer ends normally and keeps it. *)
Lemma for_each_acc_total {A S} (Q : analyzer -> Prop)
      (body : A -> S -> M S) (l : list A) :
  (forall x acc s, In x l -> Q s ->
                   exists acc' s', body x acc s = (Ok acc', s') /\ Q s') ->
  forall acc s, Q s ->
    exists r s', for_each_acc l body acc s = (Ok r, s') /\ Q s'.
Proof.
  induction l as [|x l IH]; intros Hb acc s Hq; cbn [for_each_acc].
  - exists acc, s. now split.
  - unfold bind.
    destruct (Hb x acc s (or_introl eq_refl) Hq) as [acc' [s' [E Hq']]].
    rewrite E. apply IH; [|exact Hq'].
    intros y a t Hy. apply Hb. now right.
Qed.

(** The same for a loop over the nodes, when the property fixes the size
    of the node dictionary. *)
Lemma iterate_nodes_total {S} (Q : analyzer -> Prop) (n : nat)
      (body : node_key -> attrs -> S -> M S)
      (items : list (node_key * attrs)) :
  (forall s, Q s -> List.length (g_node (content_graph s)) = n) ->
  (forall k d acc s, In (k, d) items -> Q s ->
                     exists acc' s', body k d acc s = (Ok acc', s') /\ Q s') ->
  forall acc s, Q s ->
    exists r s', iterate_nodes items n body acc s = (Ok r, s') /\ Q s'.
Proof.
  intro Hn.
  induction items as [|[k d] items IH]; intros Hb acc s Hq;
    cbn [iterate_nodes]; unfold bind at 1.
  - rewrite (@check_size_ok _ _ (Hn s Hq)). exists acc, s. now split.
  - rewrite (@check_size_ok _ _ (Hn s Hq)). unfold bind at 1.
    destruct (Hb k d acc s (or_introl eq_refl) Hq) as [acc' [s' [E Hq']]].
    rewrite E. apply IH; [|exact Hq'].
    intros k' d' a t Hy. apply Hb. now right.
Qed.

(** The internal-link pass ends normally and adds no node. *)
Lemma build_internal_link_edges_total
      (re_findall : string -> string -> list string) (s : analyzer) :
  exists s',
    build_internal_link_edges re_findall s = (Ok tt, s')
    /\ g_node (content_graph s') = g_node (content_graph s)
    /\ site_url s' = site_url s
    /\ fitted_vocabulary s' = fitted_vocabulary s.
Proof.
  unfold build_internal_link_edges, for_nodes, for_nodes_acc.
  unfold bind at 1. unfold get_graph at 1.
  set (nodes := g_node (content_graph s)).
  set (Q := fun t : analyzer =>
              nodes_are nodes t /\ site_url t = site_url s
              /\ fitted_vocabulary t = fitted_vocabulary s).
  match goal with
  | |- exists s', iterate_nodes _ _ ?b _ _ = _ /\ _ => set (body := b)
  end.
  destruct (@iterate_nodes_total unit Q (List.length nodes) body nodes)
    with (acc := tt) (s := s) as [r [s' [E [Hn [Hu Hv]]]]].
  - intros t [Hn _]. unfold nodes_are in Hn. now rewrite Hn.
  - intros k d [] t Hk Hq. unfold body.
    destruct (a_content d) as [content|]; [|exists tt, t; now split].
    unfold for_each.
    apply for_each_acc_total with (Q := Q); [|exact Hq].
    intros link [] u _ [Hn [Hu Hv]]. unfold bind, get_graph.
    destruct (find_target (content_graph u) link) as [target|] eqn:Ef.
    + exists tt. eexists. split; [reflexivity|].
      unfold Q, nodes_are.
      cbn [content_graph site_url fitted_vocabulary].
      split; [|now split].
      rewrite add_edge_existing; [exact Hn| |].
      * apply (In_has_node _ k d). unfold nodes_are in Hn.
        now rewrite Hn.
      * now apply (find_target_has_node _ link).
    + exists tt, u. split; [reflexivity|]. now split.
  - now repeat split.
  - destruct r. exists s'. now repeat split.
Qed.

Lemma bind_ok {A B} (m : M A) (k : A -> M B) (s s' : analyzer) (a : A) :
  m s = (Ok a, s') -> bind m k s = k a s'.
Proof. intro E. unfold bind. now rewrite E. Qed.

Lemma bind_raise {A B} (m : M A) (k : A -> M B) (s s' : analyzer) (e : exn) :
  m s = (Raise e, s') -> bind m k s = (Raise e, s').
Proof. intro E. unfold bind. now rewrite E. Qed.

(** C2, at an input on which the code departs from it: a post filed under a
    category that has no record.  The taxonomy pass does not skip the
    reference: it stores an edge to a node it adds on the spot, and the loop
    over the nodes then stops with an error. *)
Theorem unresolved_category_adds_node_and_raises
        (re_sub : string -> string -> string -> string)
        (re_findall : string -> string -> list string) (url : string) :
  let r := build_content_graph re_sub re_findall unfiled_content (init url) in
  categories unfiled_content = []
  /\ fst r = Raise (RuntimeError "dictionary changed size during iteration")
  /\ has_node (content_graph (snd r)) (cat_key 7) = true
  /\ In (post_key 1, cat_key 7, "categorized_as")
        (g_edges (content_graph (snd r))).
Proof.
  intro r. split; [reflexivity|]. subst r. unfold build_content_graph.
  set (p := mk_post 1 "Apples" "http://site.example/apples" "apple" "apple"
                    (Some [7%Z]) (Some []) "2024-01-01").
  set (s0 := mk_analyzer (rstrip_slash url)
                         (mk_graph [(IntKey 1, post_attrs re_sub p)] [])
                         None).
  rewrite (@bind_ok _ _ _ _ (init url) s0 tt) by reflexivity.
  rewrite (@bind_ok _ _ _ _ s0 s0 tt) by reflexivity.
  destruct (build_internal_link_edges_total re_findall s0)
    as [s1 [E1 [Hn _]]].
  rewrite (@bind_ok _ _ _ _ s0 s1 tt) by exact E1.
  destruct s1 as [u [nodes edges] v]. cbn in Hn. subst nodes.
  rewrite (@bind_raise _ _ _ _ _
             (mk_analyzer u
                (mk_graph [(IntKey 1, post_attrs re_sub p);
                           (cat_key 7, empty_attrs)]
                          (set_edge (post_key 1) (cat_key 7)
                                    "categorized_as" edges))
                v)
             (RuntimeError "dictionary changed size during iteration"))
    by reflexivity.
  cbn [fst snd content_graph g_edges].
  split; [reflexivity|]. split; [reflexivity|]. apply set_edge_In.
Qed.

(** A well-formed site whose post carries a tag id that matches no tag
    record: graph construction does not complete.  It raises, whatever the
    regular expression engine returns, and leaves a node for the missing tag
    behind. *)
Lemma unresolved_tag_raises
        (re_sub : string -> string -> string -> string)
        (re_findall : string -> string -> list string) (url : string) :
  let r := build_content_graph re_sub re_findall untagged_content (init url) in
  tags untagged_content = []
  /\ fst r = Raise (RuntimeError "dictionary changed size during iteration")
  /\ map fst (g_node (content_graph (snd r)))
     = [post_key 1; page_key 2; cat_key 7; tag_key 9].
Proof.
  intro r. split; [reflexivity|]. subst r. unfold build_content_graph.
  set (p := mk_post 1 "Apples" "http://site.example/apples" "apple" "apple"
                    (Some [7%Z]) (Some [9%Z]) "2024-01-01").
  set (q := mk_page 2 "About" "http://site.example/about" "about" None
                    "2024-01-01").
  set (nodes0 := [(IntKey 1, post_attrs re_sub p);
                  (page_key 2, page_attrs re_sub q)]).
  set (s0 := mk_analyzer (rstrip_slash url) (mk_graph nodes0 []) None).
  rewrite (@bind_ok _ _ _ _ (init url)
             (mk_analyzer (rstrip_slash url)
                          (mk_graph [(IntKey 1, post_attrs re_sub p)] [])
                          None) tt) by reflexivity.
  rewrite (@bind_ok _ _ _ _ _ s0 tt) by reflexivity.
  destruct (build_internal_link_edges_total re_findall s0)
    as [s1 [E1 [Hn _]]].
  rewrite (@bind_ok _ _ _ _ s0 s1 tt) by exact E1.
  destruct s1 as [u [nodes edges] v]. cbn in Hn. subst nodes.
  rewrite (@bind_raise _ _ _ _ _
             (mk_analyzer u
                (mk_graph
                   (nodes0 ++ [(cat_key 7,
                                term_attrs "category" (mk_term 7 "News" "news"));
                               (tag_key 9, empty_attrs)])
                   (set_edge (post_key 1) (tag_key 9) "tagged_as"
                      (set_edge (post_key 1) (cat_key 7) "categorized_as"
                                edges)))
                v)
             (RuntimeError "dictionary changed size during iteration"))
    by reflexivity.
  split; reflexivity.
Qed.

(** With every reference resolved, the same site builds. *)
Lemma resolved_content_builds
      (re_sub : string -> string -> string -> string)
      (re_findall : string -> string -> list string) (url : string) :
  exists g,
    fst (build_content_graph re_sub re_findall resolved_content (init url))
    = Ok g
    /\ map fst (g_node g) = [post_key 1; page_key 2; cat_key 7; tag_key 9]
    /\ In (post_key 1, cat_key 7, "categorized_as") (g_edges g)
    /\ In (post_key 1, tag_key 9, "tagged_as") (g_edges g).
Proof.
  unfold build_content_graph.
  set (p := mk_post 1 "Apples" "http://site.example/apples" "apple" "apple"
                    (Some [7%Z]) (Some [9%Z]) "2024-01-01").
  set (q := mk_page 2 "About" "http://site.example/about" "about" None
                    "2024-01-01").
  set (nodes0 := [(IntKey 1, post_attrs re_sub p);
                  (page_key 2, page_attrs re_sub q)]).
  set (s0 := mk_analyzer (rstrip_slash url) (mk_graph nodes0 []) None).
  rewrite (@bind_ok _ _ _ _ (init url)
             (mk_analyzer (rstrip_slash url)
                          (mk_graph [(IntKey 1, post_attrs re_sub p)] [])
                          None) tt) by reflexivity.
  rewrite (@bind_ok _ _ _ _ _ s0 tt) by reflexivity.
  destruct (build_internal_link_edges_total re_findall s0)
    as [s1 [E1 [Hn _]]].
  rewrite (@bind_ok _ _ _ _ s0 s1 tt) by exact E1.
  destruct s1 as [u [nodes edges] v]. cbn in Hn. subst nodes.
  set (g1 := mk_graph
               (nodes0 ++ [(cat_key 7,
                            term_attrs "category" (mk_term 7 "News" "news"));
                           (tag_key 9,
                            term_attrs "tag" (mk_term 9 "Fruit" "fruit"))])
               (set_edge (post_key 1) (tag_key 9) "tagged_as"
                  (set_edge (post_key 1) (cat_key 7) "categorized_as"
                            edges))).
  rewrite (@bind_ok _ _ _ _ _ (mk_analyzer u g1 v) tt) by reflexivity.
  exists g1. split; [reflexivity|]. split; [reflexivity|].
  unfold g1. cbn [g_edges]. split.
  - assert (H : forall a b ty l e,
               In e l -> edge_eqb a b e = false ->
               In e (set_edge a b ty l)).
    { intros a b ty l e. induction l as [|x l IH]; cbn; [tauto|].
      intros [->|Hin] Hb.
      - rewrite Hb. now left.
      - destruct (edge_eqb a b x); [now right|]. right. now apply IH. }
    apply H; [apply set_edge_In|reflexivity].
  - apply set_edge_In.
Qed.

(** On an empty site, graph construction and the analysis complete, with
    empty results. *)
Lemma empty_site_completes
      (re_sub : string -> string -> string -> string)
      (re_findall : string -> string -> list string)
      (fit_transform : list string -> option (list string * list (list float)))
      (cosine_similarity : list (list float) -> list (list float))
      (argsort : list float -> list nat) (url : string) :
  let built := build_content_graph re_sub re_findall
                                   (mk_content [] [] [] []) (init url) in
  fst built = Ok empty_graph
  /\ fst (analyze_content_depth fit_transform cosine_similarity argsort
                                (snd built))
     = Ok (mk_depth_analysis [] [] [] []).
Proof. split; reflexivity. Qed.

(** ** The node dictionary has distinct keys *)

Lemma preserves_ret {A} (Q : analyzer -> Prop) (a : A) : preserves Q (ret a).
Proof. intros s H. exact H. Qed.

Lemma preserves_bind {A B} (Q : analyzer -> Prop) (m : M A) (k : A -> M B) :
  preserves Q m -> (forall a, preserves Q (k a)) -> preserves Q (bind m k).
Proof.
  intros Hm Hk s Hq. unfold bind. specialize (Hm s Hq).
  destruct (m s) as [[a|e] s']; cbn [snd] in *; [now apply Hk|exact Hm].
Qed.

Lemma preserves_for_each_acc {A S} (Q : analyzer -> Prop)
      (body : A -> S -> M S) (l : list A) :
  (forall x acc, preserves Q (body x acc)) ->
  forall acc, preserves Q (for_each_acc l body acc).
Proof.
  intro Hb. induction l as [|x l IH]; intro acc; cbn [for_each_acc].
  - apply preserves_ret.
  - apply preserves_bind; [apply Hb|exact IH].
Qed.

Lemma preserves_check_size (Q : analyzer -> Prop) (n : nat) :
  preserves Q (check_size n).
Proof.
  intros s H. unfold check_size.
  now destruct (List.length (g_node (content_graph s)) =? n)%nat.
Qed.

Lemma preserves_iterate_nodes {S} (Q : analyzer -> Prop)
      (body : node_key -> attrs -> S -> M S) (n : nat)
      (items : list (node_key * attrs)) :
  (forall k d acc, preserves Q (body k d acc)) ->
  forall acc, preserves Q (iterate_nodes items n body acc).
Proof.
  intro Hb. induction items as [|[k d] items IH]; intro acc;
    cbn [iterate_nodes].
  - apply preserves_bind; [apply preserves_check_size|].
    intro. apply preserves_ret.
  - apply preserves_bind; [apply preserves_check_size|]. intro.
    apply preserves_bind; [apply Hb|exact IH].
Qed.

Lemma preserves_for_nodes_acc {S} (Q : analyzer -> Prop)
      (body : node_key -> attrs -> S -> M S) (acc : S) :
  (forall k d acc, preserves Q (body k d acc)) ->
  preserves Q (for_nodes_acc body acc).
Proof.
  intro Hb. unfold for_nodes_acc. apply preserves_bind.
  - intros s H. exact H.
  - intro g. now apply preserves_iterate_nodes.
Qed.

Lemma update_node_keys (k : node_key) (a : attrs)
      (l : list (node_key * attrs)) :
  map fst (update_node k a l) = map fst l.
Proof.
  induction l as [|[k' d] l IH]; cbn; [reflexivity|].
  destruct (node_key_eqb k' k); cbn; [reflexivity|now rewrite IH].
Qed.

Lemma has_node_false (g : DiGraph) (k : node_key) :
  has_node g k = false -> ~ In k (map fst (g_node g)).
Proof.
  intros H Hin. apply in_map_iff in Hin. destruct Hin as [[k' d] [E Hin]].
  cbn in E. subst k'. apply In_has_node in Hin. congruence.
Qed.

Lemma add_node_keys_unique (g : DiGraph) (k : node_key) (a : attrs) :
  NoDup (map fst (g_node g)) -> NoDup (map fst (g_node (add_node g k a))).
Proof.
  intro H. unfold add_node. destruct (has_node g k) eqn:E; cbn [g_node].
  - now rewrite update_node_keys.
  - rewrite map_app. cbn. apply NoDup_app_remove_l with (l := []).
    cbn. apply NoDup_Add with (a := k) (l := map fst (g_node g)).
    + replace (map fst (g_node g) ++ [k])%list
        with (map fst (g_node g) ++ k :: [])%list by reflexivity.
      rewrite <- (app_nil_r (map fst (g_node g))) at 1.
      apply Add_app.
    + split; [exact H|now apply has_node_false].
Qed.

Lemma add_edge_keys_unique (g : DiGraph) (u v : node_key) (ty : string) :
  NoDup (map fst (g_node g)) ->
  NoDup (map fst (g_node (add_edge g u v ty))).
Proof.
  intro H. unfold add_edge. cbn [g_node].
  assert (H1 : NoDup (map fst (g_node (if has_node g u then g
                                       else add_node g u empty_attrs)))).
  { destruct (has_node g u); [exact H|now apply add_node_keys_unique]. }
  destruct (has_node (if has_node g u then g else add_node g u empty_attrs) v);
    [exact H1|now apply add_node_keys_unique].
Qed.

Lemma preserves_modify_graph (f : DiGraph -> DiGraph) :
  (forall g, NoDup (map fst (g_node g)) -> NoDup (map fst (g_node (f g)))) ->
  preserves keys_unique (modify_graph f).
Proof. intros Hf s H. unfold keys_unique in *. cbn. now apply Hf. Qed.

Lemma build_content_graph_keys_unique
      (re_sub : string -> string -> string -> string)
      (re_findall : string -> string -> list string)
      (content : site_content) :
  preserves keys_unique (build_content_graph re_sub re_findall content).
Proof.
  unfold build_content_graph, build_internal_link_edges,
    build_taxonomy_edges, connect_post, for_each, for_nodes.
  repeat first
    [ apply preserves_for_nodes_acc; intros
    | apply preserves_iterate_nodes; intros
    | apply preserves_for_each_acc; intros
    | apply preserves_bind; [|intro]
    | apply preserves_modify_graph; intros;
      first [now apply add_node_keys_unique|now apply add_edge_keys_unique]
    | apply preserves_ret
    | match goal with
      | |- preserves _ (subscript _ ?o) =>
          destruct o; intros ? ?; assumption
      | |- preserves _ get_graph => intros ? ?; assumption
      | |- preserves _ (match ?o with Some _ => _ | None => _ end) =>
          destruct o
      | |- preserves _ (if ?b then _ else _) => destruct b
      | |- preserves _ (fun self => _) =>
          let st := fresh "st" in
          let Hst := fresh "Hst" in
          intros st Hst;
          match goal with
          | |- keys_unique (snd (for_each_acc ?l ?b ?a st)) =>
              apply (@preserves_for_each_acc _ _ keys_unique b l);
              [|exact Hst]
          end; intros
      end ].
Qed.



(** ** The taxonomy pass on a dangling reference *)

Lemma has_node_In (g : DiGraph) (k : node_key) :
  has_node g k = true <-> In k (map fst (g_node g)).
Proof.
  split.
  - unfold has_node. rewrite existsb_exists. intros [[k' d] [Hin E]].
    cbn in E. apply node_key_eqb_eq in E. subst k'.
    apply in_map_iff. now exists (k, d).
  - intro H. apply in_map_iff in H. destruct H as [[k' d] [E Hin]].
    cbn in E. subst k'. now apply (In_has_node g k d).
Qed.

Lemma add_node_new (g : DiGraph) (k : node_key) (a : attrs) :
  has_node g k = false -> g_node (add_node g k a) = (g_node g ++ [(k, a)])%list.
Proof. intro H. unfold add_node. now rewrite H. Qed.

(** [add_edge] only appends to the node dictionary, and it does append when
    the target is not yet a node. *)
Lemma add_edge_appends (g : DiGraph) (u v : node_key) (ty : string) :
  exists extra,
    g_node (add_edge g u v ty) = (g_node g ++ extra)%list
    /\ (~ In v (map fst (g_node g)) -> extra <> []).
Proof.
  unfold add_edge. cbn [g_node].
  destruct (has_node g u) eqn:Eu.
  - destruct (has_node g v) eqn:Ev.
    + exists []. split; [now rewrite app_nil_r|].
      intro H. apply has_node_In in Ev. contradiction.
    + exists [(v, empty_attrs)]. split; [now apply add_node_new|discriminate].
  - set (g1 := add_node g u empty_attrs).
    assert (E1 : g_node g1 = (g_node g ++ [(u, empty_attrs)])%list)
      by now apply add_node_new.
    destruct (has_node g1 v) eqn:Ev.
    + exists [(u, empty_attrs)]. split; [exact E1|discriminate].
    + exists [(u, empty_attrs); (v, empty_attrs)]. split; [|discriminate].
      rewrite add_node_new by exact Ev. rewrite E1, <- app_assoc.
      reflexivity.
Qed.

(** A loop of [add_edge] from one source: it ends normally, only appends
    nodes, and appends at least one when some target is not yet a node. *)
Lemma link_all_appends (k : node_key) (key : Z -> node_key) (ty : string)
      (ids : list Z) :
  forall s,
  exists s' extra,
    for_each ids (fun id =>
      modify_graph (fun g => add_edge g k (key id) ty)) s = (Ok tt, s')
    /\ g_node (content_graph s') = (g_node (content_graph s) ++ extra)%list
    /\ ((exists id, In id ids /\ ~ In (key id) (node_keys s)) -> extra <> []).
Proof.
  unfold for_each.
  induction ids as [|id ids IH]; intro s; cbn [for_each_acc].
  - exists s, []. split; [reflexivity|]. split; [now rewrite app_nil_r|].
    intros [id [[] _]].
  - unfold bind at 1. unfold modify_graph at 1.
    destruct (add_edge_appends (content_graph s) k (key id) ty)
      as [e0 [E0 H0]].
    set (s1 := mk_analyzer (site_url s)
                           (add_edge (content_graph s) k (key id) ty)
                           (fitted_vocabulary s)).
    destruct (IH s1) as [s' [e1 [E [E1 H1]]]].
    exists s', (e0 ++ e1)%list. split; [exact E|]. split.
    + rewrite E1. unfold s1. cbn [content_graph]. rewrite E0.
      now rewrite app_assoc.
    + intros [j [[<-|Hj] Hn]] Hnil; apply app_eq_nil in Hnil;
        destruct Hnil as [-> ->].
      * now apply H0.
      * apply H1; [|reflexivity]. exists j. split; [exact Hj|].
        unfold node_keys, s1. cbn [content_graph]. rewrite E0.
        now rewrite app_nil_r.
Qed.

(** One step of the last loop of the taxonomy pass, on a node that has a
    type: it ends normally and only appends nodes; on a post with a dangling
    reference it appends at least one. *)
Lemma connect_post_appends (k : node_key) (d : attrs) (ty : string)
      (s : analyzer) :
  a_type d = Some ty ->
  exists s' extra,
    connect_post k d s = (Ok tt, s')
    /\ g_node (content_graph s') = (g_node (content_graph s) ++ extra)%list
    /\ (ty = "post" -> dangling s d -> extra <> []).
Proof.
  intro Et. unfold connect_post. rewrite Et. unfold subscript.
  unfold bind at 1. unfold ret at 1.
  destruct (String.eqb ty "post") eqn:Ep.
  - destruct (link_all_appends k cat_key "categorized_as"
                (get_or (a_categories d) []) s) as [s1 [e0 [E0 [N0 H0]]]].
    destruct (link_all_appends k tag_key "tagged_as"
                (get_or (a_tags d) []) s1) as [s2 [e1 [E1 [N1 H1]]]].
    exists s2, (e0 ++ e1)%list. split; [|split].
    + unfold bind. rewrite E0. exact E1.
    + rewrite N1, N0. now rewrite app_assoc.
    + intros _ Hd Hnil. apply app_eq_nil in Hnil. destruct Hnil as [-> ->].
      destruct Hd as [Hc|[id [Hin Hn]]].
      * now apply H0.
      * apply H1; [|reflexivity]. exists id. split; [exact Hin|].
        unfold node_keys. rewrite N0. now rewrite app_nil_r.
  - exists s, []. split; [reflexivity|]. split; [now rewrite app_nil_r|].
    intros ->. discriminate Ep.
Qed.

(** Once the node dictionary has changed size, the loop over the nodes
    stops with the iterator's error at its next step. *)
Lemma iterate_nodes_size_changed {S}
      (body : node_key -> attrs -> S -> M S) (n : nat)
      (items : list (node_key * attrs)) (acc : S) (s : analyzer) :
  List.length (g_node (content_graph s)) <> n ->
  iterate_nodes items n body acc s = (Raise size_error, s).
Proof.
  intro H. apply Nat.eqb_neq in H.
  destruct items as [|[k d] items]; cbn [iterate_nodes];
    unfold bind, check_size; now rewrite H.
Qed.

(** The last loop of the taxonomy pass stops with the iterator's error when
    a post it visits has a dangling reference. *)
Lemma connect_posts_raise (n : nat) (items : list (node_key * attrs)) :
  forall s,
    all_typed items ->
    List.length (g_node (content_graph s)) = n ->
    (exists k d, In (k, d) items /\ a_type d = Some "post" /\ dangling s d) ->
    fst (iterate_nodes items n (fun k d (_ : unit) => connect_post k d) tt s)
    = Raise size_error.
Proof.
  induction items as [|[k0 d0] items IH]; intros s Ht Hn [k [d [Hin [Hp Hd]]]].
  - destruct Hin.
  - cbn [iterate_nodes]. unfold bind at 1.
    rewrite (@check_size_ok _ _ Hn). unfold bind at 1.
    destruct (a_type d0) as [ty0|] eqn:Et0;
      [|exfalso; apply (Ht k0 d0); [now left|exact Et0]].
    destruct (connect_post_appends k0 d0 s Et0) as [s1 [extra [E [N H]]]].
    rewrite E. destruct extra as [|x extra].
    + rewrite app_nil_r in N.
      apply IH.
      * intros k' d' Hin'. apply (Ht k' d'). now right.
      * now rewrite N.
      * destruct Hin as [Eq|Hin].
        -- injection Eq as -> ->. exfalso.
           rewrite Hp in Et0. injection Et0 as <-.
           now apply H.
        -- exists k, d. split; [exact Hin|]. split; [exact Hp|].
           unfold dangling, node_keys in *. now rewrite N.
    + rewrite iterate_nodes_size_changed; [reflexivity|].
      rewrite N, length_app, <- Hn. cbn. lia.
Qed.

(** ** Graph construction on a site with an unresolved reference *)

(** A loop that only rewrites the graph is a fold over the graph. *)
Lemma for_each_modify {A} (f : A -> DiGraph -> DiGraph) (l : list A) :
  forall s,
    for_each l (fun x => modify_graph (f x)) s
    = (Ok tt,
       mk_analyzer (site_url s)
                   (fold_left (fun g x => f x g) l (content_graph s))
                   (fitted_vocabulary s)).
Proof.
  unfold for_each.
  induction l as [|x l IH]; intro s; cbn [for_each_acc fold_left].
  - now destruct s.
  - unfold bind at 1. unfold modify_graph at 1. now rewrite IH.
Qed.

Lemma fold_left_invariant {A B} (P : B -> Prop) (f : B -> A -> B)
      (l : list A) :
  (forall b x, In x l -> P b -> P (f b x)) ->
  forall b, P b -> P (fold_left f l b).
Proof.
  induction l as [|x l IH]; intros Hf b Hb; cbn [fold_left]; [exact Hb|].
  apply IH.
  - intros b' y Hy. apply Hf. now right.
  - apply Hf; [now left|exact Hb].
Qed.

Lemma update_node_In (k : node_key) (a : attrs) (l : list (node_key * attrs))
      (k' : node_key) (d' : attrs) :
  In (k', d') (update_node k a l) ->
  In (k', d') l \/ exists d, In (k', d) l /\ d' = attrs_update d a.
Proof.
  induction l as [|[k0 d0] l IH]; cbn; [tauto|].
  destruct (node_key_eqb k0 k) eqn:E.
  - intros [Eq|Hin].
    + injection Eq as <- <-. right. exists d0. split; [now left|reflexivity].
    + left. now right.
  - intros [Eq|Hin]; [left; now left|].
    destruct (IH Hin) as [H|[d [H1 H2]]]; [left; now right|].
    right. exists d. split; [now right|exact H2].
Qed.

Lemma update_node_other (k : node_key) (a : attrs)
      (l : list (node_key * attrs)) (k' : node_key) (d' : attrs) :
  k' <> k -> In (k', d') l -> In (k', d') (update_node k a l).
Proof.
  intro Hne. induction l as [|[k0 d0] l IH]; cbn; [tauto|].
  destruct (node_key_eqb k0 k) eqn:E.
  - apply node_key_eqb_eq in E. subst k0.
    intros [Eq|Hin]; [injection Eq as <- _; contradiction|now right].
  - intros [Eq|Hin]; [now left|right; now apply IH].
Qed.

(** [add_node] leaves the nodes under other keys as they are. *)
Lemma add_node_other (g : DiGraph) (k : node_key) (a : attrs)
      (k' : node_key) (d' : attrs) :
  k' <> k -> In (k', d') (g_node g) -> In (k', d') (g_node (add_node g k a)).
Proof.
  intros Hne Hin. unfold add_node. destruct (has_node g k); cbn [g_node].
  - now apply update_node_other.
  - apply in_or_app. now left.
Qed.

(** [add_node] with a typed record of the site keeps a graph built from the
    site. *)
Lemma add_node_built_from (content : site_content) (g : DiGraph)
      (k : node_key) (a : attrs) :
  a_type a <> None -> content_key content k ->
  built_from content g -> built_from content (add_node g k a).
Proof.
  intros Ha Hk [Ht Hc]. unfold add_node.
  destruct (has_node g k) eqn:E; unfold built_from; cbn [g_node]; split.
  - intros k' d' Hin. apply update_node_In in Hin.
    destruct Hin as [Hin|[d [Hin ->]]]; [now apply (Ht k' d')|].
    cbn. destruct (a_type a); [discriminate|contradiction].
  - rewrite update_node_keys. exact Hc.
  - intros k' d' Hin. apply in_app_or in Hin.
    destruct Hin as [Hin|[Eq|[]]]; [now apply (Ht k' d')|].
    now injection Eq as <- <-.
  - intros k' Hin. rewrite map_app in Hin. apply in_app_or in Hin.
    destruct Hin as [Hin|[<-|[]]]; [now apply Hc|exact Hk].
Qed.

Lemma bind_raise_fst {A B} (m : M A) (k : A -> M B) (s : analyzer) (e : exn) :
  fst (m s) = Raise e -> fst (bind m k s) = Raise e.
Proof.
  unfold bind. destruct (m s) as [[a|e'] s']; cbn [fst]; intro H;
    [discriminate H|now injection H as ->].
Qed.

(** Posts with distinct ids, added to a graph that holds none of their keys,
    are appended one by one. *)
Lemma add_posts_nodes (re_sub : string -> string -> string -> string)
      (l : list raw_post) :
  forall g,
    NoDup (map post_id l) ->
    (forall p, In p l -> ~ In (post_key (post_id p)) (map fst (g_node g))) ->
    g_node (fold_left
              (fun g p => add_node g (post_key (post_id p))
                                   (post_attrs re_sub p)) l g)
    = (g_node g
       ++ map (fun p => (post_key (post_id p), post_attrs re_sub p)) l)%list.
Proof.
  induction l as [|p l IH]; intros g Hnd Hnew; cbn [fold_left map].
  - now rewrite app_nil_r.
  - assert (Hp : has_node g (post_key (post_id p)) = false).
    { destruct (has_node g (post_key (post_id p))) eqn:E; [|reflexivity].
      apply has_node_In in E. exfalso. apply (Hnew p); [now left|exact E]. }
    inversion Hnd as [|x xs Hx Hxs]; subst.
    rewrite IH.
    + rewrite add_node_new by exact Hp. now rewrite <- app_assoc.
    + exact Hxs.
    + intros q Hq Hin. rewrite add_node_new in Hin by exact Hp.
      rewrite map_app in Hin. apply in_app_or in Hin.
      destruct Hin as [Hin|[Eq|[]]].
      * apply (Hnew q); [now right|exact Hin].
      * cbn in Eq. unfold post_key in Eq. injection Eq as Eq.
        apply Hx. rewrite Eq. now apply in_map.
Qed.

(** A key built for an id that no record carries is no key of the site. *)
Lemma unresolved_key_not_content (content : site_content) (id : Z) :
  (~ In id (map term_id (categories content)) ->
   ~ content_key content (cat_key id))
  /\ (~ In id (map term_id (tags content)) ->
      ~ content_key content (tag_key id)).
Proof.
  split; intros Hn [[p [_ E]]|[[p [_ E]]|[[t [Ht E]]|[t [Ht E]]]]];
    try discriminate E.
  - apply (key_of_inj Category Category) in E. destruct E as [_ ->].
    apply Hn. now apply in_map.
  - apply (key_of_inj Tag Tag) in E. destruct E as [_ ->].
    apply Hn. now apply in_map.
Qed.

(** C3, where the code departs from it.  Graph construction does not
    complete on every well-formed input: whatever the site, it stops with the
    iterator's error as soon as one post refers to a category or tag that has
    no record (the post ids being distinct, as ids are). *)
Theorem unresolved_reference_raises
        (re_sub : string -> string -> string -> string)
        (re_findall : string -> string -> list string)
        (content : site_content) (url : string) :
  NoDup (map post_id (posts content)) ->
  unresolved_reference content ->
  fst (build_content_graph re_sub re_findall content (init url))
  = Raise size_error.
Proof.
  intros Hnd [post [id [Hpost Hun]]].
  set (add_post := fun g p => add_node g (post_key (post_id p))
                                       (post_attrs re_sub p)).
  set (add_page := fun g p => add_node g (page_key (page_id p))
                                       (page_attrs re_sub p)).
  set (add_cat := fun g t => add_node g (cat_key (term_id t))
                                      (term_attrs "category" t)).
  set (add_tag := fun g t => add_node g (tag_key (term_id t))
                                      (term_attrs "tag" t)).
  set (g1 := fold_left add_post (posts content) empty_graph).
  set (g2 := fold_left add_page (pages content) g1).
  set (node := (post_key (post_id post), post_attrs re_sub post)).
  (* the graph after the two node loops *)
  assert (B1 : built_from content g1).
  { apply fold_left_invariant.
    - intros g p Hp Hg. apply add_node_built_from; trivial; [discriminate|].
      left. now exists p.
    - split; [intros k d []|intros k []]. }
  assert (B2 : built_from content g2).
  { apply fold_left_invariant; [|exact B1].
    intros g p Hp Hg. apply add_node_built_from; trivial; [discriminate|].
    right. left. now exists p. }
  assert (N1 : In node (g_node g1)).
  { unfold g1, add_post. rewrite add_posts_nodes; trivial.
    - cbn [g_node empty_graph app]. unfold node.
      apply (in_map (fun p => (post_key (post_id p), post_attrs re_sub p))).
      exact Hpost.
    - intros p _ []. }
  assert (N2 : In node (g_node g2)).
  { apply fold_left_invariant with (P := fun g => In node (g_node g));
      [|exact N1].
    intros g p _ Hg. apply add_node_other; [discriminate|exact Hg]. }
  (* the internal-link pass *)
  set (s2 := mk_analyzer (site_url (init url)) g2
                         (fitted_vocabulary (init url))).
  destruct (build_internal_link_edges_total re_findall s2)
    as [s3 [E3 [N3 _]]].
  cbn [content_graph s2] in N3.
  set (g3 := fold_left add_cat (categories content) (content_graph s3)).
  set (g4 := fold_left add_tag (tags content) g3).
  assert (B3 : built_from content (content_graph s3)).
  { unfold built_from. rewrite N3. exact B2. }
  assert (B4 : built_from content g4).
  { apply fold_left_invariant.
    - intros g t Ht Hg. apply add_node_built_from; trivial; [discriminate|].
      right. right. right. now exists t.
    - apply fold_left_invariant; [|exact B3].
      intros g t Ht Hg. apply add_node_built_from; trivial; [discriminate|].
      right. right. left. now exists t. }
  assert (N4 : In node (g_node g4)).
  { apply fold_left_invariant with (P := fun g => In node (g_node g)).
    - intros g t _ Hg. apply add_node_other; [discriminate|exact Hg].
    - apply fold_left_invariant with (P := fun g => In node (g_node g)).
      + intros g t _ Hg. apply add_node_other; [discriminate|exact Hg].
      + now rewrite N3. }
  (* the run *)
  unfold build_content_graph.
  rewrite (@bind_ok _ _ _ _ _ _ _ (for_each_modify _ _ _)).
  rewrite (@bind_ok _ _ _ _ _ _ _ (for_each_modify _ _ _)).
  cbn [content_graph site_url fitted_vocabulary].
  change (content_graph (init url)) with empty_graph.
  fold add_post add_page g1 g2 s2.
  rewrite (@bind_ok _ _ _ _ _ _ _ E3).
  apply bind_raise_fst. unfold build_taxonomy_edges.
  rewrite (@bind_ok _ _ _ _ _ _ _ (for_each_modify _ _ _)).
  rewrite (@bind_ok _ _ _ _ _ _ _ (for_each_modify _ _ _)).
  cbn [content_graph site_url fitted_vocabulary].
  fold add_cat add_tag g3 g4.
  unfold for_nodes, for_nodes_acc. unfold bind at 1. unfold get_graph at 1.
  cbn [content_graph].
  apply connect_posts_raise.
  - exact (proj1 B4).
  - reflexivity.
  - exists (post_key (post_id post)), (post_attrs re_sub post).
    split; [exact N4|]. split; [reflexivity|].
    unfold dangling, node_keys. cbn [content_graph a_categories a_tags
                                     post_attrs get_or].
    destruct Hun as [[Hin Hn]|[Hin Hn]]; [left|right]; exists id;
      (split; [exact Hin|]); intro Hk; apply (proj2 B4) in Hk;
      revert Hk; now apply unresolved_key_not_content.
Qed.

Lemma unresolved_reference_raises_witness :
  fst (build_content_graph (fun _ _ text => text) (fun _ _ => [])
                           untagged_content (init "http://site.example/"))
  = Raise size_error.
Proof.
  apply (@unresolved_reference_raises (fun _ _ text => text)
           (fun _ _ => []) untagged_content "http://site.example/").
  - cbn. constructor; [intros []|constructor].
  - exists (mk_post 1 "Apples" "http://site.example/apples" "apple" "apple"
                    (Some [7%Z]) (Some [9%Z]) "2024-01-01"), 9%Z.
    split; [left; reflexivity|]. right.
    split; [left; reflexivity|intros []].
Defined.

(** ** Graph construction and analysis on a site whose references resolve *)





Lemma add_node_keeps_keys (g : DiGraph) (k : node_key) (a : attrs)
      (k' : node_key) :
  In k' (map fst (g_node g)) -> In k' (map fst (g_node (add_node g k a))).
Proof.
  intro H. unfold add_node. destruct (has_node g k); cbn [g_node].
  - now rewrite update_node_keys.
  - rewrite map_app. apply in_or_app. now left.
Qed.

Lemma add_node_has_key (g : DiGraph) (k : node_key) (a : attrs) :
  In k (map fst (g_node (add_node g k a))).
Proof.
  unfold add_node. destruct (has_node g k) eqn:E; cbn [g_node].
  - rewrite update_node_keys. now apply has_node_In.
  - rewrite map_app. apply in_or_app. right. now left.
Qed.

(** After a loop of [add_node], the key of every record of the loop is a
    node. *)
Lemma add_nodes_have_keys {A} (key : A -> node_key) (attr : A -> attrs)
      (l : list A) :
  forall g x,
    In x l ->
    In (key x)
       (map fst (g_node (fold_left (fun g x => add_node g (key x) (attr x))
                                   l g))).
Proof.
  induction l as [|y l IH]; intros g x Hx; [destruct Hx|].
  cbn [fold_left]. destruct Hx as [->|Hx]; [|now apply IH].
  apply fold_left_invariant
    with (P := fun g => In (key x) (map fst (g_node g))).
  - intros g' z _ Hg'. now apply add_node_keeps_keys.
  - apply add_node_has_key.
Qed.






(** * Further properties of the code *)

(** ** Clusters *)

(** X1. Every cluster the clusterer returns has at least two members, and
    its center and all its members are eligible documents of the graph
    (posts or pages with non-empty content). *)
Theorem clusters_have_two_eligible_members
      (fit_transform : list string -> option (list string * list (list float)))
      (cosine_similarity : list (list float) -> list (list float))
      (argsort : list float -> list nat)
      (self self' : analyzer) (cs : list cluster) :
  identify_semantic_clusters fit_transform cosine_similarity argsort self
  = (Ok cs, self') ->
  forall c,
    In c cs ->
    (1 < List.length (members c))%nat
    /\ exists docs self1,
        eligible_documents self = (Ok docs, self1)
        /\ In (center c) (map fst docs)
        /\ forall m, In m (members c) -> In (m_id m) (map fst docs).
Proof.
  intros H c Hc. apply identify_semantic_clusters_inv in H.
  destruct H as [->|[docs [self1 [features [tfidf [Hd [Hf Hg]]]]]]];
    [destruct Hc|].
  apply greedy_clusters_invariant in Hg.
  destruct Hg as [visited [Hm [_ Hl]]]. cbn [snd] in Hm, Hl.
  pose proof (Hl c Hc) as Hlen. split; [exact Hlen|].
  exists docs, self1. split; [exact Hd|].
  assert (Hmem : forall m, In m (members c) ->
                 In (center c) (map fst docs) /\ In (m_id m) (map fst docs)).
  { intros m Hin. destruct (Hm c m Hc Hin) as [_ [_ [i [j [Hi [Hj _]]]]]].
    split; eapply nth_error_In; eassumption. }
  split.
  - destruct (members c) as [|m ms] eqn:E; [cbn in Hlen; lia|].
    apply (Hmem m). now left.
  - intros m Hin. now apply Hmem.
Qed.

Lemma clusters_have_two_eligible_members_witness :
  exists cs,
    fst (identify_semantic_clusters Sample.fit_transform
           Sample.cosine_similarity Sample.argsort Sample.star_site) = Ok cs
    /\ forall c, In c cs -> (1 < List.length (members c))%nat.
Proof.
  eexists. split; [vm_compute; reflexivity|].
  intros c Hc.
  eapply (clusters_have_two_eligible_members
            Sample.fit_transform Sample.cosine_similarity Sample.argsort
            Sample.star_site); [vm_compute; reflexivity|exact Hc].
Defined.

Lemma last_n_length {A} (n : nat) (l : list A) :
  (List.length (PyList.last_n n l) <= n)%nat.
Proof. unfold PyList.last_n. rewrite length_skipn. lia. Qed.

Lemma theme_fold (feature_names : list string) (doc_tfidf : list float)
      (l : list nat) :
  forall bound acc r,
    theme_invariant feature_names doc_tfidf bound acc ->
    ofold l (fun i acc =>
      w <-? nth_error doc_tfidf i ;;
      if PyFloat.gt w 0%float
      then name <-? nth_error feature_names i ;; Some (acc ++ [name])%list
      else Some acc) acc = Some r ->
    theme_invariant feature_names doc_tfidf (bound + List.length l) r.
Proof.
  induction l as [|i l IH]; intros bound acc r [Hlen Hnames] H;
    cbn [ofold] in H.
  - injection H as <-. split; [cbn; lia|exact Hnames].
  - cbn [List.length]. replace (bound + S (List.length l))%nat
      with (S bound + List.length l)%nat by lia.
    unfold obind at 1 in H.
    destruct (nth_error doc_tfidf i) as [w|] eqn:Ew.
    + cbn [obind] in H. destruct (PyFloat.gt w 0%float) eqn:Eg.
      * destruct (nth_error feature_names i) as [name|] eqn:En.
        -- cbn [obind] in H.
           apply (IH (S bound) (acc ++ [name])%list r); [|exact H].
           split.
           ++ rewrite length_app. cbn. lia.
           ++ intros x Hx. apply in_app_or in Hx.
              destruct Hx as [Hx|[<-|[]]]; [now apply Hnames|].
              now exists i, w.
        -- cbn [obind] in H. discriminate H.
      * apply (IH (S bound) acc r); [|exact H].
        split; [lia|exact Hnames].
    + cbn [obind] in H. discriminate H.
Qed.

(** X2. The theme of a document holds at most five keywords, each a
    feature name whose weight in the document's row is positive; and no
    theme is extracted (an exception is raised) while the vectorizer is not
    fitted or for a document that has no row. *)
Theorem theme_at_most_five_positive_terms
      (argsort : list float -> list nat) (vocabulary : option (list string))
      (doc_index : nat) (tfidf_matrix : list (list float)) :
  (forall th,
      extract_cluster_theme argsort vocabulary doc_index tfidf_matrix
      = Some th ->
      (List.length th <= 5)%nat
      /\ exists feature_names doc_tfidf,
          vocabulary = Some feature_names
          /\ nth_error tfidf_matrix doc_index = Some doc_tfidf
          /\ forall name, In name th ->
               exists i w, nth_error feature_names i = Some name
                           /\ nth_error doc_tfidf i = Some w
                           /\ PyFloat.gt w 0%float = true)
  /\ (vocabulary = None \/ nth_error tfidf_matrix doc_index = None ->
      extract_cluster_theme argsort vocabulary doc_index tfidf_matrix = None).
Proof.
  split.
  - intros th H. unfold extract_cluster_theme in H.
    destruct vocabulary as [feature_names|]; [|discriminate H].
    cbn [obind] in H.
    destruct (nth_error tfidf_matrix doc_index) as [doc_tfidf|] eqn:Er;
      [|discriminate H].
    cbn [obind] in H.
    apply theme_fold with (bound := 0%nat) in H.
    + destruct H as [Hlen Hnames]. split.
      * rewrite length_rev in Hlen.
        pose proof (last_n_length 5 (argsort doc_tfidf)). cbn in Hlen. lia.
      * exists feature_names, doc_tfidf. now repeat split.
    + split; [cbn; lia|intros name []].
  - unfold extract_cluster_theme, obind. intros [->|E]; [reflexivity|].
    destruct vocabulary; [now rewrite E|reflexivity].
Qed.

Lemma theme_at_most_five_positive_terms_witness :
  extract_cluster_theme Sample.argsort None 0 [[1.0%float]] = None.
Proof.
  apply (proj2 (theme_at_most_five_positive_terms
                  Sample.argsort None 0 [[1.0%float]])).
  left. reflexivity.
Defined.

Lemma eligible_documents_untyped (items : list (node_key * attrs)) (n : nat)
      (s : analyzer) :
  List.length (g_node (content_graph s)) = n ->
  (exists k d, In (k, d) items /\ a_type d = None) ->
  forall docs,
    iterate_nodes items n
      (fun node_id data docs =>
         ty <- subscript "type" (a_type data) ;;
         if is_post_or_page ty
            && negb (PyStr.is_empty (get_or (a_content data) ""))
         then content <- subscript "content" (a_content data) ;;
              ret (docs ++ [(node_id, content)])%list
         else ret docs) docs s
    = (Raise (KeyError "type"), s).
Proof.
  intro Hn. induction items as [|[k0 d0] items IH];
    intros [k [d [Hin Ht]]] docs; [destruct Hin|].
  cbn [iterate_nodes]. unfold bind at 1. rewrite (@check_size_ok _ _ Hn).
  unfold bind at 1. unfold bind at 1. unfold subscript at 1.
  destruct (a_type d0) as [ty|] eqn:E0; [|reflexivity].
  unfold ret at 1.
  assert (Htail : exists k d, In (k, d) items /\ a_type d = None).
  { destruct Hin as [Eq|Hin]; [|now exists k, d].
    injection Eq as -> ->. congruence. }
  destruct (a_content d0) as [c|]; cbn [get_or PyStr.is_empty negb].
  - destruct (is_post_or_page ty && negb (PyStr.is_empty c));
      cbn [subscript]; unfold bind, ret; now apply IH.
  - rewrite andb_false_r. unfold ret. now apply IH.
Qed.

(** X3. The clusterer turns a failure of the vectorizer into an empty
    result and leaves the analyzer as it was; it does the same, without
    calling the vectorizer, when no document is eligible.  A node without
    a ['type'] is not covered by its [try]: it raises [KeyError]. *)
Theorem clusterer_failure_modes
      (fit_transform : list string -> option (list string * list (list float)))
      (cosine_similarity : list (list float) -> list (list float))
      (argsort : list float -> list nat) (self : analyzer) :
  (forall docs,
      eligible_documents self = (Ok docs, self) ->
      docs = [] \/ fit_transform (map snd docs) = None ->
      identify_semantic_clusters fit_transform cosine_similarity argsort self
      = (Ok [], self))
  /\ ((exists k d, In (k, d) (g_node (content_graph self))
                   /\ a_type d = None) ->
      identify_semantic_clusters fit_transform cosine_similarity argsort self
      = (Raise (KeyError "type"), self)).
Proof.
  split.
  - intros docs Ed Hcase. unfold identify_semantic_clusters.
    unfold bind at 1. rewrite Ed.
    destruct (map snd docs) as [|t ts] eqn:Et; [reflexivity|].
    destruct Hcase as [->|Hf]; [discriminate Et|].
    now rewrite Hf.
  - intro Hu. unfold identify_semantic_clusters. unfold bind at 1.
    unfold eligible_documents, for_nodes_acc. unfold bind at 1.
    unfold get_graph at 1.
    now rewrite eligible_documents_untyped.
Qed.

Lemma clusterer_failure_modes_witness :
  identify_semantic_clusters failing_fit_transform Sample.cosine_similarity
                             Sample.argsort Sample.chain_site
  = (Ok [], Sample.chain_site).
Proof.
  apply (proj1 (clusterer_failure_modes failing_fit_transform
                  Sample.cosine_similarity Sample.argsort Sample.chain_site)
               [(IntKey 1, "apple"); (IntKey 2, "apple banana");
                (IntKey 3, "banana")]).
  - reflexivity.
  - right. reflexivity.
Defined.

(** ** The analysis is read-only *)

Lemma preserves_eligible_documents (Q : analyzer -> Prop) :
  preserves Q eligible_documents.
Proof.
  intros s Hq. now rewrite (proj1 (eligible_documents_pure s)).
Qed.

Lemma preserves_score_nodes (Q : analyzer -> Prop) : preserves Q score_nodes.
Proof.
  unfold score_nodes. apply preserves_for_nodes_acc. intros k d acc.
  apply preserves_bind.
  - destruct (a_type d); intros ? ?; assumption.
  - intro ty. destruct (is_post_or_page ty); [|apply preserves_ret].
    apply preserves_bind; [destruct (a_title d); intros ? ?; assumption|].
    intro title.
    apply preserves_bind; [destruct (a_url d); intros ? ?; assumption|].
    intro url. apply preserves_bind; [intros ? ?; assumption|].
    intro g. apply preserves_ret.
Qed.

(** X4. The connectivity analysis and the clusterer it calls leave the
    graph and the site url exactly as they found them, whether they return or
    raise: the only state they write is the fitted vectorizer. *)
Theorem analysis_leaves_graph_untouched
      (fit_transform : list string -> option (list string * list (list float)))
      (cosine_similarity : list (list float) -> list (list float))
      (argsort : list float -> list nat) (self : analyzer) :
  let clustered :=
    snd (identify_semantic_clusters fit_transform cosine_similarity
                                    argsort self) in
  let analyzed :=
    snd (analyze_content_depth fit_transform cosine_similarity
                               argsort self) in
  (content_graph clustered = content_graph self
   /\ site_url clustered = site_url self)
  /\ (content_graph analyzed = content_graph self
      /\ site_url analyzed = site_url self).
Proof.
  set (Q := graph_and_url_are (content_graph self) (site_url self)).
  assert (Hc : preserves Q (identify_semantic_clusters
                              fit_transform cosine_similarity argsort)).
  { unfold identify_semantic_clusters. apply preserves_bind.
    - apply preserves_eligible_documents.
    - intro docs. destruct (map snd docs) as [|t ts];
        [apply preserves_ret|].
      intros s Hs.
      destruct (fit_transform (t :: ts)) as [[features tfidf]|];
        [|exact Hs].
      cbn [fitted_vocabulary].
      destruct (greedy_clusters argsort (Some features) (map fst docs) tfidf
                                (cosine_similarity tfidf)); exact Hs. }
  assert (Ha : preserves Q (analyze_content_depth
                              fit_transform cosine_similarity argsort)).
  { unfold analyze_content_depth. apply preserves_bind.
    - apply preserves_score_nodes.
    - intro scores. apply preserves_bind; [exact Hc|].
      intro cs. apply preserves_ret. }
  split; [apply Hc|apply Ha]; now split.
Qed.

(** ** Hub candidates and orphans *)

Lemma filter_exclusive_length {A} (p q : A -> bool) (l : list A) :
  (forall x, p x = true -> q x = false) ->
  (List.length (filter p l) + List.length (filter q l) <= List.length l)%nat.
Proof.
  intro H. induction l as [|x l IH]; cbn; [lia|].
  destruct (p x) eqn:Ep.
  - rewrite (H x Ep). cbn. lia.
  - destruct (q x); cbn; lia.
Qed.

Lemma hub_not_orphan (sd : score_data) :
  is_hub sd = true -> is_orphan sd = false.
Proof.
  unfold is_hub, is_orphan. intro H. apply andb_true_iff in H.
  destruct H as [H _]. apply Nat.ltb_lt in H.
  apply andb_false_iff. right. apply Nat.ltb_ge. lia.
Qed.

(** X5. No score record is listed both as a hub candidate and as an orphan;
    both lists are drawn, in order, from the score records of the posts and
    pages, so together they never hold more entries than there are scored
    nodes. *)
Theorem hubs_and_orphans_disjoint
      (fit_transform : list string -> option (list string * list (list float)))
      (cosine_similarity : list (list float) -> list (list float))
      (argsort : list float -> list nat)
      (self self' : analyzer) (analysis : depth_analysis) :
  analyze_content_depth fit_transform cosine_similarity argsort self
  = (Ok analysis, self') ->
  (forall sd, In sd (hub_potential analysis) ->
              ~ In sd (orphan_content analysis))
  /\ hub_potential analysis
     = filter is_hub (map snd (content_scores analysis))
  /\ orphan_content analysis
     = filter is_orphan (map snd (content_scores analysis))
  /\ (List.length (hub_potential analysis)
      + List.length (orphan_content analysis)
      <= List.length (content_scores analysis))%nat.
Proof.
  intro H. unfold analyze_content_depth, bind in H.
  destruct (score_nodes self) as [[scores|e] s1]; [|discriminate H].
  destruct (identify_semantic_clusters fit_transform cosine_similarity
                                       argsort s1) as [[cs|e] s2];
    [|discriminate H].
  unfold ret in H. injection H as <- _.
  cbn [content_scores hub_potential orphan_content].
  split; [|split; [reflexivity|split; [reflexivity|]]].
  - intros sd Hh Ho. apply filter_In in Hh, Ho.
    destruct Hh as [_ Hh]. destruct Ho as [_ Ho].
    apply hub_not_orphan in Hh. congruence.
  - rewrite <- (length_map snd scores).
    apply filter_exclusive_length. exact hub_not_orphan.
Qed.

Lemma hubs_and_orphans_disjoint_witness :
  exists analysis,
    fst (analyze_content_depth Sample.fit_transform Sample.cosine_similarity
                               Sample.argsort small_site) = Ok analysis
    /\ (List.length (hub_potential analysis)
        + List.length (orphan_content analysis)
        <= List.length (content_scores analysis))%nat.
Proof.
  eexists. split; [vm_compute; reflexivity|].
  eapply (hubs_and_orphans_disjoint Sample.fit_transform
            Sample.cosine_similarity Sample.argsort small_site).
  vm_compute. reflexivity.
Defined.

(** ** Depth score: the zero case *)

Lemma depth_score_zero_cases (w h2 h3 : nat) (m l s : bool) :
  let off := ((w <=? 500) && (h2 <=? 3) && (h3 <=? 5)
              && negb m && negb l && negb s)%nat%bool in
  (off = true -> depth_score w h2 h3 m l s = 0%float)
  /\ (off = false -> PyFloat.gt (depth_score w h2 h3 m l s) 0%float = true).
Proof.
  unfold depth_score.
  destruct (2000 <? w)%nat eqn:A; destruct (1000 <? w)%nat eqn:B;
    destruct (500 <? w)%nat eqn:C;
    destruct (3 <? h2)%nat eqn:D; destruct (5 <? h3)%nat eqn:E;
    ltb_prop A; ltb_prop B; ltb_prop C; ltb_prop D; ltb_prop E;
    try (exfalso; lia);
    destruct (w <=? 500)%nat eqn:F; destruct (h2 <=? 3)%nat eqn:G;
    destruct (h3 <=? 5)%nat eqn:I;
    try (apply Nat.leb_le in F); try (apply Nat.leb_gt in F);
    try (apply Nat.leb_le in G); try (apply Nat.leb_gt in G);
    try (apply Nat.leb_le in I); try (apply Nat.leb_gt in I);
    try (exfalso; lia);
    destruct m, l, s; cbn [andb negb]; split; intro H;
    try discriminate H; vm_compute; reflexivity.
Qed.

(** X6. The depth score is exactly 0.0 when no contribution applies (at
    most 500 words, at most three level-2 and five level-3 heading markers,
    no media, list or schema marker), in particular for a node without
    content; as soon as one contribution applies, the score is positive. *)
Theorem depth_score_zero_iff_nothing_applies (d : attrs) :
  let content := get_or (a_content d) "" in
  (nothing_applies content -> calculate_content_depth d = 0%float)
  /\ (~ nothing_applies content ->
      PyFloat.gt (calculate_content_depth d) 0%float = true)
  /\ (a_content d = None -> calculate_content_depth d = 0%float).
Proof.
  intro content.
  pose proof (depth_score_zero_cases
                (word_count_of content) (h2_count_of content)
                (h3_count_of content) (has_media content)
                (has_lists content) (has_schema content)) as [Hz Hp].
  assert (Hoff : nothing_applies content
                 <-> ((word_count_of content <=? 500)
                      && (h2_count_of content <=? 3)
                      && (h3_count_of content <=? 5)
                      && negb (has_media content)
                      && negb (has_lists content)
                      && negb (has_schema content))%nat%bool = true).
  { unfold nothing_applies. rewrite !andb_true_iff, !negb_true_iff.
    rewrite !Nat.leb_le. tauto. }
  assert (Hzero : nothing_applies content ->
                  calculate_content_depth d = 0%float).
  { intro Hn. unfold calculate_content_depth. fold content.
    apply Hz. now apply Hoff. }
  split; [exact Hzero|]. split.
  - intro Hn. unfold calculate_content_depth. fold content. apply Hp.
    match goal with
    | |- ?b = false => destruct b eqn:Eb; [|reflexivity]
    end.
    exfalso. apply Hn. now apply Hoff.
  - intro Hc. apply Hzero. apply Hoff. unfold content. rewrite Hc.
    reflexivity.
Qed.

Lemma depth_score_zero_iff_nothing_applies_witness :
  calculate_content_depth news_category = 0%float
  /\ calculate_content_depth short_document = 0%float.
Proof.
  split.
  - apply (proj2 (proj2 (depth_score_zero_iff_nothing_applies
                           news_category))).
    reflexivity.
  - apply (proj1 (depth_score_zero_iff_nothing_applies short_document)).
    unfold nothing_applies.
    repeat split; try reflexivity; apply Nat.leb_le; reflexivity.
Defined.

(** ** Action plan *)

Lemma plan_fold (recs : list recommendation) :
  forall plan,
    fold_left plan_step recs plan
    = mk_action_plan
        (immediate plan ++ map plan_item (filter is_high recs))
        (short_term plan ++ map plan_item (filter is_medium recs))
        (long_term plan ++ map plan_item (filter is_other recs)).
Proof.
  induction recs as [|r recs IH]; intro plan; cbn [fold_left filter map].
  - rewrite !app_nil_r. now destruct plan.
  - rewrite IH. unfold plan_step, is_high, is_medium, is_other.
    destruct (String.eqb (r_priority r) "high");
      [|destruct (String.eqb (r_priority r) "medium")];
      cbn [negb andb immediate short_term long_term map];
      rewrite <- ?app_assoc; reflexivity.
Qed.

(** X7. The action plan is an order-preserving partition of the
    recommendations: [immediate] holds those of priority high,
    [short_term] those of priority medium, [long_term] all others, each in
    the order of the input; nothing is dropped or repeated. *)
Theorem action_plan_partitions (recs : list recommendation) :
  let plan := create_action_plan recs in
  immediate plan = map plan_item (filter is_high recs)
  /\ short_term plan = map plan_item (filter is_medium recs)
  /\ long_term plan = map plan_item (filter is_other recs)
  /\ (List.length (immediate plan) + List.length (short_term plan)
      + List.length (long_term plan))%nat = List.length recs.
Proof.
  intro plan. unfold plan, create_action_plan. rewrite plan_fold.
  cbn [immediate short_term long_term app].
  repeat split. rewrite !length_map.
  induction recs as [|r recs IH]; cbn [filter List.length]; [reflexivity|].
  unfold is_high, is_medium, is_other in *.
  destruct (String.eqb (r_priority r) "high");
    [|destruct (String.eqb (r_priority r) "medium")];
    cbn [negb andb List.length]; lia.
Qed.

Lemma filter_map_all {A B} (p : B -> bool) (f : A -> B) (l : list A) :
  (forall x, p (f x) = true) -> filter p (map f l) = map f l.
Proof.
  intro H. induction l as [|x l IH]; cbn; [reflexivity|].
  now rewrite H, IH.
Qed.

Lemma filter_map_none {A B} (p : B -> bool) (f : A -> B) (l : list A) :
  (forall x, p (f x) = false) -> filter p (map f l) = [].
Proof.
  intro H. induction l as [|x l IH]; cbn; [reflexivity|].
  now rewrite H, IH.
Qed.

(** X8. The synthesizer raises exactly when the query patterns hold a
    ['gaps'] entry that cannot be iterated, and then with a [TypeError].
    Otherwise the plan made from its recommendations has one immediate
    action per content gap and per hub candidate among the first three, and
    one short-term action per orphan among the first five and per cluster
    among the first three; so without gaps a report holds at most 11
    recommendations. *)
Theorem recommendation_counts
        (G : Type) (str_of_gap : G -> string)
        (patterns : query_patterns G) (analysis : depth_analysis) :
  (qp_gaps patterns = Some NotIterable
   <-> exists e, generate_recommendations str_of_gap patterns analysis
                 = Raise e)
  /\ (forall e, generate_recommendations str_of_gap patterns analysis
                = Raise e -> exists msg, e = TypeError msg)
  /\ forall recs,
      generate_recommendations str_of_gap patterns analysis = Ok recs ->
      let plan := create_action_plan recs in
      List.length (immediate plan)
      = (gaps_count patterns
         + Nat.min 3 (List.length (hub_potential analysis)))%nat
      /\ List.length (short_term plan)
         = (Nat.min 5 (List.length (orphan_content analysis))
            + Nat.min 3 (List.length (semantic_clusters analysis)))%nat
      /\ (List.length recs <= gaps_count patterns + 11)%nat.
Proof.
  unfold generate_recommendations, gaps_count. cbv zeta.
  assert (Ho : List.length (PyList.take 5 (orphan_content analysis))
               = Nat.min 5 (List.length (orphan_content analysis)))
    by apply length_firstn.
  assert (Hh : List.length (PyList.take 3 (hub_potential analysis))
               = Nat.min 3 (List.length (hub_potential analysis)))
    by apply length_firstn.
  assert (Hc : List.length (PyList.take 3 (semantic_clusters analysis))
               = Nat.min 3 (List.length (semantic_clusters analysis)))
    by apply length_firstn.
  set (o5 := PyList.take 5 (orphan_content analysis)) in *.
  set (h3 := PyList.take 3 (hub_potential analysis)) in *.
  set (c3 := PyList.take 3 (semantic_clusters analysis)) in *.
  clearbody o5 h3 c3.
  destruct (qp_gaps patterns) as [[gaps|]|].
  - split; [|split].
    + split; [discriminate|intros [e E]; discriminate E].
    + intros e E. discriminate E.
    + intros recs E. injection E as <-. cbv zeta.
      rewrite (proj1 (action_plan_partitions _)),
        (proj1 (proj2 (action_plan_partitions _))).
      rewrite !length_map.
      rewrite !filter_app.
      rewrite (filter_map_all is_high), (filter_map_none is_high),
        (filter_map_all is_high), (filter_map_none is_high) by reflexivity.
      rewrite (filter_map_none is_medium), (filter_map_all is_medium),
        (filter_map_none is_medium), (filter_map_all is_medium)
        by reflexivity.
      cbn [app filter]. rewrite !length_app, !length_map.
      cbn [List.length]. lia.
  - split; [|split].
    + split; [intros _; eexists; reflexivity|reflexivity].
    + intros e E. injection E as <-. eexists. reflexivity.
    + intros recs E. discriminate E.
  - split; [|split].
    + split; [discriminate|intros [e E]; discriminate E].
    + intros e E. discriminate E.
    + intros recs E. injection E as <-. cbv zeta.
      rewrite (proj1 (action_plan_partitions _)),
        (proj1 (proj2 (action_plan_partitions _))).
      rewrite !length_map.
      rewrite !filter_app.
      rewrite (filter_map_none is_high),
        (filter_map_all is_high), (filter_map_none is_high) by reflexivity.
      rewrite (filter_map_all is_medium),
        (filter_map_none is_medium), (filter_map_all is_medium)
        by reflexivity.
      cbn [app filter]. rewrite !length_app, !length_map.
      cbn [List.length]. lia.
Qed.

Lemma recommendation_counts_witness :
  exists msg,
    generate_recommendations (fun s : string => s) broken_patterns
                             sample_analysis = Raise (TypeError msg).
Proof.
  destruct (proj1 (recommendation_counts (fun s : string => s)
                     broken_patterns sample_analysis)) as [H _].
  destruct (H eq_refl) as [e E].
  destruct (proj1 (proj2 (recommendation_counts (fun s : string => s)
                            broken_patterns sample_analysis)) e E)
    as [msg ->].
  now exists msg.
Defined.

(** ** Invariants of the graph under construction *)

(** A property of the graph that [add_node] and [add_edge] keep is kept by
    graph construction, however it ends. *)
Lemma build_content_graph_preserves (P : DiGraph -> Prop)
      (re_sub : string -> string -> string -> string)
      (re_findall : string -> string -> list string)
      (content : site_content) :
  (forall g k a, P g -> P (add_node g k a)) ->
  (forall g u v ty, P g -> P (add_edge g u v ty)) ->
  preserves (fun s => P (content_graph s))
            (build_content_graph re_sub re_findall content).
Proof.
  intros Hnode Hedge.
  assert (Hmod : forall f : DiGraph -> DiGraph,
             (forall g, P g -> P (f g)) ->
             preserves (fun s => P (content_graph s)) (modify_graph f)).
  { intros f Hf s Hs. cbn. now apply Hf. }
  unfold build_content_graph, build_internal_link_edges,
    build_taxonomy_edges, connect_post, for_each, for_nodes.
  repeat first
    [ apply preserves_for_nodes_acc; intros
    | apply preserves_iterate_nodes; intros
    | apply preserves_for_each_acc; intros
    | apply preserves_bind; [|intro]
    | apply Hmod; intros; first [now apply Hnode|now apply Hedge]
    | apply preserves_ret
    | match goal with
      | |- preserves _ (subscript _ ?o) =>
          destruct o; intros ? ?; assumption
      | |- preserves _ get_graph => intros ? ?; assumption
      | |- preserves _ (match ?o with Some _ => _ | None => _ end) =>
          destruct o
      | |- preserves _ (if ?b then _ else _) => destruct b
      | |- preserves _ (fun self => _) =>
          let st := fresh "st" in
          let Hst := fresh "Hst" in
          intros st Hst;
          match goal with
          | |- P (content_graph (snd (for_each_acc ?l ?b ?a st))) =>
              apply (@preserves_for_each_acc _ _
                       (fun s => P (content_graph s)) b l);
              [|exact Hst]
          end; intros
      end ].
Qed.

Lemma set_edge_inv (u v : node_key) (ty : string)
      (l : list (node_key * node_key * string))
      (e : node_key * node_key * string) :
  In e (set_edge u v ty l) -> e = (u, v, ty) \/ In e l.
Proof.
  induction l as [|x l IH]; cbn.
  - intros [<-|[]]. now left.
  - destruct (edge_eqb u v x).
    + intros [<-|H]; [now left|right; now right].
    + intros [<-|H]; [right; now left|].
      destruct (IH H) as [->|H']; [now left|right; now right].
Qed.

Lemma edge_eqb_pair (u v : node_key) (e : node_key * node_key * string) :
  edge_eqb u v e = true <-> fst e = (u, v).
Proof.
  destruct e as [[a b] ty]. unfold edge_eqb. cbn [fst snd].
  rewrite andb_true_iff, !node_key_eqb_eq. split.
  - intros [-> ->]. reflexivity.
  - intro E. injection E as -> ->. now split.
Qed.

Lemma set_edge_pairs (u v : node_key) (ty : string)
      (l : list (node_key * node_key * string)) :
  NoDup (map fst l) -> NoDup (map fst (set_edge u v ty l)).
Proof.
  intro H.
  assert (Hin : forall p, In p (map fst (set_edge u v ty l)) ->
                          p = (u, v) \/ In p (map fst l)).
  { intros p Hp. apply in_map_iff in Hp. destruct Hp as [e [<- He]].
    apply set_edge_inv in He. destruct He as [->|He]; [now left|].
    right. now apply in_map. }
  induction l as [|x l IH]; cbn.
  - constructor; [intros []|constructor].
  - inversion H as [|p ps Hx Hl]; subst.
    destruct (edge_eqb u v x) eqn:E; cbn.
    + apply edge_eqb_pair in E. rewrite <- E. now constructor.
    + constructor.
      * intro Hc. apply in_map_iff in Hc. destruct Hc as [e [Ee He]].
        apply set_edge_inv in He. destruct He as [->|He].
        -- cbn in Ee. symmetry in Ee. apply edge_eqb_pair in Ee.
           congruence.
        -- apply Hx. rewrite <- Ee. now apply in_map.
      * apply IH; [exact Hl|].
        intros p Hp. apply in_map_iff in Hp. destruct Hp as [e [<- He]].
        apply set_edge_inv in He. destruct He as [->|He]; [now left|].
        right. now apply in_map.
Qed.

Lemma add_node_sound (g : DiGraph) (k : node_key) (a : attrs) :
  graph_sound g -> graph_sound (add_node g k a).
Proof.
  intros [Hc Hp]. split.
  - intros u v ty He.
    assert (He' : In (u, v, ty) (g_edges g)).
    { unfold add_node in He. now destruct (has_node g k). }
    destruct (Hc u v ty He') as [Hu Hv].
    split; now apply add_node_keeps_keys.
  - unfold add_node. now destruct (has_node g k).
Qed.

Lemma add_edge_sound (g : DiGraph) (u v : node_key) (ty : string) :
  graph_sound g -> graph_sound (add_edge g u v ty).
Proof.
  intro Hg. unfold add_edge.
  set (g1 := if has_node g u then g else add_node g u empty_attrs).
  set (g2 := if has_node g1 v then g1 else add_node g1 v empty_attrs).
  assert (H1 : graph_sound g1)
    by (unfold g1; destruct (has_node g u); [exact Hg|now apply add_node_sound]).
  assert (H2 : graph_sound g2)
    by (unfold g2; destruct (has_node g1 v);
        [exact H1|now apply add_node_sound]).
  assert (Ku1 : In u (map fst (g_node g1))).
  { unfold g1. destruct (has_node g u) eqn:E;
      [now apply has_node_In|apply add_node_has_key]. }
  assert (Ku : In u (map fst (g_node g2))).
  { unfold g2. destruct (has_node g1 v);
      [exact Ku1|now apply add_node_keeps_keys]. }
  assert (Kv : In v (map fst (g_node g2))).
  { unfold g2. destruct (has_node g1 v) eqn:E;
      [now apply has_node_In|apply add_node_has_key]. }
  destruct H2 as [Hc Hp]. split; cbn [g_node g_edges].
  - intros a b t He. apply set_edge_inv in He.
    destruct He as [E|He]; [injection E as -> -> ->; now split|].
    now apply (Hc a b t).
  - now apply set_edge_pairs.
Qed.

(** X9. Whatever the site, and whether construction completes or raises,
    the graph it leaves is sound: every edge joins two nodes of the graph,
    and no ordered pair of nodes carries more than one edge. *)
Theorem built_graph_sound
        (re_sub : string -> string -> string -> string)
        (re_findall : string -> string -> list string)
        (content : site_content) (url : string) :
  graph_sound
    (content_graph
       (snd (build_content_graph re_sub re_findall content (init url)))).
Proof.
  apply (@build_content_graph_preserves graph_sound re_sub re_findall content).
  - intros g k a. apply add_node_sound.
  - intros g u v ty. apply add_edge_sound.
  - split; [intros u v ty []|constructor].
Qed.

(** ** Internal links *)

Lemma find_target_nodes (g g' : DiGraph) (link : string) :
  g_node g' = g_node g -> find_target g' link = find_target g link.
Proof. intro E. unfold find_target. now rewrite E. Qed.

(** The internal-link pass ends normally and keeps its invariant. *)
Lemma build_internal_link_edges_linking
      (re_findall : string -> string -> list string) (s : analyzer) :
  exists s',
    build_internal_link_edges re_findall s = (Ok tt, s')
    /\ linking_invariant re_findall s s'.
Proof.
  unfold build_internal_link_edges, for_nodes, for_nodes_acc.
  unfold bind at 1. unfold get_graph at 1.
  set (Q := linking_invariant re_findall s).
  match goal with
  | |- exists s', iterate_nodes _ _ ?b _ _ = _ /\ _ => set (body := b)
  end.
  destruct (@iterate_nodes_total unit Q
              (List.length (g_node (content_graph s))) body
              (g_node (content_graph s)))
    with (acc := tt) (s := s) as [r [s' [E Hq]]].
  - intros t [Hn _]. now rewrite Hn.
  - intros k d [] t Hk Hq. unfold body.
    destruct (a_content d) as [content|] eqn:Ec; [|exists tt, t; now split].
    unfold for_each.
    assert (Hurl : site_url t = site_url s) by apply Hq.
    rewrite Hurl.
    set (links := re_findall (link_pattern (site_url s)) content).
    assert (Hsub : forall link, In link links -> In link links) by auto.
    revert Hsub. generalize links at 1 3. intros ls Hsub.
    revert t Hq Hurl. induction ls as [|link ls IH]; intros t Hq Hurl.
    + exists tt, t. now split.
    + cbn [for_each_acc]. unfold bind at 1. unfold bind at 1.
      unfold get_graph at 1.
      destruct Hq as [Hn [Hu [Hv He]]].
      destruct (find_target (content_graph t) link) as [target|] eqn:Ef.
      * unfold modify_graph at 1.
        apply IH.
        -- intros l Hl. apply Hsub. now right.
        -- split; [|split; [exact Hu|split; [exact Hv|]]];
             cbn [content_graph].
           ++ rewrite add_edge_existing; [exact Hn| |].
              ** apply (In_has_node _ k d). now rewrite Hn.
              ** now apply (find_target_has_node _ link).
           ++ intros e Hin. unfold add_edge in Hin. cbn [g_edges] in Hin.
              rewrite (In_has_node _ k d) in Hin by now rewrite Hn.
              rewrite (find_target_has_node _ link Ef) in Hin.
              apply set_edge_inv in Hin.
              destruct Hin as [->|Hin]; [|now apply He].
              right. split; [reflexivity|].
              exists d, content, link. cbn [fst snd].
              split; [exact Hk|]. split; [exact Ec|].
              split; [apply Hsub; now left|].
              now rewrite <- (find_target_nodes _ _ link Hn).
        -- exact Hu.
      * unfold ret at 1. apply IH.
        -- intros l Hl. apply Hsub. now right.
        -- now repeat split.
        -- exact Hurl.
  - unfold Q, linking_invariant. repeat split. intros e He. now left.
  - destruct r. now exists s'.
Qed.


(** ** Content sample *)

Lemma substring_length_le (n : nat) (s : string) :
  (String.length (substring 0 n s) <= n)%nat.
Proof.
  revert s. induction n as [|n IH]; intro s.
  - destruct s; cbn; lia.
  - destruct s as [|c s]; cbn; [lia|]. specialize (IH s). lia.
Qed.

Lemma sample_step_inv (item : node_key * attrs) (sample r : list sample_entry)
      (s s' : analyzer) :
  sample_step item sample s = (Ok r, s') ->
  s' = s
  /\ (r = sample
      \/ exists e, r = (sample ++ [e])%list
                   /\ is_post_or_page (se_type e) = true
                   /\ (String.length (se_excerpt e) <= 200)%nat).
Proof.
  unfold sample_step, bind, subscript, ret, raise. cbv zeta.
  destruct (a_type (snd item)) as [ty|]; [|discriminate].
  destruct (is_post_or_page ty) eqn:Ep.
  - destruct (a_title (snd item)) as [title|]; [|discriminate].
    destruct (a_url (snd item)) as [url|]; [|discriminate].
    intro H. injection H as <- <-. split; [reflexivity|]. right.
    eexists. split; [reflexivity|]. cbn [se_type se_excerpt].
    split; [exact Ep|apply substring_length_le].
  - intro H. injection H as <- <-. split; [reflexivity|now left].
Qed.

Lemma sample_loop (items : list (node_key * attrs)) :
  forall bound sample s r s',
    sample_invariant bound sample ->
    for_each_acc items sample_step sample s = (Ok r, s') ->
    s' = s /\ sample_invariant (bound + List.length items) r.
Proof.
  induction items as [|item items IH]; intros bound sample s r s' Hinv H;
    cbn [for_each_acc] in H.
  - unfold ret in H. injection H as <- <-. split; [reflexivity|].
    destruct Hinv as [Hl Hf]. split; [cbn; lia|exact Hf].
  - cbn [List.length]. replace (bound + S (List.length items))%nat
      with (S bound + List.length items)%nat by lia.
    unfold bind in H.
    destruct (sample_step item sample s) as [[r1|e] s1] eqn:E1;
      [|discriminate H].
    apply sample_step_inv in E1. destruct E1 as [-> Hr].
    apply (IH (S bound)) in H; [exact H|].
    destruct Hinv as [Hl Hf].
    destruct Hr as [->|[e [-> [He1 He2]]]].
    + split; [lia|exact Hf].
    + split.
      * rewrite length_app. cbn. lia.
      * apply Forall_app. split; [exact Hf|].
        constructor; [now split|constructor].
Qed.

Lemma sample_step_raises (item : node_key * attrs)
      (sample : list sample_entry) (s s' : analyzer) (e : exn) :
  sample_step item sample s = (Raise e, s') -> exists key, e = KeyError key.
Proof.
  unfold sample_step, bind, subscript, ret, raise. cbv zeta.
  destruct (a_type (snd item)) as [ty|];
    [|intro H; injection H as <- _; now eexists].
  destruct (is_post_or_page ty); [|discriminate].
  destruct (a_title (snd item)) as [title|];
    [|intro H; injection H as <- _; now eexists].
  destruct (a_url (snd item)) as [url|];
    [discriminate|intro H; injection H as <- _; now eexists].
Qed.

Lemma sample_loop_untyped (items : list (node_key * attrs)) :
  forall sample s,
    (exists item, In item items /\ a_type (snd item) = None) ->
    exists key s',
      for_each_acc items sample_step sample s = (Raise (KeyError key), s').
Proof.
  induction items as [|item items IH]; intros sample s [bad [Hin Hbad]];
    [destruct Hin|].
  cbn [for_each_acc]. unfold bind.
  destruct (sample_step item sample s) as [[r1|e] s1] eqn:E1.
  - apply IH. destruct Hin as [->|Hin]; [|now exists bad].
    exfalso. unfold sample_step, bind, subscript, raise in E1.
    cbv zeta in E1. rewrite Hbad in E1. discriminate E1.
  - apply sample_step_raises in E1. destruct E1 as [key ->].
    now exists key, s1.
Qed.

(** X11. The content sample holds at most twenty entries, all of them
    posts or pages, each with an excerpt of at most 200 characters, and
    taking it leaves the analyzer as it was.  It raises [KeyError] when one of
    the first twenty nodes has no ['type']; later nodes are never read. *)
Theorem content_sample_bounds (s : analyzer) :
  (forall sample s',
      get_content_sample s = (Ok sample, s') ->
      s' = s
      /\ (List.length sample <= 20)%nat
      /\ Forall (fun e => is_post_or_page (se_type e) = true
                          /\ (String.length (se_excerpt e) <= 200)%nat)
                sample)
  /\ ((exists item,
          In item (PyList.take 20 (g_node (content_graph s)))
          /\ a_type (snd item) = None) ->
      exists key s', get_content_sample s = (Raise (KeyError key), s')).
Proof.
  assert (E : get_content_sample s
              = for_each_acc (PyList.take 20 (g_node (content_graph s)))
                             sample_step [] s) by reflexivity.
  rewrite E. clear E. split.
  - intros sample s' H.
    apply sample_loop with (bound := 0%nat) in H;
      [|split; [cbn; lia|constructor]].
    destruct H as [-> [Hl Hf]]. split; [reflexivity|]. split; [|exact Hf].
    unfold PyList.take in Hl. rewrite length_firstn in Hl. lia.
  - intro Hbad. now apply sample_loop_untyped.
Qed.

Lemma content_sample_bounds_witness :
  exists sample,
    get_content_sample many_categories = (Ok sample, many_categories)
    /\ (List.length sample <= 20)%nat.
Proof.
  eexists. split; [vm_compute; reflexivity|].
  eapply (proj1 (content_sample_bounds many_categories)).
  vm_compute. reflexivity.
Defined.

(** ** Cleaned text *)

Lemma lstrip_no_leading_space (s : string) :
  leading_space (PyStr.lstrip s) = false.
Proof.
  induction s as [|c s IH]; cbn; [reflexivity|].
  destruct (PyStr.isspace c) eqn:E; [exact IH|]. cbn. exact E.
Qed.

Lemma rstrip_no_trailing_space (s : string) :
  trailing_space (PyStr.rstrip s) = false.
Proof.
  induction s as [|c s IH]; cbn [PyStr.rstrip]; [reflexivity|].
  destruct (PyStr.rstrip s) as [|c' s'] eqn:E.
  - destruct (PyStr.isspace c) eqn:Ec; cbn; [reflexivity|exact Ec].
  - rewrite andb_false_r. cbn [trailing_space]. exact IH.
Qed.

Lemma rstrip_keeps_leading (s : string) :
  leading_space s = false -> leading_space (PyStr.rstrip s) = false.
Proof.
  destruct s as [|c s]; cbn [PyStr.rstrip leading_space]; [reflexivity|].
  intro H. rewrite H. cbn. exact H.
Qed.

Lemma rstrip_fixpoint (s : string) :
  trailing_space s = false -> PyStr.rstrip s = s.
Proof.
  induction s as [|c s IH]; cbn [PyStr.rstrip]; [reflexivity|].
  intro H. destruct s as [|c' s'].
  - cbn in H. cbn. now rewrite H.
  - cbn [trailing_space] in H. rewrite (IH H). cbn [PyStr.is_empty].
    now rewrite andb_false_r.
Qed.

Lemma lstrip_fixpoint (s : string) :
  leading_space s = false -> PyStr.lstrip s = s.
Proof.
  destruct s as [|c s]; cbn; [reflexivity|]. now intros ->.
Qed.

(** X12. Cleaned text never starts or ends with whitespace, whatever the
    markup and whatever the regular expression engine returns; cleaning it
    again by [strip] changes nothing. *)
Theorem clean_html_stripped
        (re_sub : string -> string -> string -> string) (html : string) :
  let text := clean_html re_sub html in
  leading_space text = false
  /\ trailing_space text = false
  /\ PyStr.strip text = text.
Proof.
  intro text. unfold text, clean_html, PyStr.strip.
  set (t := re_sub "\s+" " " (re_sub "<.*?>" "" html)).
  assert (H1 : leading_space (PyStr.rstrip (PyStr.lstrip t)) = false)
    by (apply rstrip_keeps_leading, lstrip_no_leading_space).
  assert (H2 : trailing_space (PyStr.rstrip (PyStr.lstrip t)) = false)
    by apply rstrip_no_trailing_space.
  split; [exact H1|]. split; [exact H2|].
  rewrite (lstrip_fixpoint _ H1). now apply rstrip_fixpoint.
Qed.


(** ** Completed construction *)

(** Graph construction is its last loop, run on the graph that the node
    loops, the internal-link pass and the term loops leave. *)
Lemma build_content_graph_phases
      (re_sub : string -> string -> string -> string)
      (re_findall : string -> string -> list string)
      (content : site_content) (url : string) :
  exists s3,
    linking_invariant re_findall
      (mk_analyzer (rstrip_slash url) (content_nodes_graph re_sub content)
                   None) s3
    /\ build_content_graph re_sub re_findall content (init url)
       = (for_nodes connect_post ;;; get_graph)
           (mk_analyzer (site_url s3)
                        (with_terms content (content_graph s3))
                        (fitted_vocabulary s3)).
Proof.
  destruct (build_internal_link_edges_linking re_findall
              (mk_analyzer (rstrip_slash url)
                           (content_nodes_graph re_sub content) None))
    as [s3 [E3 L3]].
  exists s3. split; [exact L3|].
  unfold build_content_graph.
  rewrite (@bind_ok _ _ _ _ _ _ _ (for_each_modify _ _ _)).
  rewrite (@bind_ok _ _ _ _ _ _ _ (for_each_modify _ _ _)).
  cbn [content_graph site_url fitted_vocabulary init].
  fold (content_nodes_graph re_sub content).
  rewrite (@bind_ok _ _ _ _ _ _ _ E3).
  unfold build_taxonomy_edges.
  unfold bind at 1. unfold bind at 1.
  rewrite for_each_modify. unfold bind at 1. rewrite for_each_modify.
  cbn [content_graph site_url fitted_vocabulary].
  reflexivity.
Qed.

Lemma add_node_edges (g : DiGraph) (k : node_key) (a : attrs) :
  g_edges (add_node g k a) = g_edges g.
Proof. unfold add_node. now destruct (has_node g k). Qed.

Lemma add_edge_edges (g : DiGraph) (u v : node_key) (ty : string) :
  g_edges (add_edge g u v ty) = set_edge u v ty (g_edges g).
Proof.
  unfold add_edge. cbn [g_edges].
  destruct (has_node g u);
    [destruct (has_node g v)
    |destruct (has_node (add_node g u empty_attrs) v)];
    now rewrite ?add_node_edges.
Qed.

(** [set_edge] keeps every edge, but for one between the same pair of
    nodes, which it replaces. *)
Lemma set_edge_keeps (u v : node_key) (ty : string)
      (l : list (node_key * node_key * string))
      (e : node_key * node_key * string) :
  In e l -> (fst e = (u, v) -> e = (u, v, ty)) -> In e (set_edge u v ty l).
Proof.
  intros Hin Hsame. induction l as [|x l IH]; [destruct Hin|].
  cbn [set_edge]. destruct (edge_eqb u v x) eqn:E.
  - destruct Hin as [->|Hin]; [|now right].
    apply edge_eqb_pair in E. left. symmetry. now apply Hsame.
  - destruct Hin as [->|Hin]; [now left|right; now apply IH].
Qed.

(** The edges after a loop of [add_edge] from the source [k]. *)
Lemma link_all_edges (k : node_key) (key : Z -> node_key) (ty : string)
      (ids : list Z) (g : DiGraph) :
  let g' := fold_left (fun g id => add_edge g k (key id) ty) ids g in
  (forall id, In id ids -> In (k, key id, ty) (g_edges g'))
  /\ (forall e, In e (g_edges g') ->
                In e (g_edges g) \/ exists id, In id ids /\ e = (k, key id, ty))
  /\ (forall e, In e (g_edges g) ->
                (forall id, In id ids -> fst e = (k, key id) ->
                            e = (k, key id, ty)) ->
                In e (g_edges g')).
Proof.
  revert g. induction ids as [|id ids IH]; intro g; cbn [fold_left].
  - split; [intros id []|]. split; [intros e He; now left|auto].
  - destruct (IH (add_edge g k (key id) ty)) as [Ha [Hb Hc]].
    cbv zeta in Ha, Hb, Hc. split; [|split].
    + intros j [<-|Hj]; [|now apply Ha].
      apply Hc.
      * rewrite add_edge_edges. apply set_edge_In.
      * intros j Hj Ej. cbn [fst] in Ej. injection Ej as Ej.
        now rewrite Ej.
    + intros e He. destruct (Hb e He) as [H|[j [Hj ->]]].
      * rewrite add_edge_edges in H. apply set_edge_inv in H.
        destruct H as [->|H]; [|now left].
        right. exists id. split; [now left|reflexivity].
      * right. exists j. split; [now right|reflexivity].
    + intros e He Hsame. apply Hc.
      * rewrite add_edge_edges. apply set_edge_keeps; [exact He|].
        intro Ee. apply Hsame; [now left|exact Ee].
      * intros j Hj. apply Hsame. now right.
Qed.

Lemma connect_post_result (k : node_key) (d : attrs) (ty : string)
      (t : analyzer) :
  a_type d = Some ty ->
  connect_post k d t
  = (Ok tt,
     if String.eqb ty "post"
     then mk_analyzer (site_url t) (connected k d (content_graph t))
                      (fitted_vocabulary t)
     else t).
Proof.
  intro Et. unfold connect_post. rewrite Et. unfold subscript.
  unfold bind at 1. unfold ret at 1.
  destruct (String.eqb ty "post"); [|reflexivity].
  unfold bind. rewrite for_each_modify. rewrite for_each_modify.
  reflexivity.
Qed.

Lemma cat_key_not_tag_key (i j : Z) : cat_key i <> tag_key j.
Proof. intro E. discriminate E. Qed.

(** The edges after [connect_post] has run for a post. *)
Lemma connected_edges (k : node_key) (d : attrs) (g : DiGraph) :
  (forall e, taxonomy_edge k d e -> In e (g_edges (connected k d g)))
  /\ (forall e, In e (g_edges (connected k d g)) ->
                In e (g_edges g) \/ taxonomy_edge k d e)
  /\ (forall e, In e (g_edges g) ->
                (forall e', taxonomy_edge k d e' -> fst e' = fst e -> e = e') ->
                In e (g_edges (connected k d g))).
Proof.
  unfold connected.
  set (g1 := fold_left (fun g id => add_edge g k (cat_key id)
                                             "categorized_as")
                       (get_or (a_categories d) []) g).
  destruct (link_all_edges k cat_key "categorized_as"
              (get_or (a_categories d) []) g) as [Ca [Cb Cc]].
  destruct (link_all_edges k tag_key "tagged_as"
              (get_or (a_tags d) []) g1) as [Ta [Tb Tc]].
  cbv zeta in Ca, Cb, Cc, Ta, Tb, Tc. fold g1 in Ca, Cb, Cc.
  split; [|split].
  - intros e [[id [Hid ->]]|[id [Hid ->]]].
    + apply Tc; [now apply Ca|].
      intros j _ Ej. cbn [fst] in Ej. exfalso.
      apply (@cat_key_not_tag_key id j). congruence.
    + now apply Ta.
  - intros e He. destruct (Tb e He) as [H|[id [Hid ->]]].
    + destruct (Cb e H) as [H'|[id [Hid ->]]]; [now left|].
      right. left. now exists id.
    + right. right. now exists id.
  - intros e He Hsame. apply Tc.
    + apply Cc; [exact He|].
      intros id Hid Ee. apply (Hsame (k, cat_key id, "categorized_as")).
      * left. now exists id.
      * now rewrite Ee.
    + intros id Hid Ee. apply (Hsame (k, tag_key id, "tagged_as")).
      * right. now exists id.
      * now rewrite Ee.
Qed.

(** Two taxonomy edges, of whatever posts, that join the same pair of nodes
    are the same edge. *)
Lemma taxonomy_edge_pair (k k' : node_key) (d d' : attrs)
      (e e' : node_key * node_key * string) :
  taxonomy_edge k d e -> taxonomy_edge k' d' e' -> fst e' = fst e -> e = e'.
Proof.
  intros [[i [_ ->]]|[i [_ ->]]] [[j [_ ->]]|[j [_ ->]]] E;
    cbn [fst] in E.
  - congruence.
  - exfalso. apply (@cat_key_not_tag_key i j). congruence.
  - exfalso. apply (@cat_key_not_tag_key j i). congruence.
  - congruence.
Qed.

(** The last loop of the taxonomy pass, when it ends normally, keeps its
    invariant. *)
Lemma taxonomy_loop_invariant (g0 : DiGraph) (s4 s' : analyzer) (r : unit) :
  content_graph s4 = g0 ->
  iterate_nodes (g_node g0) (List.length (g_node g0))
                (fun k d (_ : unit) => connect_post k d) tt s4 = (Ok r, s') ->
  taxonomy_invariant g0 [] s'.
Proof.
  intro E4.
  apply iterate_nodes_hoare
    with (I := fun rest (_ : unit) t => taxonomy_invariant g0 rest t).
  - intros k d rest [] t [] t' [Hn [[visited [Eg Hv]] He]] Hb Hlen.
    destruct (a_type d) as [ty|] eqn:Et.
    2:{ unfold connect_post, bind, subscript, raise in Hb.
        rewrite Et in Hb. discriminate Hb. }
    assert (Hin : In (k, d) (g_node g0)).
    { rewrite Eg. apply in_or_app. right. now left. }
    assert (Eg' : g_node g0 = ((visited ++ [(k, d)]) ++ rest)%list)
      by (rewrite Eg, <- app_assoc; reflexivity).
    destruct (connect_post_appends k d t Et) as [t1 [extra [E1 [N1 _]]]].
    rewrite E1 in Hb. injection Hb as <-.
    assert (Hnodes : g_node (content_graph t1) = g_node g0).
    { rewrite N1, Hn. rewrite N1, Hn, length_app in Hlen.
      destruct extra; [now rewrite app_nil_r|cbn in Hlen; lia]. }
    rewrite (connect_post_result k d t Et) in E1.
    destruct (String.eqb ty "post") eqn:Ep.
    + apply String.eqb_eq in Ep. subst ty.
      injection E1 as <-. cbn [content_graph] in *.
      destruct (connected_edges k d (content_graph t)) as [Ca [Cb Cc]].
      split; [exact Hnodes|]. split.
      * exists (visited ++ [(k, d)])%list. split; [exact Eg'|].
        intros k0 d0 e Hin0 Ht0 Hte. apply in_app_or in Hin0.
        destruct Hin0 as [Hin0|[Eq|[]]].
        -- apply Cc; [now apply (Hv k0 d0)|].
           intros e' He' Ee. now apply (taxonomy_edge_pair Hte He').
        -- injection Eq as <- <-. now apply Ca.
      * intros e Hine. destruct (Cb e Hine) as [H|H]; [now apply He|].
        right. now exists k, d.
    + injection E1 as <-.
      split; [exact Hn|]. split; [|exact He].
      exists (visited ++ [(k, d)])%list. split; [exact Eg'|].
      intros k0 d0 e Hin0 Ht0 Hte. apply in_app_or in Hin0.
      destruct Hin0 as [Hin0|[Eq|[]]]; [now apply (Hv k0 d0)|].
      injection Eq as <- <-. rewrite Et in Ht0. injection Ht0 as ->.
      discriminate Ep.
  - split; [now rewrite E4|]. split.
    + exists []. split; [reflexivity|intros k d e []].
    + intros e He. left. now rewrite <- E4.
Qed.

Lemma content_nodes_graph_facts
      (re_sub : string -> string -> string -> string)
      (content : site_content) :
  let g2 := content_nodes_graph re_sub content in
  built_from content g2
  /\ g_edges g2 = []
  /\ (forall p, In p (posts content) ->
                In (post_key (post_id p)) (map fst (g_node g2)))
  /\ (forall p, In p (pages content) ->
                In (page_key (page_id p)) (map fst (g_node g2))).
Proof.
  unfold content_nodes_graph.
  set (add_post := fun g p => add_node g (post_key (post_id p))
                                       (post_attrs re_sub p)).
  set (add_page := fun g p => add_node g (page_key (page_id p))
                                       (page_attrs re_sub p)).
  set (g1 := fold_left add_post (posts content) empty_graph).
  cbv zeta. split; [|split; [|split]].
  - apply fold_left_invariant.
    + intros g p Hp Hg. apply add_node_built_from; trivial; [discriminate|].
      right. left. now exists p.
    + apply fold_left_invariant.
      * intros g p Hp Hg. apply add_node_built_from; trivial;
          [discriminate|]. left. now exists p.
      * split; [intros k d []|intros k []].
  - apply fold_left_invariant with (P := fun g => g_edges g = []).
    + intros g p _ Hg. unfold add_page. now rewrite add_node_edges.
    + apply fold_left_invariant with (P := fun g => g_edges g = []);
        [|reflexivity].
      intros g p _ Hg. unfold add_post. now rewrite add_node_edges.
  - intros p Hp.
    apply fold_left_invariant
      with (P := fun g => In (post_key (post_id p)) (map fst (g_node g))).
    + intros g q _ Hg. now apply add_node_keeps_keys.
    + now apply (add_nodes_have_keys (fun p => post_key (post_id p))
                                     (fun p => post_attrs re_sub p)).
  - intros p Hp.
    now apply (add_nodes_have_keys (fun p => page_key (page_id p))
                                   (fun p => page_attrs re_sub p)).
Qed.

Lemma with_terms_facts (content : site_content) (g : DiGraph) :
  built_from content g ->
  let g4 := with_terms content g in
  built_from content g4
  /\ g_edges g4 = g_edges g
  /\ (forall k, In k (map fst (g_node g)) -> In k (map fst (g_node g4)))
  /\ (forall t, In t (categories content) ->
                In (cat_key (term_id t)) (map fst (g_node g4)))
  /\ (forall t, In t (tags content) ->
                In (tag_key (term_id t)) (map fst (g_node g4))).
Proof.
  intro B. unfold with_terms.
  set (add_cat := fun g t => add_node g (cat_key (term_id t))
                                      (term_attrs "category" t)).
  set (add_tag := fun g t => add_node g (tag_key (term_id t))
                                      (term_attrs "tag" t)).
  set (g3 := fold_left add_cat (categories content) g).
  cbv zeta. split; [|split; [|split; [|split]]].
  - apply fold_left_invariant.
    + intros g' t Ht Hg. apply add_node_built_from; trivial;
        [discriminate|]. right. right. right. now exists t.
    + apply fold_left_invariant; [|exact B].
      intros g' t Ht Hg. apply add_node_built_from; trivial;
        [discriminate|]. right. right. left. now exists t.
  - apply fold_left_invariant with (P := fun g' => g_edges g' = g_edges g).
    + intros g' t _ Hg. unfold add_tag. now rewrite add_node_edges.
    + apply fold_left_invariant
        with (P := fun g' => g_edges g' = g_edges g); [|reflexivity].
      intros g' t _ Hg. unfold add_cat. now rewrite add_node_edges.
  - intros k Hk.
    apply fold_left_invariant
      with (P := fun g' => In k (map fst (g_node g'))).
    + intros g' t _ Hg. now apply add_node_keeps_keys.
    + apply fold_left_invariant
        with (P := fun g' => In k (map fst (g_node g'))); [|exact Hk].
      intros g' t _ Hg. now apply add_node_keeps_keys.
  - intros t Ht.
    apply fold_left_invariant
      with (P := fun g' => In (cat_key (term_id t)) (map fst (g_node g'))).
    + intros g' t' _ Hg. now apply add_node_keeps_keys.
    + now apply (add_nodes_have_keys (fun t => cat_key (term_id t))
                                     (fun t => term_attrs "category" t)).
  - intros t Ht.
    now apply (add_nodes_have_keys (fun t => tag_key (term_id t))
                                   (fun t => term_attrs "tag" t)).
Qed.

(** What a completed construction has gone through. *)
Lemma completed_build
      (re_sub : string -> string -> string -> string)
      (re_findall : string -> string -> list string)
      (content : site_content) (url : string)
      (g : DiGraph) (s' : analyzer) :
  build_content_graph re_sub re_findall content (init url) = (Ok g, s') ->
  exists s3,
    linking_invariant re_findall
      (mk_analyzer (rstrip_slash url) (content_nodes_graph re_sub content)
                   None) s3
    /\ taxonomy_invariant (with_terms content (content_graph s3)) [] s'
    /\ g = content_graph s'.
Proof.
  intro H.
  destruct (build_content_graph_phases re_sub re_findall content url)
    as [s3 [L3 E]].
  rewrite E in H. clear E. exists s3. split; [exact L3|].
  unfold for_nodes, for_nodes_acc in H. unfold bind at 1 2 in H.
  unfold get_graph at 1 in H. cbn [content_graph] in H.
  match type of H with
  | match ?m with _ => _ end = _ => destruct m as [[r|e] s5] eqn:E5
  end; [|discriminate H].
  unfold get_graph in H. injection H as <- <-.
  split; [|reflexivity].
  eapply taxonomy_loop_invariant; [|exact E5]. reflexivity.
Qed.

(** The nodes of a completed construction. *)
Lemma completed_graph_nodes_aux
        (re_sub : string -> string -> string -> string)
        (re_findall : string -> string -> list string)
        (content : site_content) (url : string)
        (g : DiGraph) (s' : analyzer) :
  build_content_graph re_sub re_findall content (init url) = (Ok g, s') ->
  (forall k, In k (map fst (g_node g)) <-> content_key content k)
  /\ all_typed (g_node g)
  /\ NoDup (map fst (g_node g)).
Proof.
  intro H.
  pose proof (@build_content_graph_keys_unique re_sub re_findall content
                (init url)) as Hu.
  rewrite H in Hu. cbn [snd] in Hu.
  destruct (completed_build _ _ _ _ H) as [s3 [[N3 _] [[Hn _] ->]]].
  cbn [content_graph] in N3.
  destruct (content_nodes_graph_facts re_sub content) as [B2 [_ [Kp Kg]]].
  cbv zeta in B2, Kp, Kg.
  assert (B3 : built_from content (content_graph s3)).
  { unfold built_from. rewrite N3. exact B2. }
  destruct (@with_terms_facts content _ B3) as [B4 [_ [K3 [Kc Kt]]]].
  cbv zeta in B4, K3, Kc, Kt.
  split; [|split].
  - intro k. rewrite Hn. split; [apply B4|].
    intros [[p [Hp ->]]|[[p [Hp ->]]|[[t [Ht ->]]|[t [Ht ->]]]]].
    + apply K3. rewrite N3. now apply Kp.
    + apply K3. rewrite N3. now apply Kg.
    + now apply Kc.
    + now apply Kt.
  - rewrite Hn. apply B4.
  - apply Hu. unfold keys_unique. cbn. constructor.
Qed.

(** X14. When graph construction completes, the graph holds exactly one
    node per record of the site: its keys are the keys of the posts, pages,
    categories and tags of the input, no other, each once; and every node
    has a type. *)
Theorem completed_graph_nodes
        (re_sub : string -> string -> string -> string)
        (re_findall : string -> string -> list string)
        (content : site_content) (url : string)
        (g : DiGraph) (s' : analyzer) :
  build_content_graph re_sub re_findall content (init url) = (Ok g, s') ->
  (forall k, In k (map fst (g_node g)) <-> content_key content k)
  /\ all_typed (g_node g)
  /\ NoDup (map fst (g_node g)).
Proof. apply completed_graph_nodes_aux. Qed.

Lemma completed_graph_nodes_witness :
  exists g,
    fst (build_content_graph (fun _ _ text => text) (fun _ _ => [])
           resolved_content (init "http://site.example/")) = Ok g
    /\ NoDup (map fst (g_node g)).
Proof.
  eexists. split; [vm_compute; reflexivity|].
  eapply (@completed_graph_nodes (fun _ _ text => text) (fun _ _ => [])
            resolved_content "http://site.example/").
  vm_compute. reflexivity.
Defined.

(** The edges of a completed construction. *)
Lemma completed_graph_edges_aux
        (re_sub : string -> string -> string -> string)
        (re_findall : string -> string -> list string)
        (content : site_content) (url : string)
        (g : DiGraph) (s' : analyzer) :
  build_content_graph re_sub re_findall content (init url) = (Ok g, s') ->
  (forall k d e,
      In (k, d) (g_node g) -> a_type d = Some "post" ->
      taxonomy_edge k d e -> In e (g_edges g))
  /\ (forall k d id,
         In (k, d) (g_node g) -> a_type d = Some "post" ->
         (In id (get_or (a_categories d) []) ->
          In id (map term_id (categories content)))
         /\ (In id (get_or (a_tags d) []) ->
             In id (map term_id (tags content))))
  /\ (forall e,
         In e (g_edges g) ->
         resolved_link re_findall (rstrip_slash url)
                       (content_nodes_graph re_sub content) e
         \/ exists k d, In (k, d) (g_node g) /\ a_type d = Some "post"
                        /\ taxonomy_edge k d e).
Proof.
  intro H.
  assert (Hs : graph_sound g).
  { pose proof (@build_content_graph_preserves graph_sound re_sub
                  re_findall content add_node_sound add_edge_sound
                  (init url)) as Hp.
    rewrite H in Hp. cbn [snd] in Hp.
    assert (Eg : g = content_graph s').
    { now destruct (completed_build _ _ _ _ H) as [s3 [_ [_ ->]]]. }
    rewrite Eg. apply Hp. split; [intros u v ty []|constructor]. }
  destruct (completed_graph_nodes_aux re_sub re_findall content url H)
    as [Hk _].
  destruct (completed_build _ _ _ _ H)
    as [s3 [[N3 [_ [_ L3]]] [[Hn [[visited [Ev Hv]] He]] ->]]].
  cbn [content_graph site_url] in N3, L3.
  rewrite app_nil_r in Ev.
  destruct (content_nodes_graph_facts re_sub content) as [B2 [E2 _]].
  cbv zeta in B2, E2.
  assert (B3 : built_from content (content_graph s3)).
  { unfold built_from. rewrite N3. exact B2. }
  destruct (@with_terms_facts content _ B3) as [_ [E4 _]]. cbv zeta in E4.
  assert (Hedge : forall k d e,
             In (k, d) (g_node (content_graph s')) ->
             a_type d = Some "post" -> taxonomy_edge k d e ->
             In e (g_edges (content_graph s'))).
  { intros k d e Hin Ht Hte. apply (Hv k d e); trivial.
    rewrite <- Ev, <- Hn. exact Hin. }
  split; [exact Hedge|]. split.
  - intros k d id Hin Ht. split; intro Hid.
    + destruct (in_dec Z.eq_dec id (map term_id (categories content)))
        as [Hy|Hno]; [exact Hy|exfalso].
      apply (proj1 (unresolved_key_not_content content id) Hno).
      apply Hk.
      apply (proj1 Hs (k) (cat_key id) "categorized_as").
      apply (Hedge k d); trivial. left. now exists id.
    + destruct (in_dec Z.eq_dec id (map term_id (tags content)))
        as [Hy|Hno]; [exact Hy|exfalso].
      apply (proj2 (unresolved_key_not_content content id) Hno).
      apply Hk.
      apply (proj1 Hs (k) (tag_key id) "tagged_as").
      apply (Hedge k d); trivial. right. now exists id.
  - intros e Hin. destruct (He e Hin) as [H0|[k [d [Hkd [Ht Hte]]]]].
    + left. rewrite E4 in H0. destruct (L3 e H0) as [Hnil|Hr]; [|exact Hr].
      rewrite E2 in Hnil. destruct Hnil.
    + right. exists k, d. split; [now rewrite Hn|now split].
Qed.

(** X15. When graph construction completes, every post has an edge of type
    [categorized_as] to each category it declares and one of type
    [tagged_as] to each tag it declares, and all these references resolve to
    records of the site; and every edge of the graph is either such a
    taxonomy edge of a post or an internal link resolved by url. *)
Theorem completed_graph_edges
        (re_sub : string -> string -> string -> string)
        (re_findall : string -> string -> list string)
        (content : site_content) (url : string)
        (g : DiGraph) (s' : analyzer) :
  build_content_graph re_sub re_findall content (init url) = (Ok g, s') ->
  (forall k d e,
      In (k, d) (g_node g) -> a_type d = Some "post" ->
      taxonomy_edge k d e -> In e (g_edges g))
  /\ (forall k d id,
         In (k, d) (g_node g) -> a_type d = Some "post" ->
         (In id (get_or (a_categories d) []) ->
          In id (map term_id (categories content)))
         /\ (In id (get_or (a_tags d) []) ->
             In id (map term_id (tags content))))
  /\ (forall e,
         In e (g_edges g) ->
         resolved_link re_findall (rstrip_slash url)
                       (content_nodes_graph re_sub content) e
         \/ exists k d, In (k, d) (g_node g) /\ a_type d = Some "post"
                        /\ taxonomy_edge k d e).
Proof. apply completed_graph_edges_aux. Qed.

Lemma completed_graph_edges_witness :
  exists g,
    fst (build_content_graph (fun _ _ text => text) find_about
           resolved_content (init "http://site.example/")) = Ok g
    /\ (forall k d id,
           In (k, d) (g_node g) -> a_type d = Some "post" ->
           (In id (get_or (a_categories d) []) ->
            In id (map term_id (categories resolved_content)))
           /\ (In id (get_or (a_tags d) []) ->
               In id (map term_id (tags resolved_content)))).
Proof.
  eexists. split; [vm_compute; reflexivity|].
  eapply (@completed_graph_edges (fun _ _ text => text) find_about
            resolved_content "http://site.example/").
  vm_compute. reflexivity.
Defined.

(** ** Cleaned markup *)

Lemma sub_tags_from_no_lt (s : string) :
  tags_closed s = true ->
  forall inside, has_char "<" (sub_tags_from inside s) = false.
Proof.
  induction s as [|c s IH]; intros H inside; [reflexivity|].
  cbn in H. apply andb_true_iff in H. destruct H as [Hc Hs].
  cbn. destruct inside.
  - destruct (Ascii.eqb c ">"); now apply IH.
  - destruct (Ascii.eqb c "<") eqn:E.
    + rewrite Hc. cbn. now apply IH.
    + cbn. rewrite E. cbn. now apply IH.
Qed.

Lemma sub_spaces_from_keeps_absent (c : ascii) (s : string) :
  Ascii.eqb " " c = false ->
  has_char c s = false ->
  forall in_run, has_char c (sub_spaces_from in_run s) = false.
Proof.
  intro Hsp. induction s as [|d s IH]; intros H in_run; [reflexivity|].
  cbn in H. apply orb_false_iff in H. destruct H as [Hd Hs].
  cbn [sub_spaces_from]. destruct (PyStr.isspace d).
  - destruct in_run; cbn [has_char]; [|rewrite Hsp; cbn [orb]]; now apply IH.
  - cbn [has_char]. rewrite Hd. cbn [orb]. now apply IH.
Qed.

Lemma lstrip_keeps_absent (c : ascii) (s : string) :
  has_char c s = false -> has_char c (PyStr.lstrip s) = false.
Proof.
  induction s as [|d s IH]; intro H; [reflexivity|].
  cbn. destruct (PyStr.isspace d); [|exact H].
  cbn in H. apply orb_false_iff in H. now apply IH.
Qed.

Lemma rstrip_keeps_absent (c : ascii) (s : string) :
  has_char c s = false -> has_char c (PyStr.rstrip s) = false.
Proof.
  induction s as [|d s IH]; intro H; [reflexivity|].
  cbn in H. apply orb_false_iff in H. destruct H as [Hd Hs].
  cbn. destruct (PyStr.isspace d && PyStr.is_empty (PyStr.rstrip s));
    [reflexivity|].
  cbn. rewrite Hd. cbn. now apply IH.
Qed.

Lemma absent_no_prefix (c : ascii) (sub s : string) :
  has_char c s = false -> prefix (String c sub) s = false.
Proof.
  destruct s as [|d s]; [reflexivity|]. cbn. intro H.
  apply orb_false_iff in H. destruct H as [Hd _].
  destruct (ascii_dec c d) as [->|Hn]; [|reflexivity].
  now rewrite Ascii.eqb_refl in Hd.
Qed.

Lemma absent_not_contained (c : ascii) (sub s : string) :
  has_char c s = false -> PyStr.contains s (String c sub) = false.
Proof.
  induction s as [|d s IH]; intro H; [reflexivity|].
  cbn [PyStr.contains]. rewrite (@absent_no_prefix _ sub _ H). cbn [orb].
  cbn in H. apply orb_false_iff in H. now apply IH.
Qed.

Lemma absent_not_counted (c : ascii) (sub s : string) :
  has_char c s = false ->
  forall skip, PyStr.count_from (String c sub) s skip = 0.
Proof.
  induction s as [|d s IH]; intros H skip; [reflexivity|].
  cbn [PyStr.count_from]. destruct skip as [|k].
  - rewrite (@absent_no_prefix _ sub _ H).
    cbn in H. apply orb_false_iff in H. now apply IH.
  - cbn in H. apply orb_false_iff in H. now apply IH.
Qed.

Lemma clean_html_no_lt
      (re_sub : string -> string -> string -> string) (html : string) :
  (forall text, re_sub "<.*?>" "" text = sub_tags text) ->
  (forall text, re_sub "\s+" " " text = sub_spaces text) ->
  tags_closed html = true ->
  has_char "<" (clean_html re_sub html) = false.
Proof.
  intros Ht Hs H. unfold clean_html, PyStr.strip. rewrite Ht, Hs.
  apply rstrip_keeps_absent, lstrip_keeps_absent.
  apply sub_spaces_from_keeps_absent; [reflexivity|].
  now apply sub_tags_from_no_lt.
Qed.

(** On cleaned markup whose tags are closed, the tests for tags find
    nothing. *)
Lemma cleaned_content_markup_tests
      (re_sub : string -> string -> string -> string) (html : string) :
  (forall text, re_sub "<.*?>" "" text = sub_tags text) ->
  (forall text, re_sub "\s+" " " text = sub_spaces text) ->
  tags_closed html = true ->
  let content := clean_html re_sub html in
  has_char "<" content = false
  /\ h2_count_of content = PyStr.count content "## "
  /\ h3_count_of content = PyStr.count content "### "
  /\ has_media content = PyStr.contains content "[gallery"
  /\ has_lists content = PyStr.contains content "- ".
Proof.
  intros Ht Hs H content.
  assert (Hc : has_char "<" content = false)
    by now apply clean_html_no_lt.
  unfold h2_count_of, h3_count_of, has_media, has_lists, PyStr.count.
  rewrite !(fun sub => @absent_not_counted _ sub _ Hc),
          !(fun sub => @absent_not_contained _ sub _ Hc).
  repeat split; trivial.
Qed.

(** X16. The markup tests of the depth scorer are dead on stored posts.
    [build_content_graph] stores the text that [clean_html] returns for a
    post; when every ["<"] of the post's markup is closed by a [">"] on its
    line, that text holds no ["<"] at all, so the score of the stored post is
    the score of its word count, its markdown heading markers, the gallery
    shortcode, the dash marker and the schema words: heading, image and list
    tags add nothing. *)
Theorem stored_post_score_ignores_tags
        (re_sub : string -> string -> string -> string) (post : raw_post) :
  (forall text, re_sub "<.*?>" "" text = sub_tags text) ->
  (forall text, re_sub "\s+" " " text = sub_spaces text) ->
  tags_closed (post_content post) = true ->
  let content := clean_html re_sub (post_content post) in
  has_char "<" content = false
  /\ calculate_content_depth (post_attrs re_sub post)
     = depth_score (word_count_of content)
                   (PyStr.count content "## ") (PyStr.count content "### ")
                   (PyStr.contains content "[gallery")
                   (PyStr.contains content "- ")
                   (has_schema content).
Proof.
  intros Ht Hs H content.
  destruct (cleaned_content_markup_tests re_sub _ Ht Hs H)
    as [Hc [H2 [H3 [Hm Hl]]]].
  split; [exact Hc|].
  unfold calculate_content_depth, post_attrs. cbn [a_content get_or].
  subst content. cbv zeta in H2, H3, Hm, Hl. now rewrite H2, H3, Hm, Hl.
Qed.

Lemma stored_post_score_ignores_tags_witness :
  tags_closed (post_content marked_up_post) = true
  /\ calculate_content_depth (post_attrs clean_html_re_sub marked_up_post)
     = 0%float.
Proof.
  split; [reflexivity|].
  rewrite (proj2 (@stored_post_score_ignores_tags clean_html_re_sub
                    marked_up_post (fun _ => eq_refl) (fun _ => eq_refl)
                    eq_refl)).
  reflexivity.
Defined.

Lemma sub_spaces_from_single_spaced (s : string) :
  forall in_run, single_spaced_from in_run (sub_spaces_from in_run s) = true.
Proof.
  induction s as [|c s IH]; intro in_run; [reflexivity|].
  cbn [sub_spaces_from]. destruct (PyStr.isspace c) eqn:E.
  - destruct in_run; [apply IH|].
    change (single_spaced_from true (sub_spaces_from true s) = true).
    apply IH.
  - cbn [single_spaced_from]. rewrite E. apply IH.
Qed.

Lemma lstrip_single_spaced (s : string) :
  forall b b', single_spaced_from b s = true ->
               single_spaced_from b' (PyStr.lstrip s) = true.
Proof.
  induction s as [|c s IH]; intros b b' H; [reflexivity|].
  cbn [PyStr.lstrip]. cbn [single_spaced_from] in H.
  destruct (PyStr.isspace c) eqn:E.
  - apply andb_true_iff in H. destruct H as [_ H]. now apply (IH true).
  - cbn [single_spaced_from]. now rewrite E.
Qed.

Lemma rstrip_single_spaced (s : string) :
  forall b, single_spaced_from b s = true ->
            single_spaced_from b (PyStr.rstrip s) = true.
Proof.
  induction s as [|c s IH]; intros b H; [reflexivity|].
  cbn [PyStr.rstrip]. cbn [single_spaced_from] in H.
  destruct (PyStr.isspace c) eqn:E; cbn [andb].
  - destruct (PyStr.is_empty (PyStr.rstrip s)); [reflexivity|].
    cbn [single_spaced_from]. rewrite E.
    apply andb_true_iff in H. destruct H as [H1 H2].
    rewrite H1. now apply IH.
  - cbn [single_spaced_from]. rewrite E. now apply IH.
Qed.

(** X17. Cleaned text is whitespace-normalised: the only whitespace
    character left in it is the space, and no two spaces are adjacent. *)
Theorem clean_html_single_spaced
        (re_sub : string -> string -> string -> string) (html : string) :
  (forall text, re_sub "\s+" " " text = sub_spaces text) ->
  single_spaced (clean_html re_sub html) = true.
Proof.
  intro Hs. unfold clean_html, PyStr.strip, single_spaced. rewrite Hs.
  apply rstrip_single_spaced, (@lstrip_single_spaced _ false).
  apply sub_spaces_from_single_spaced.
Qed.

Lemma clean_html_single_spaced_witness :
  single_spaced (clean_html clean_html_re_sub "<p>a  b</p>") = true.
Proof.
  apply (@clean_html_single_spaced clean_html_re_sub "<p>a  b</p>").
  reflexivity.
Defined.
(** ** Pagination *)

Lemma fetch_loop_collects (A : Type) (get : nat -> reply A) (count : nat) :
  forall page posts fuel,
    (forall p, page <= p < page + count -> served get p) ->
    ~ served get (page + count) ->
    count < fuel ->
    fetch_loop get fuel page posts = Some (posts ++ batches get page count)%list.
Proof.
  induction count as [|count IH]; intros page posts fuel Hserved Hstop Hfuel.
  - rewrite Nat.add_0_r in Hstop. unfold batches. cbn [seq map List.concat].
    rewrite app_nil_r. destruct fuel as [|fuel]; [lia|].
    cbn [fetch_loop]. destruct (get page) as [|code batch] eqn:E;
      [reflexivity|].
    destruct (Z.eqb code 200) eqn:Ec; [|reflexivity].
    destruct batch as [|x batch]; [reflexivity|].
    exfalso. apply Hstop. exists (x :: batch).
    apply Z.eqb_eq in Ec. subst code. split; [exact E|discriminate].
  - destruct fuel as [|fuel]; [lia|].
    destruct (Hserved page ltac:(lia)) as [batch [E Hne]].
    cbn [fetch_loop]. rewrite E. cbn.
    destruct batch as [|x batch]; [congruence|].
    rewrite (IH (S page) (posts ++ x :: batch)%list fuel).
    + unfold batches. cbn [seq map List.concat]. unfold batch_of at 2.
      rewrite E. now rewrite <- app_assoc.
    + intros p Hp. apply Hserved. lia.
    + replace (S page + count) with (page + S count) by lia. exact Hstop.
    + lia.
Qed.

Lemma fetch_loop_endless (A : Type) (get : nat -> reply A) (fuel : nat) :
  forall page posts,
    (forall p, page <= p -> served get p) ->
    fetch_loop get fuel page posts = None.
Proof.
  induction fuel as [|fuel IH]; intros page posts H; [reflexivity|].
  destruct (H page (le_n _)) as [batch [E Hne]].
  cbn [fetch_loop]. rewrite E. cbn.
  destruct batch as [|x batch]; [congruence|].
  apply IH. intros p Hp. apply H. lia.
Qed.

(** X18. Pagination stops at the first page that is not served, and keeps
    what came before.  If pages [1 .. n] are served (status 200, batch not
    empty) and page [n + 1] is not (an exception, another status or an empty
    batch), then [fetch_posts] and [fetch_pages] return, after [n + 1]
    requests, the batches of pages [1 .. n] in order: the failure is
    swallowed and nothing tells a complete result from a partial one. *)
Theorem fetch_returns_served_prefix
        (A : Type) (get : nat -> reply A) (n fuel : nat) :
  (forall p, 1 <= p <= n -> served get p) ->
  ~ served get (S n) ->
  n < fuel ->
  fetch_posts get fuel = Some (batches get 1 n)
  /\ fetch_pages get fuel = Some (batches get 1 n).
Proof.
  intros Hserved Hstop Hfuel. unfold fetch_posts, fetch_pages.
  rewrite (@fetch_loop_collects A get n 1 [] fuel); [now split| | |exact Hfuel].
  - intros p Hp. apply Hserved. lia.
  - exact Hstop.
Qed.

Lemma fetch_returns_served_prefix_witness :
  fetch_posts (paged_site 3) 4 = Some [1; 2; 3]
  /\ fetch_pages (paged_site 3) 4 = Some [1; 2; 3].
Proof.
  apply (@fetch_returns_served_prefix nat (paged_site 3) 3 4).
  - intros p Hp. exists [p]. unfold paged_site.
    destruct (Nat.leb_spec p 3); [split; [reflexivity|discriminate]|lia].
  - intros [batch [E Hne]]. vm_compute in E. discriminate.
  - lia.
Defined.

(** X19. Against a site that serves every page, the pagination loop makes
    a request after another and never returns: no bound on the number of
    requests is enough. *)
Theorem fetch_never_returns_from_endless_site
        (A : Type) (get : nat -> reply A) :
  (forall p, 1 <= p -> served get p) ->
  forall fuel, fetch_posts get fuel = None /\ fetch_pages get fuel = None.
Proof.
  intros H fuel. unfold fetch_posts, fetch_pages.
  now rewrite (@fetch_loop_endless A get fuel 1 [] H).
Qed.

Lemma fetch_never_returns_from_endless_site_witness :
  fetch_posts endless_site 1000 = None.
Proof.
  apply (@fetch_never_returns_from_endless_site nat endless_site).
  intros p _. exists [p]. split; [reflexivity|discriminate].
Defined.

(** ** The size of the graph *)

Lemma record_keys_length (content : site_content) :
  List.length (record_keys content) = record_count content.
Proof.
  unfold record_keys, record_count.
  rewrite !length_app, !length_map. lia.
Qed.

Lemma record_keys_spec (content : site_content) (k : node_key) :
  In k (record_keys content) <-> content_key content k.
Proof.
  unfold record_keys, content_key. rewrite !in_app_iff, !map_map.
  rewrite !in_map_iff. cbn [key_of].
  split.
  - intros [[p [E H]]|[[p [E H]]|[[t [E H]]|[t [E H]]]]]; subst k.
    + left. now exists p.
    + right; left. now exists p.
    + right; right; left. now exists t.
    + right; right; right. now exists t.
  - intros [[p [H E]]|[[p [H E]]|[[t [H E]]|[t [H E]]]]]; subst k.
    + left. now exists p.
    + right; left. now exists p.
    + right; right; left. now exists t.
    + right; right; right. now exists t.
Qed.

Lemma keys_of_kind_unique (k : kind) (ids : list Z) :
  NoDup ids -> NoDup (map (key_of k) ids).
Proof.
  intro H. induction H as [|id ids Hn _ IH]; cbn [map]; constructor;
    [|exact IH].
  intro Hin. apply in_map_iff in Hin. destruct Hin as [j [E Hj]].
  apply key_of_inj in E. destruct E as [_ ->]. contradiction.
Qed.

Lemma keys_of_kinds_apart (k1 k2 : kind) (ids1 ids2 : list Z)
      (key : node_key) :
  k1 <> k2 ->
  In key (map (key_of k1) ids1) -> ~ In key (map (key_of k2) ids2).
Proof.
  intros Hk H1 H2. apply in_map_iff in H1, H2.
  destruct H1 as [i [E1 _]]. destruct H2 as [j [E2 _]].
  rewrite <- E2 in E1. apply key_of_inj in E1. now destruct E1.
Qed.

Lemma unique_app (A : Type) (l l' : list A) :
  NoDup l -> NoDup l' -> (forall a, In a l -> ~ In a l') -> NoDup (l ++ l').
Proof.
  intros H H' Hd. induction H as [|a l Hn _ IH]; [exact H'|].
  cbn [app]. constructor.
  - rewrite in_app_iff. intros [Hin|Hin]; [contradiction|].
    apply (Hd a); [now left|exact Hin].
  - apply IH. intros b Hb. apply Hd. now right.
Qed.

Lemma record_keys_unique (content : site_content) :
  NoDup (map post_id (posts content)) ->
  NoDup (map page_id (pages content)) ->
  NoDup (map term_id (categories content)) ->
  NoDup (map term_id (tags content)) ->
  NoDup (record_keys content).
Proof.
  intros Hp Hg Hc Ht. unfold record_keys.
  repeat apply unique_app; try now apply keys_of_kind_unique.
  - intros a Ha. eapply keys_of_kinds_apart; [|exact Ha]. discriminate.
  - intros a Ha. rewrite in_app_iff.
    intros [H|H]; revert H;
      (eapply keys_of_kinds_apart; [|exact Ha]; discriminate).
  - intros a Ha. rewrite !in_app_iff.
    intros [H|[H|H]]; revert H;
      (eapply keys_of_kinds_apart; [|exact Ha]; discriminate).
Qed.

(** X20. The size of a completed graph.  When graph construction completes,
    the graph has at most as many nodes as the site has records (posts,
    pages, categories and tags); it has exactly as many when no id occurs
    twice among the records of one kind.  Records of one kind that share an
    id are merged into one node. *)
Theorem completed_graph_node_count
        (re_sub : string -> string -> string -> string)
        (re_findall : string -> string -> list string)
        (content : site_content) (url : string)
        (g : DiGraph) (s' : analyzer) :
  build_content_graph re_sub re_findall content (init url) = (Ok g, s') ->
  List.length (g_node g) <= record_count content
  /\ (NoDup (map post_id (posts content)) ->
      NoDup (map page_id (pages content)) ->
      NoDup (map term_id (categories content)) ->
      NoDup (map term_id (tags content)) ->
      List.length (g_node g) = record_count content).
Proof.
  intro H.
  destruct (completed_graph_nodes_aux re_sub re_findall content url H)
    as [Hk [_ Hu]].
  rewrite <- record_keys_length, <- (length_map fst (g_node g)).
  assert (Hle : List.length (map fst (g_node g))
                <= List.length (record_keys content)).
  { apply NoDup_incl_length; [exact Hu|].
    intros k Hin. apply record_keys_spec. now apply Hk. }
  split; [exact Hle|].
  intros Hp Hg Hc Ht. apply Nat.le_antisymm; [exact Hle|].
  apply NoDup_incl_length; [now apply record_keys_unique|].
  intros k Hin. apply Hk. now apply record_keys_spec.
Qed.

Lemma completed_graph_node_count_witness :
  exists g,
    fst (build_content_graph (fun _ _ text => text) find_about
           resolved_content (init "http://site.example/")) = Ok g
    /\ List.length (g_node g) = record_count resolved_content.
Proof.
  eexists. split; [vm_compute; reflexivity|].
  eapply (fun H => proj2 (@completed_graph_node_count
                            (fun _ _ text => text) find_about
                            resolved_content "http://site.example/" _ _ H)).
  - vm_compute. reflexivity.
  - repeat constructor. intros [].
  - repeat constructor. intros [].
  - repeat constructor. intros [].
  - repeat constructor. intros [].
Defined.

(** ** Markdown heading markers *)

Lemma h3_prefix_is_late_h2 (c : ascii) (rest : string) :
  prefix "### " (String c rest) = true ->
  prefix "## " (String c rest) = false /\ prefix "## " rest = true.
Proof.
  cbn [prefix]. destruct (ascii_dec "#" c); [|discriminate].
  intro H. split; [|exact H].
  destruct rest as [|c1 rest]; [discriminate|]. cbn [prefix] in *.
  destruct (ascii_dec "#" c1); [|discriminate].
  destruct rest as [|c2 rest]; [discriminate|]. cbn [prefix] in *.
  destruct (ascii_dec "#" c2) as [<-|]; [|discriminate].
  destruct (ascii_dec " " "#"); [discriminate|reflexivity].
Qed.

Lemma h3_scan_behind_h2_scan (s : string) :
  (forall skip2 skip3,
      skip2 <= 2 ->
      PyStr.count_from "### " s skip3
      <= PyStr.count_from "## " s skip2 + slack skip2 skip3)
  /\ (prefix "## " s = true ->
      S (PyStr.count_from "### " s 3) <= PyStr.count_from "## " s 0).
Proof.
  induction s as [|c rest [IHa IHc]].
  - split; [intros; cbn; lia|discriminate].
  - split.
    + intros skip2 skip3 H2.
      cbn [PyStr.count_from String.length Nat.sub].
      destruct skip3 as [|skip3].
      * destruct (prefix "### " (String c rest)) eqn:E3.
        -- destruct (h3_prefix_is_late_h2 _ _ E3) as [E2 E2'].
           rewrite E2.
           destruct skip2 as [|[|[|skip2]]]; try lia.
           ++ specialize (IHc E2'). unfold slack. cbn. lia.
           ++ specialize (IHc E2'). unfold slack. cbn. lia.
           ++ specialize (IHa 1 3 ltac:(lia)). unfold slack in *.
              cbn in *. lia.
        -- destruct skip2 as [|[|[|skip2]]]; try lia.
           ++ destruct (prefix "## " (String c rest)).
              ** specialize (IHa 2 0 ltac:(lia)). unfold slack in *.
                 cbn in *. lia.
              ** specialize (IHa 0 0 ltac:(lia)). unfold slack in *.
                 cbn in *. lia.
           ++ specialize (IHa 0 0 ltac:(lia)). unfold slack in *.
              cbn in *. lia.
           ++ specialize (IHa 1 0 ltac:(lia)). unfold slack in *.
              cbn in *. lia.
      * destruct skip2 as [|skip2].
        -- destruct (prefix "## " (String c rest)).
           ++ specialize (IHa 2 skip3 ltac:(lia)). unfold slack in *.
              destruct (2 <=? skip3 + 1)%nat; cbn in *; lia.
           ++ specialize (IHa 0 skip3 ltac:(lia)). unfold slack in *.
              cbn in *. lia.
        -- specialize (IHa skip2 skip3 ltac:(lia)). unfold slack in *.
           replace (S skip2 <=? S skip3 + 1)%nat
             with (skip2 <=? skip3 + 1)%nat; [exact IHa|].
           destruct (Nat.leb_spec skip2 (skip3 + 1)),
                    (Nat.leb_spec (S skip2) (S skip3 + 1));
             try reflexivity; lia.
    + intro E2. cbn [PyStr.count_from String.length Nat.sub]. rewrite E2.
      specialize (IHa 2 2 ltac:(lia)). unfold slack in IHa. cbn in *. lia.
Qed.

(** X21. A markdown third-level heading is counted as a second-level
    heading too: the marker ["### "] holds the marker ["## "], so text has
    at least as many ["## "] as ["### "].  On text without ["<"], which is
    what the graph stores for well-formed markup, the third-level count
    never exceeds the second-level count. *)
Theorem h3_markers_count_as_h2 (content : string) :
  PyStr.count content "### " <= PyStr.count content "## "
  /\ PyStr.count content "### " <= h2_count_of content
  /\ (has_char "<" content = false ->
      h3_count_of content <= h2_count_of content).
Proof.
  assert (H : PyStr.count content "### " <= PyStr.count content "## ").
  { unfold PyStr.count.
    pose proof (proj1 (h3_scan_behind_h2_scan content) 0 0 ltac:(lia)) as H.
    unfold slack in H. cbn in H. lia. }
  split; [exact H|]. unfold h2_count_of, h3_count_of.
  split; [lia|]. intro Hc. unfold PyStr.count at 1 3.
  rewrite !(fun sub => @absent_not_counted _ sub _ Hc). lia.
Qed.

(** ** Taxonomy edges in the connectivity figures *)

Lemma analysis_records
      (fit_transform : list string -> option (list string * list (list float)))
      (cosine_similarity : list (list float) -> list (list float))
      (argsort : list float -> list nat)
      (self self' : analyzer) (analysis : depth_analysis) :
  analyze_content_depth fit_transform cosine_similarity argsort self
  = (Ok analysis, self') ->
  (forall k sd, In (k, sd) (content_scores analysis) ->
                scored_from (content_graph self) k sd)
  /\ hub_potential analysis
     = filter is_hub (map snd (content_scores analysis))
  /\ orphan_content analysis
     = filter is_orphan (map snd (content_scores analysis)).
Proof.
  intro H. unfold analyze_content_depth, bind in H.
  destruct (score_nodes self) as [[scores|e] s1] eqn:Es; [|discriminate H].
  apply score_nodes_invariant in Es.
  destruct Es as [-> [Hrec _]].
  destruct (identify_semantic_clusters fit_transform cosine_similarity
                                       argsort self) as [[cs|e] s2];
    [|discriminate H].
  unfold ret in H. injection H as <- _.
  cbn [content_scores hub_potential orphan_content]. now repeat split.
Qed.

(** X22. The figure [internal_links] of a post counts its category and tag
    edges.  After a completed construction and a completed analysis, the
    score record of a post has an [internal_links] figure no smaller than
    the number of distinct category and tag references of the post; a post
    with two of them is never listed as an orphan, and one with six of them
    passes the link test for hubs, whatever its links. *)
Theorem taxonomy_edges_count_as_links
      (re_sub : string -> string -> string -> string)
      (re_findall : string -> string -> list string)
      (fit_transform : list string -> option (list string * list (list float)))
      (cosine_similarity : list (list float) -> list (list float))
      (argsort : list float -> list nat)
      (content : site_content) (url : string) (g : DiGraph)
      (s1 s2 : analyzer) (analysis : depth_analysis) :
  build_content_graph re_sub re_findall content (init url) = (Ok g, s1) ->
  analyze_content_depth fit_transform cosine_similarity argsort s1
  = (Ok analysis, s2) ->
  forall k d sd es,
    In (k, d) (g_node g) -> a_type d = Some "post" ->
    NoDup es -> (forall e, In e es -> taxonomy_edge k d e) ->
    In (k, sd) (content_scores analysis) ->
    List.length es <= sd_internal_links sd
    /\ (2 <= List.length es -> ~ In sd (orphan_content analysis))
    /\ (6 <= List.length es ->
        (In sd (hub_potential analysis)
         <-> PyFloat.gt (sd_depth_score sd) 0.7%float = true)).
Proof.
  intros Hb Ha k d sd es Hin Ht Hnd Hes Hsc.
  destruct (completed_graph_edges_aux re_sub re_findall content url Hb)
    as [Hedge _].
  assert (Eg : g = content_graph s1).
  { now destruct (completed_build _ _ _ _ Hb) as [s3 [_ [_ ->]]]. }
  destruct (analysis_records _ _ _ _ Ha) as [Hrec [Eh Eo]].
  destruct (Hrec k sd Hsc) as [d' [ty [_ [_ [_ [_ [_ [_ [_ [Hl _]]]]]]]]]].
  rewrite <- Eg in Hl.
  assert (Hlen : List.length es <= sd_internal_links sd).
  { rewrite Hl. unfold out_degree. apply NoDup_incl_length; [exact Hnd|].
    intros e He. apply filter_In. split.
    - apply (Hedge k d); [exact Hin|exact Ht|now apply Hes].
    - destruct (Hes e He) as [[id [_ ->]]|[id [_ ->]]];
        apply node_key_eqb_refl. }
  assert (Hmem : In sd (map snd (content_scores analysis))).
  { apply in_map_iff. exists (k, sd). now split. }
  split; [exact Hlen|]. split.
  - intros H2 Ho. rewrite Eo in Ho. apply filter_In in Ho.
    destruct Ho as [_ Ho]. unfold is_orphan in Ho.
    apply andb_true_iff in Ho. destruct Ho as [_ Ho].
    apply Nat.ltb_lt in Ho. lia.
  - intro H6. rewrite Eh, filter_In. unfold is_hub.
    rewrite andb_true_iff, Nat.ltb_lt. split; [tauto|].
    intro Hs. split; [exact Hmem|]. split; [lia|exact Hs].
Qed.

Lemma taxonomy_edges_count_as_links_witness :
  exists g s1 analysis s2 sd,
    build_content_graph (fun _ _ text => text) (fun _ _ => [])
                        resolved_content (init "http://site.example/")
    = (Ok g, s1)
    /\ analyze_content_depth Sample.fit_transform Sample.cosine_similarity
                             Sample.argsort s1 = (Ok analysis, s2)
    /\ In (IntKey 1, sd) (content_scores analysis)
    /\ 2 <= sd_internal_links sd.
Proof.
  do 5 eexists.
  split; [vm_compute; reflexivity|].
  split; [vm_compute; reflexivity|].
  split; [left; reflexivity|].
  refine (proj1 (@taxonomy_edges_count_as_links
                   (fun _ _ text => text) (fun _ _ => [])
                   Sample.fit_transform Sample.cosine_similarity
                   Sample.argsort resolved_content "http://site.example/"
                   _ _ _ _ _ _ (IntKey 1) _ _
                   [(IntKey 1, cat_key 7, "categorized_as");
                    (IntKey 1, tag_key 9, "tagged_as")]
                   _ _ _ _ _)).
  - vm_compute. reflexivity.
  - vm_compute. reflexivity.
  - left. reflexivity.
  - reflexivity.
  - repeat constructor.
    + intros [E|[]]. discriminate E.
    + intros [].
  - intros e [<-|[<-|[]]].
    + left. exists 7%Z. split; [now left|reflexivity].
    + right. exists 9%Z. split; [now left|reflexivity].
  - left. reflexivity.
Defined.
